(** * Racketlon score calculator: the scoring engine of [scoring.js]

    A shallow embedding of [parseScore], [analyzeMatch] and the scenario
    generators of [scoring.js], with the properties of the engine stated
    and proved over it.

    Modelling conventions.
    - A JavaScript string is the list of its UTF-16 code units
      ([jsstring]); literals are written as ordinary string literals and
      decoded by [js].
    - A JavaScript number computed by the engine is modelled by an integer
      of [Z].  The engine only adds, subtracts, compares and prints
      integers read by [parseInt]; up to [MAX_SAFE_INTEGER] (2^53 - 1) these
      are numbers of JavaScript, their sums and differences are exact and
      they print with all their digits.  Beyond it the code rounds (and
      reads the longest numerals as [Infinity]), which the model does not:
      every property that depends on the value of a score is stated under
      [safeScores], the hypothesis that the scores read and both totals
      are at most [MAX_SAFE_INTEGER], or for scores of at most 21 a side
      ([capped]).
    - Code that can throw returns a [Completion]: [Return v] or
      [Throw TypeError].
    - The mutable [result] object is threaded explicitly; [push] is
      [result.analysis.push]. *)

From Stdlib Require Import ZArith List Bool Lia String Ascii NArith.
From Stdlib Require DecimalPos.
Import ListNotations.

Local Open Scope Z_scope.

(** ** JavaScript strings *)

Definition jsstring := list N.

Module Utf16.

(** Code units of one code point (a surrogate pair above the BMP). *)
Definition units (cp : N) : jsstring :=
  if (cp <? 65536)%N then [cp]
  else let c := (cp - 65536)%N in
       [(55296 + c / 1024)%N; (56320 + c mod 1024)%N].

(** UTF-8 decoder: [need] continuation bytes are still expected and
    [acc] holds the bits read so far. *)
Fixpoint decode (need : nat) (acc : N) (bs : list N) : jsstring :=
  match bs with
  | [] => []
  | b :: bs' =>
      match need with
      | O =>
          if (b <? 128)%N then units b ++ decode 0 0%N bs'
          else if (b <? 224)%N then decode 1 (b - 192)%N bs'
          else if (b <? 240)%N then decode 2 (b - 224)%N bs'
          else decode 3 (b - 240)%N bs'
      | S O => units (acc * 64 + (b - 128))%N ++ decode 0 0%N bs'
      | S n => decode n (acc * 64 + (b - 128))%N bs'
      end
  end.

Fixpoint bytes (s : string) : list N :=
  match s with
  | EmptyString => []
  | String c s' => N_of_ascii c :: bytes s'
  end.

End Utf16.

(** The JavaScript string written by the literal [s]. *)
Definition js (s : string) : jsstring := Utf16.decode 0 0%N (Utf16.bytes s).

Definition jsstring_eqb (a b : jsstring) : bool :=
  if list_eq_dec N.eq_dec a b then true else false.

(** ECMAScript WhiteSpace and LineTerminator code points: what
    [String.prototype.trim] strips and what [\s] matches. *)
Definition isSpace (c : N) : bool :=
  ((c =? 9) || (c =? 10) || (c =? 11) || (c =? 12) || (c =? 13) || (c =? 32)
   || (c =? 160) || (c =? 5760) || ((8192 <=? c) && (c <=? 8202))
   || (c =? 8232) || (c =? 8233) || (c =? 8239) || (c =? 8287)
   || (c =? 12288) || (c =? 65279))%N.

(** [\d]: the ASCII digits. *)
Definition isDigit (c : N) : bool := ((48 <=? c) && (c <=? 57))%N.

Definition hyphen : N := 45%N.

Fixpoint dropWhile {A} (p : A -> bool) (l : list A) : list A :=
  match l with
  | [] => []
  | x :: l' => if p x then dropWhile p l' else l
  end.

Fixpoint takeWhile {A} (p : A -> bool) (l : list A) : list A :=
  match l with
  | [] => []
  | x :: l' => if p x then x :: takeWhile p l' else []
  end.

(** [s.trim()] *)
Definition trim (s : jsstring) : jsstring :=
  rev (dropWhile isSpace (rev (dropWhile isSpace s))).

(** [s.replace(/\s+/g, "")] *)
Definition removeSpaces (s : jsstring) : jsstring :=
  filter (fun c => negb (isSpace c)) s.

(** [Number.MAX_SAFE_INTEGER], 2^53 - 1.  Every integer up to it is a number
    of JavaScript, and a sum or difference of such integers that stays
    within it is computed exactly. *)
Definition MAX_SAFE_INTEGER : Z := 9007199254740991.

(** [parseInt(ds, 10)] on a string of decimal digits: the integer that the
    digits write, which is the number that the code reads as long as it is
    at most [MAX_SAFE_INTEGER]. *)
Definition parseInt (ds : jsstring) : Z :=
  fold_left (fun acc c => 10 * acc + (Z.of_N c - 48)) ds 0.

(** [cleaned.match(/^(\d+)-(\d+)$/)]: the two captured groups. *)
Definition matchScore (cleaned : jsstring) : option (jsstring * jsstring) :=
  let d1 := takeWhile isDigit cleaned in
  match d1, dropWhile isDigit cleaned with
  | _ :: _, c :: d2 =>
      if (c =? hyphen)%N && negb (Nat.eqb (List.length d2) 0) && forallb isDigit d2
      then Some (d1, d2) else None
  | _, _ => None
  end.

(** Decimal rendering of an integer in a template literal: all its digits,
    as the code prints every integer up to [MAX_SAFE_INTEGER]. *)
Module Render.

Fixpoint digits (u : Decimal.uint) : jsstring :=
  match u with
  | Decimal.Nil => []
  | Decimal.D0 u => 48%N :: digits u
  | Decimal.D1 u => 49%N :: digits u
  | Decimal.D2 u => 50%N :: digits u
  | Decimal.D3 u => 51%N :: digits u
  | Decimal.D4 u => 52%N :: digits u
  | Decimal.D5 u => 53%N :: digits u
  | Decimal.D6 u => 54%N :: digits u
  | Decimal.D7 u => 55%N :: digits u
  | Decimal.D8 u => 56%N :: digits u
  | Decimal.D9 u => 57%N :: digits u
  end.

Definition num (z : Z) : jsstring :=
  match z with
  | Z0 => [48%N]
  | Zpos p => digits (Pos.to_uint p)
  | Zneg p => hyphen :: digits (Pos.to_uint p)
  end.

End Render.

(** ** JavaScript values and completions *)

(** A number that reaches the engine as a value of the scores object.
    The engine tests such a value for truthiness and nothing else: zero and
    [NaN] are falsy, every other number is truthy.  Numbers with a
    fractional part are not represented; they are truthy, as [Infinity]
    is. *)
Inductive jsnumber :=
| Int (n : Z)
| NaN
| Infinity (negative : bool).

Inductive jsval :=
| VUndefined
| VNull
| VStr (s : jsstring)
| VNum (n : jsnumber).

Inductive JsError := TypeError.

Inductive Completion (A : Type) :=
| Return (a : A)
| Throw (e : JsError).
Arguments Return {A} a.
Arguments Throw {A} e.

Definition bind {A B} (c : Completion A) (k : A -> Completion B) : Completion B :=
  match c with
  | Return a => k a
  | Throw e => Throw e
  end.

Notation "x <- c ;; k" := (bind c (fun x => k))
  (at level 61, c at next level, right associativity).

(** Truthiness, as tested by [!v] and [v || d]. *)
Definition truthy (v : jsval) : bool :=
  match v with
  | VUndefined | VNull => false
  | VStr s => negb (Nat.eqb (List.length s) 0)
  | VNum (Int n) => negb (n =? 0)
  | VNum NaN => false
  | VNum (Infinity _) => true
  end.

(** [typeof v === 'string'] *)
Definition isString (v : jsval) : bool :=
  match v with
  | VStr _ => true
  | _ => false
  end.

(** ** The score parser *)

(** [parseScore(scoreStr)].  A truthy value that is not a string has no
    [trim] method, so the call throws. *)
Definition parseScore (scoreStr : jsval) : Completion (option (Z * Z)) :=
  if negb (truthy scoreStr) then Return None
  else match scoreStr with
       | VStr s =>
           if jsstring_eqb (trim s) [] || jsstring_eqb s (js "-") then Return None
           else
             let cleaned := removeSpaces s in
             match matchScore cleaned with
             | None => Return None
             | Some (m1, m2) => Return (Some (parseInt m1, parseInt m2))
             end
       | _ => Throw TypeError
       end.

(** String conversion inside a template literal. *)
Definition toStr (v : jsval) : jsstring :=
  match v with
  | VUndefined => js "undefined"
  | VNull => js "null"
  | VStr s => s
  | VNum (Int n) => Render.num n
  | VNum NaN => js "NaN"
  | VNum (Infinity negative) => if negative then js "-Infinity" else js "Infinity"
  end.

(** ** The data model *)

Inductive Sport := tabletennis | badminton | squash | tennis.

Definition SPORTS : list Sport := [tabletennis; badminton; squash; tennis].

Definition SPORT_LABELS (s : Sport) : jsstring :=
  match s with
  | tabletennis => js "Ping-pong"
  | badminton => js "Badminton"
  | squash => js "Squash"
  | tennis => js "Tennis"
  end.

Definition MAX_POINTS_PER_SET : Z := 21.

Definition Sport_eqb (a b : Sport) : bool :=
  match a, b with
  | tabletennis, tabletennis | badminton, badminton
  | squash, squash | tennis, tennis => true
  | _, _ => false
  end.

(** The [scores] argument: an object read at the four sport keys. *)
Definition Scores := Sport -> jsval.

Record SportResult := {
  label : jsstring;
  played : bool;
  scoreA : option Z;
  scoreB : option Z;
  delta : Z
}.

Inductive Status := in_progress | finished | gummiarm.

Inductive EntryType :=
| t_leader | t_tied | t_winner | t_gummiarm | t_clinched | t_scenario
| t_gummiarm_scenario | t_skip_tennis | t_tennis_setup | t_clinch_possible
| t_info | t_header.

Record Entry := { type : EntryType; message : jsstring }.

(** An object keyed by sport, in insertion order. *)
Definition SportsObj := list (Sport * SportResult).

Fixpoint getProp (o : SportsObj) (k : Sport) : option SportResult :=
  match o with
  | [] => None
  | (k', v) :: o' => if Sport_eqb k' k then Some v else getProp o' k
  end.

Fixpoint setProp (o : SportsObj) (k : Sport) (v : SportResult) : SportsObj :=
  match o with
  | [] => [(k, v)]
  | (k', v') :: o' =>
      if Sport_eqb k' k then (k, v) :: o' else (k', v') :: setProp o' k v
  end.

Record MatchResult := {
  playerA : jsstring;
  playerB : jsstring;
  sports : SportsObj;
  totalA : Z;
  totalB : Z;
  currentDelta : Z;
  sportsPlayed : Z;
  sportsRemaining : Z;
  maxRemainingPoints : Z;
  status : Status;
  winner : option jsstring;
  analysis : list Entry
}.

(** Field updates of the [result] object. *)

Definition set_sports (v : SportsObj) (r : MatchResult) : MatchResult :=
  {| playerA := playerA r; playerB := playerB r; sports := v;
     totalA := totalA r; totalB := totalB r; currentDelta := currentDelta r;
     sportsPlayed := sportsPlayed r; sportsRemaining := sportsRemaining r;
     maxRemainingPoints := maxRemainingPoints r; status := status r;
     winner := winner r; analysis := analysis r |}.

Definition set_totalA (v : Z) (r : MatchResult) : MatchResult :=
  {| playerA := playerA r; playerB := playerB r; sports := sports r;
     totalA := v; totalB := totalB r; currentDelta := currentDelta r;
     sportsPlayed := sportsPlayed r; sportsRemaining := sportsRemaining r;
     maxRemainingPoints := maxRemainingPoints r; status := status r;
     winner := winner r; analysis := analysis r |}.

Definition set_totalB (v : Z) (r : MatchResult) : MatchResult :=
  {| playerA := playerA r; playerB := playerB r; sports := sports r;
     totalA := totalA r; totalB := v; currentDelta := currentDelta r;
     sportsPlayed := sportsPlayed r; sportsRemaining := sportsRemaining r;
     maxRemainingPoints := maxRemainingPoints r; status := status r;
     winner := winner r; analysis := analysis r |}.

Definition set_currentDelta (v : Z) (r : MatchResult) : MatchResult :=
  {| playerA := playerA r; playerB := playerB r; sports := sports r;
     totalA := totalA r; totalB := totalB r; currentDelta := v;
     sportsPlayed := sportsPlayed r; sportsRemaining := sportsRemaining r;
     maxRemainingPoints := maxRemainingPoints r; status := status r;
     winner := winner r; analysis := analysis r |}.

Definition set_sportsPlayed (v : Z) (r : MatchResult) : MatchResult :=
  {| playerA := playerA r; playerB := playerB r; sports := sports r;
     totalA := totalA r; totalB := totalB r; currentDelta := currentDelta r;
     sportsPlayed := v; sportsRemaining := sportsRemaining r;
     maxRemainingPoints := maxRemainingPoints r; status := status r;
     winner := winner r; analysis := analysis r |}.

Definition set_sportsRemaining (v : Z) (r : MatchResult) : MatchResult :=
  {| playerA := playerA r; playerB := playerB r; sports := sports r;
     totalA := totalA r; totalB := totalB r; currentDelta := currentDelta r;
     sportsPlayed := sportsPlayed r; sportsRemaining := v;
     maxRemainingPoints := maxRemainingPoints r; status := status r;
     winner := winner r; analysis := analysis r |}.

Definition set_maxRemainingPoints (v : Z) (r : MatchResult) : MatchResult :=
  {| playerA := playerA r; playerB := playerB r; sports := sports r;
     totalA := totalA r; totalB := totalB r; currentDelta := currentDelta r;
     sportsPlayed := sportsPlayed r; sportsRemaining := sportsRemaining r;
     maxRemainingPoints := v; status := status r; winner := winner r;
     analysis := analysis r |}.

Definition set_status (v : Status) (r : MatchResult) : MatchResult :=
  {| playerA := playerA r; playerB := playerB r; sports := sports r;
     totalA := totalA r; totalB := totalB r; currentDelta := currentDelta r;
     sportsPlayed := sportsPlayed r; sportsRemaining := sportsRemaining r;
     maxRemainingPoints := maxRemainingPoints r; status := v;
     winner := winner r; analysis := analysis r |}.

Definition set_winner (v : option jsstring) (r : MatchResult) : MatchResult :=
  {| playerA := playerA r; playerB := playerB r; sports := sports r;
     totalA := totalA r; totalB := totalB r; currentDelta := currentDelta r;
     sportsPlayed := sportsPlayed r; sportsRemaining := sportsRemaining r;
     maxRemainingPoints := maxRemainingPoints r; status := status r;
     winner := v; analysis := analysis r |}.

Definition set_analysis (v : list Entry) (r : MatchResult) : MatchResult :=
  {| playerA := playerA r; playerB := playerB r; sports := sports r;
     totalA := totalA r; totalB := totalB r; currentDelta := currentDelta r;
     sportsPlayed := sportsPlayed r; sportsRemaining := sportsRemaining r;
     maxRemainingPoints := maxRemainingPoints r; status := status r;
     winner := winner r; analysis := v |}.

(** [result.analysis.push({type, message})] *)
Definition push (t : EntryType) (m : jsstring) (result : MatchResult) : MatchResult :=
  set_analysis (analysis result ++ [{| type := t; message := m |}]) result.

(** ** The scenario generator *)

(** [calculateScoreForGain(gain, forB = false)]: a string, or [null]. *)
Definition calculateScoreForGain (gain : Z) (forB : bool) : jsval :=
  if (gain >? 21) || (gain <? -21) then VNull
  else
    let loserScore := Z.max 0 (21 - gain) in
    if loserScore >? 21 then VNull
    else if forB then VStr (Render.num loserScore ++ js "-21")
    else VStr (js "21-" ++ Render.num loserScore).

(** [analyzeLastSport(result, playerA, playerB, delta, sportLabel)] *)
Definition analyzeLastSport (result : MatchResult) (playerA playerB : jsstring)
    (delta : Z) (sportLabel : jsstring) : MatchResult :=
  if delta >? 0 then
    if delta >? 21 then
      push t_clinched
        (playerA ++ js " a déjà gagné ! Même un 0-21 au " ++ sportLabel
           ++ js " ne suffirait pas.") result
    else if delta =? 21 then
      push t_scenario
        (playerB ++ js " doit faire 21-0 au " ++ sportLabel
           ++ js " pour aller au Gummiarm") result
    else
      let bMinWinScore := 21 - delta - 1 in
      let gummiScore := 21 - delta in
      let result :=
        push t_scenario
          (js "🏆 " ++ playerB ++ js " gagne si " ++ sportLabel ++ js " ≥ 21-"
             ++ Render.num bMinWinScore) result in
      let result :=
        push t_scenario
          (js "🏆 " ++ playerA ++ js " gagne si " ++ sportLabel ++ js " ≤ 21-"
             ++ Render.num (bMinWinScore + 2) ++ js " ou " ++ playerA
             ++ js " gagne le set") result in
      if delta <=? 21 then
        push t_gummiarm_scenario
          (js "⚡ Gummiarm si " ++ sportLabel ++ js " = 21-"
             ++ Render.num gummiScore) result
      else result
  else if delta <? 0 then
    let absDelta := Z.abs delta in
    if absDelta >? 21 then
      push t_clinched
        (playerB ++ js " a déjà gagné ! Même un 21-0 au " ++ sportLabel
           ++ js " ne suffirait pas.") result
    else
      let aMinWinScore := 21 - absDelta - 1 in
      let gummiScore := 21 - absDelta in
      let result :=
        push t_scenario
          (js "🏆 " ++ playerA ++ js " gagne si " ++ sportLabel ++ js " ≥ 21-"
             ++ Render.num aMinWinScore) result in
      let result :=
        push t_scenario
          (js "🏆 " ++ playerB ++ js " gagne si " ++ sportLabel ++ js " ≤ 21-"
             ++ Render.num (aMinWinScore + 2) ++ js " ou " ++ playerB
             ++ js " gagne le set") result in
      if absDelta <=? 21 then
        push t_gummiarm_scenario
          (js "⚡ Gummiarm si " ++ sportLabel ++ js " = 21-"
             ++ Render.num gummiScore) result
      else result
  else
    let result :=
      push t_scenario
        (js "Le gagnant du " ++ sportLabel ++ js " remporte le match !") result in
    push t_gummiarm_scenario
      (js "⚡ Gummiarm si égalité au " ++ sportLabel) result.

(** [analyzeBeforeTennis(result, playerA, playerB, delta, sportLabel, scores)] *)
Definition analyzeBeforeTennis (result : MatchResult) (playerA playerB : jsstring)
    (delta : Z) (sportLabel : jsstring) (scores : Scores) : MatchResult :=
  let result :=
    push t_header (js "📊 Analyse " ++ sportLabel ++ js " :") result in
  let maxSquashGain := 21 in
  let minSquashGain := -21 in
  let aGainNeededToSkipTennis := 22 - delta in
  let bGainNeededToSkipTennis := -22 - delta in
  if delta >=? 0 then
    let result :=
      if aGainNeededToSkipTennis <=? 21 then
        let aScoreNeeded := calculateScoreForGain aGainNeededToSkipTennis false in
        if truthy aScoreNeeded then
          push t_skip_tennis
            (js "🏆 " ++ playerA ++ js " gagne SANS tennis si : " ++ sportLabel
               ++ js " en " ++ toStr aScoreNeeded ++ js " ou mieux") result
        else result
      else result in
    let result :=
      if delta <=? 21 then
        let bGainNeeded := Z.abs bGainNeededToSkipTennis in
        if bGainNeeded <=? 21 then
          let bScoreNeeded := calculateScoreForGain bGainNeeded true in
          if truthy bScoreNeeded then
            push t_skip_tennis
              (js "🏆 " ++ playerB ++ js " gagne SANS tennis si : " ++ sportLabel
                 ++ js " en " ++ toStr bScoreNeeded ++ js " ou mieux") result
          else result
        else result
      else result in
    let aNeededForLead := if delta <=? 0 then Z.abs delta + 1 else 0 in
    let bNeededForLead := if delta >=? 0 then delta + 1 else 0 in
    if delta >? 0 then
      let result :=
        push t_tennis_setup
          (js "🎾 " ++ playerA ++ js " va au tennis avec l'avantage si perd de "
             ++ Render.num (delta - 1) ++ js " pts ou moins au " ++ sportLabel)
          result in
      push t_tennis_setup
        (js "🎾 " ++ playerB ++ js " doit gagner +" ++ Render.num (delta + 1)
           ++ js " pts au " ++ sportLabel ++ js " pour avoir l'avantage au tennis")
        result
    else if delta =? 0 then
      push t_tennis_setup
        (js "🎾 Le gagnant du " ++ sportLabel ++ js " aura l'avantage au tennis")
        result
    else result
  else
    let absDelta := Z.abs delta in
    let bGainForClinch := 22 - absDelta in
    let result :=
      if bGainForClinch <=? 21 then
        let bScoreNeeded := calculateScoreForGain bGainForClinch true in
        if truthy bScoreNeeded then
          push t_skip_tennis
            (js "🏆 " ++ playerB ++ js " gagne SANS tennis si : " ++ sportLabel
               ++ js " en " ++ toStr bScoreNeeded ++ js " ou mieux") result
        else result
      else result in
    let aGainForClinch := 22 + absDelta in
    let result :=
      if aGainForClinch <=? 21 then
        let aScoreNeeded := calculateScoreForGain aGainForClinch false in
        if truthy aScoreNeeded then
          push t_skip_tennis
            (js "🏆 " ++ playerA ++ js " gagne SANS tennis si : " ++ sportLabel
               ++ js " en " ++ toStr aScoreNeeded ++ js " ou mieux") result
        else result
      else result in
    let result :=
      push t_tennis_setup
        (js "🎾 " ++ playerB ++ js " va au tennis avec l'avantage si perd de "
           ++ Render.num (absDelta - 1) ++ js " pts ou moins au " ++ sportLabel)
        result in
    push t_tennis_setup
      (js "🎾 " ++ playerA ++ js " doit gagner +" ++ Render.num (absDelta + 1)
         ++ js " pts au " ++ sportLabel ++ js " pour avoir l'avantage au tennis")
      result.

(** [analyzeMultipleSportsRemaining(result, playerA, playerB, delta,
    sportLabel, remaining)] *)
Definition analyzeMultipleSportsRemaining (result : MatchResult)
    (playerA playerB : jsstring) (delta : Z) (sportLabel : jsstring)
    (remaining : Z) : MatchResult :=
  let pointsAfterThis := (remaining - 1) * MAX_POINTS_PER_SET in
  let result :=
    push t_info
      (Render.num remaining ++ js " sports restants ("
         ++ Render.num (pointsAfterThis + 21) ++ js " pts max)") result in
  let aGainToClinch := pointsAfterThis - delta + 1 in
  let bGainToClinch := pointsAfterThis + delta + 1 in
  let result :=
    if aGainToClinch <=? 21 then
      let score := calculateScoreForGain aGainToClinch false in
      push t_clinch_possible
        (playerA ++ js " peut gagner après " ++ sportLabel ++ js " avec un "
           ++ toStr score ++ js " ou mieux") result
    else result in
  let result :=
    if bGainToClinch <=? 21 then
      let score := calculateScoreForGain bGainToClinch true in
      push t_clinch_possible
        (playerB ++ js " peut gagner après " ++ sportLabel ++ js " avec un "
           ++ toStr score ++ js " ou mieux") result
    else result in
  if (aGainToClinch >? 21) && (bGainToClinch >? 21) then
    push t_info
      (js "Aucun ne peut gagner après " ++ sportLabel
         ++ js " seul, le match continue") result
  else result.

(** [SPORTS.findIndex(pred)], with a predicate that may throw. *)
Fixpoint findIndexFrom {A} (pred : A -> Completion bool) (l : list A) (i : Z)
    : Completion Z :=
  match l with
  | [] => Return (-1)
  | x :: l' =>
      b <- pred x ;;
      if b then Return i else findIndexFrom pred l' (i + 1)
  end.

Definition findIndex {A} (pred : A -> Completion bool) (l : list A) : Completion Z :=
  findIndexFrom pred l 0.

(** [result.sports[s].played]; reading [played] of a missing entry throws. *)
Definition sportPlayed (result : MatchResult) (s : Sport) : Completion bool :=
  match getProp (sports result) s with
  | Some sr => Return (played sr)
  | None => Throw TypeError
  end.

(** [generateInProgressAnalysis(result, playerA, playerB, scores)] *)
Definition generateInProgressAnalysis (result : MatchResult)
    (playerA playerB : jsstring) (scores : Scores) : Completion MatchResult :=
  let currentDelta := currentDelta result in
  let sportsRemaining := sportsRemaining result in
  let result :=
    if currentDelta >? 0 then
      push t_leader
        (playerA ++ js " mène de " ++ Render.num currentDelta ++ js " points ("
           ++ Render.num (totalA result) ++ js "-" ++ Render.num (totalB result)
           ++ js ")") result
    else if currentDelta <? 0 then
      push t_leader
        (playerB ++ js " mène de " ++ Render.num (Z.abs currentDelta)
           ++ js " points (" ++ Render.num (totalB result) ++ js "-"
           ++ Render.num (totalA result) ++ js ")") result
    else
      push t_tied
        (js "Égalité parfaite " ++ Render.num (totalA result) ++ js "-"
           ++ Render.num (totalB result)) result in
  nextSportIndex <-
    findIndex (fun s => p <- sportPlayed result s ;; Return (negb p)) SPORTS ;;
  let nextSport :=
    if nextSportIndex >=? 0 then nth_error SPORTS (Z.to_nat nextSportIndex)
    else None in
  match nextSport with
  | None => Return result
  | Some nextSport =>
      let pointsAfterNext := (sportsRemaining - 1) * MAX_POINTS_PER_SET in
      let pointsNeededAToWin := Z.max 0 (pointsAfterNext - currentDelta + 1) in
      let pointsNeededBToWin := Z.max 0 (pointsAfterNext + currentDelta + 1) in
      let nextLabel := SPORT_LABELS nextSport in
      if sportsRemaining =? 1 then
        Return (analyzeLastSport result playerA playerB currentDelta nextLabel)
      else if sportsRemaining =? 2 then
        Return (analyzeBeforeTennis result playerA playerB currentDelta nextLabel
                  scores)
      else
        Return (analyzeMultipleSportsRemaining result playerA playerB
                  currentDelta nextLabel sportsRemaining)
  end.

(** ** The engine *)

(** One iteration of the parsing loop of [analyzeMatch].  The additions are
    those of the code as long as the totals stay within
    [MAX_SAFE_INTEGER]. *)
Definition parseSport (scores : Scores) (result : MatchResult) (sport : Sport)
    : Completion MatchResult :=
  parsed <- parseScore (scores sport) ;;
  let result :=
    set_sports
      (setProp (sports result) sport
         {| label := SPORT_LABELS sport;
            played := match parsed with Some _ => true | None => false end;
            scoreA := match parsed with Some p => Some (fst p) | None => None end;
            scoreB := match parsed with Some p => Some (snd p) | None => None end;
            delta := match parsed with Some p => fst p - snd p | None => 0 end |})
      result in
  match parsed with
  | Some p =>
      let result := set_totalA (totalA result + fst p) result in
      let result := set_totalB (totalB result + snd p) result in
      Return (set_sportsPlayed (sportsPlayed result + 1) result)
  | None => Return result
  end.

(** [for (const x of l) body], threading [result]. *)
Fixpoint forOf {A S} (l : list A) (body : S -> A -> Completion S) (st : S)
    : Completion S :=
  match l with
  | [] => Return st
  | x :: l' => st' <- body st x ;; forOf l' body st'
  end.

(** A parameter with a default value: the default applies when the
    argument is omitted ([None]). *)
Definition orDefault (arg : option jsstring) (dflt : jsstring) : jsstring :=
  match arg with
  | Some v => v
  | None => dflt
  end.

(** [analyzeMatch(scores, playerA = "Joueur A", playerB = "Joueur B")] *)
Definition analyzeMatch (scores : Scores) (playerA playerB : option jsstring)
    : Completion MatchResult :=
  let playerA := orDefault playerA (js "Joueur A") in
  let playerB := orDefault playerB (js "Joueur B") in
  let result :=
    {| playerA := playerA; playerB := playerB; sports := [];
       totalA := 0; totalB := 0; currentDelta := 0;
       sportsPlayed := 0; sportsRemaining := 0; maxRemainingPoints := 0;
       status := in_progress; winner := None; analysis := [] |} in
  result <- forOf SPORTS (parseSport scores) result ;;
  let result := set_sportsRemaining (4 - sportsPlayed result) result in
  let result := set_currentDelta (totalA result - totalB result) result in
  let result :=
    set_maxRemainingPoints (sportsRemaining result * MAX_POINTS_PER_SET) result in
  if sportsPlayed result =? 4 then
    if currentDelta result =? 0 then
      let result := set_status gummiarm result in
      Return
        (push t_gummiarm
           (js "Égalité parfaite " ++ Render.num (totalA result) ++ js "-"
              ++ Render.num (totalB result) ++ js " ! Direction le Gummiarm 🎾")
           result)
    else
      let result := set_status finished result in
      let result :=
        set_winner
          (Some (if currentDelta result >? 0 then playerA else playerB)) result in
      let winnerTotal := Z.max (totalA result) (totalB result) in
      let loserTotal := Z.min (totalA result) (totalB result) in
      Return
        (push t_winner
           (toStr (match winner result with Some w => VStr w | None => VNull end)
              ++ js " gagne " ++ Render.num winnerTotal ++ js "-"
              ++ Render.num loserTotal ++ js " (+"
              ++ Render.num (Z.abs (currentDelta result)) ++ js " pts)") result)
  else if Z.abs (currentDelta result) >? maxRemainingPoints result then
    let result := set_status finished result in
    let result :=
      set_winner
        (Some (if currentDelta result >? 0 then playerA else playerB)) result in
    Return
      (push t_winner
         (toStr (match winner result with Some w => VStr w | None => VNull end)
            ++ js " a déjà gagné ! Avance de "
            ++ Render.num (Z.abs (currentDelta result)) ++ js " pts, seulement "
            ++ Render.num (maxRemainingPoints result)
            ++ js " pts restants possibles.") result)
  else
    let result := set_status in_progress result in
    generateInProgressAnalysis result playerA playerB scores.

(** ** The caller in [app.js] *)

(** [a || b] on strings. *)
Definition orElse (a b : jsstring) : jsstring :=
  if truthy (VStr a) then a else b.

(** [Object.keys(scores).length === 0], for an object holding at most the
    four sport keys ([getScores] never stores [undefined]). *)
Definition noScores (scores : Scores) : bool :=
  forallb (fun s => match scores s with VUndefined => true | _ => false end)
    SPORTS.

(** [updateAnalysis()] of [app.js], as far as the engine is concerned:
    [valueA] and [valueB] are the contents of the two name fields; the
    result is [None] when the placeholder is shown instead of an
    analysis. *)
Definition updateAnalysis (scores : Scores) (valueA valueB : jsstring)
    : option (Completion MatchResult) :=
  let playerA := orElse valueA (js "Joueur A") in
  let playerB := orElse valueB (js "Joueur B") in
  if noScores scores then None
  else Some (analyzeMatch scores (Some playerA) (Some playerB)).

(** ** Building inputs *)

(** The object [{tabletennis: tt, badminton: bd, squash: sq, tennis: tn}];
    an absent key reads as [VUndefined]. *)
Definition mkScores (tt bd sq tn : jsval) : Scores :=
  fun s =>
    match s with
    | tabletennis => tt
    | badminton => bd
    | squash => sq
    | tennis => tn
    end.

(** An optional score string as a property value. *)
Definition ofOpt (o : option jsstring) : jsval :=
  match o with
  | Some s => VStr s
  | None => VUndefined
  end.

Definition str (s : string) : jsval := VStr (js s).

(** An input of four optional score strings. *)
Definition input (tt bd sq tn : option jsstring) : Scores :=
  mkScores (ofOpt tt) (ofOpt bd) (ofOpt sq) (ofOpt tn).

(** The accepted form in the specification's words: one or more digits,
    optional whitespace, the separator, optional whitespace, one or more
    digits.  Returns the two digit strings. *)
Definition specForm (s : jsstring) : option (jsstring * jsstring) :=
  let d1 := takeWhile isDigit s in
  match d1, dropWhile isSpace (dropWhile isDigit s) with
  | _ :: _, c :: rest =>
      let d2 := dropWhile isSpace rest in
      if (c =? hyphen)%N && negb (Nat.eqb (List.length d2) 0) && forallb isDigit d2
      then Some (d1, d2) else None
  | _, _ => None
  end.

(** ** Quantities read off the input *)

(** What [parseScore] returns on a value ([None] also when it throws). *)
Definition parsed (v : jsval) : option (Z * Z) :=
  match parseScore v with
  | Return p => p
  | Throw _ => None
  end.

(** No score of the input makes [parseScore] throw. *)
Definition stringScores (scores : Scores) : Prop :=
  forall s, parseScore (scores s) = Return (parsed (scores s)).

Definition isPlayed (scores : Scores) (s : Sport) : bool :=
  match parsed (scores s) with
  | Some _ => true
  | None => false
  end.

(** The sports whose score string parses, in play order. *)
Definition playedSports (scores : Scores) : list Sport :=
  filter (isPlayed scores) SPORTS.

Definition playedCount (scores : Scores) : Z :=
  Z.of_nat (List.length (playedSports scores)).

(** The first sport, in play order, whose score does not parse. *)
Definition nextSport (scores : Scores) : option Sport :=
  find (fun s => negb (isPlayed scores s)) SPORTS.

Definition sumZ (l : list Z) : Z := fold_right Z.add 0 l.

(** Points of player A (resp. B) in one sport, and over the played sports. *)
Definition ptsA (scores : Scores) (s : Sport) : Z :=
  match parsed (scores s) with
  | Some p => fst p
  | None => 0
  end.

Definition ptsB (scores : Scores) (s : Sport) : Z :=
  match parsed (scores s) with
  | Some p => snd p
  | None => 0
  end.

Definition pointsA (scores : Scores) : Z :=
  sumZ (map (ptsA scores) (playedSports scores)).

Definition pointsB (scores : Scores) : Z :=
  sumZ (map (ptsB scores) (playedSports scores)).

(** The scores read from the input and both totals are at most
    [MAX_SAFE_INTEGER].  In this range the integers of the model are the
    numbers that the code computes: each score is read exactly, the scores
    being non-negative every partial sum of a total is at most the total,
    and every integer prints with all its digits. *)
Definition safeScores (scores : Scores) : bool :=
  forallb
    (fun s => match parsed (scores s) with
              | Some (x, y) => (x <=? MAX_SAFE_INTEGER) && (y <=? MAX_SAFE_INTEGER)
              | None => true
              end) SPORTS
  && (pointsA scores <=? MAX_SAFE_INTEGER)
  && (pointsB scores <=? MAX_SAFE_INTEGER).

(** The per-sport breakdown stored for sport [s]. *)
Definition sportEntry (scores : Scores) (s : Sport) : SportResult :=
  {| label := SPORT_LABELS s;
     played := isPlayed scores s;
     scoreA := option_map fst (parsed (scores s));
     scoreB := option_map snd (parsed (scores s));
     delta := match parsed (scores s) with
              | Some p => fst p - snd p
              | None => 0
              end |}.

Definition sportsOf (scores : Scores) : SportsObj :=
  map (fun s => (s, sportEntry scores s)) SPORTS.

(** The [result] object as [analyzeMatch] creates it. *)
Definition initialResult (pA pB : jsstring) : MatchResult :=
  {| playerA := pA; playerB := pB; sports := [];
     totalA := 0; totalB := 0; currentDelta := 0;
     sportsPlayed := 0; sportsRemaining := 0; maxRemainingPoints := 0;
     status := in_progress; winner := None; analysis := [] |}.

(** The first entry of an in-progress analysis: who leads, or a tie. *)
Definition leaderEntry (pA pB : jsstring) (d tA tB : Z) : Entry :=
  if d >? 0 then
    {| type := t_leader;
       message := pA ++ js " mène de " ++ Render.num d ++ js " points ("
                    ++ Render.num tA ++ js "-" ++ Render.num tB ++ js ")" |}
  else if d <? 0 then
    {| type := t_leader;
       message := pB ++ js " mène de " ++ Render.num (Z.abs d)
                    ++ js " points (" ++ Render.num tB ++ js "-"
                    ++ Render.num tA ++ js ")" |}
  else
    {| type := t_tied;
       message := js "Égalité parfaite " ++ Render.num tA ++ js "-"
                    ++ Render.num tB |}.

(** The result object once the totals are known, up to its status, winner
    and analysis. *)
Definition baseResult (scores : Scores) (pA pB : jsstring)
    (st : Status) (w : option jsstring) (an : list Entry) : MatchResult :=
  {| playerA := pA; playerB := pB; sports := sportsOf scores;
     totalA := pointsA scores; totalB := pointsB scores;
     currentDelta := pointsA scores - pointsB scores;
     sportsPlayed := playedCount scores;
     sportsRemaining := 4 - playedCount scores;
     maxRemainingPoints := (4 - playedCount scores) * 21;
     status := st; winner := w; analysis := an |}.

(** The branch of the scenario generator taken for [remaining] sports. *)
Definition scenarios (L : MatchResult) (pA pB : jsstring) (d : Z)
    (lbl : jsstring) (remaining : Z) (scores : Scores) : MatchResult :=
  if remaining =? 1 then analyzeLastSport L pA pB d lbl
  else if remaining =? 2 then analyzeBeforeTennis L pA pB d lbl scores
  else analyzeMultipleSportsRemaining L pA pB d lbl remaining.

Inductive EngineCase (scores : Scores) (pA pB : jsstring) : MatchResult -> Prop :=
| case_gummiarm m :
    playedCount scores = 4 -> pointsA scores = pointsB scores ->
    EngineCase scores pA pB
      (baseResult scores pA pB gummiarm None
         [{| type := t_gummiarm; message := m |}])
| case_finished m :
    playedCount scores = 4 -> pointsA scores <> pointsB scores ->
    EngineCase scores pA pB
      (baseResult scores pA pB finished
         (Some (if pointsA scores - pointsB scores >? 0 then pA else pB))
         [{| type := t_winner; message := m |}])
| case_decided m :
    playedCount scores < 4 ->
    Z.abs (pointsA scores - pointsB scores) > (4 - playedCount scores) * 21 ->
    EngineCase scores pA pB
      (baseResult scores pA pB finished
         (Some (if pointsA scores - pointsB scores >? 0 then pA else pB))
         [{| type := t_winner; message := m |}])
| case_in_progress s :
    playedCount scores < 4 ->
    Z.abs (pointsA scores - pointsB scores) <= (4 - playedCount scores) * 21 ->
    nextSport scores = Some s -> isPlayed scores s = false ->
    EngineCase scores pA pB
      (scenarios
         (baseResult scores pA pB in_progress None
            [leaderEntry pA pB (pointsA scores - pointsB scores)
               (pointsA scores) (pointsB scores)])
         pA pB (pointsA scores - pointsB scores) (SPORT_LABELS s)
         (4 - playedCount scores) scores).

(** Sums of the scores stored in a per-sport breakdown, over its played
    entries. *)
Definition sumScoreA (o : SportsObj) : Z :=
  sumZ (map (fun kv => match scoreA (snd kv) with Some x => x | None => 0 end)
          (filter (fun kv => played (snd kv)) o)).

Definition sumScoreB (o : SportsObj) : Z :=
  sumZ (map (fun kv => match scoreB (snd kv) with Some x => x | None => 0 end)
          (filter (fun kv => played (snd kv)) o)).

(** A result with its analysis erased: what the scenario generators never
    touch. *)
Definition frame (r : MatchResult) : MatchResult := set_analysis [] r.

(** ** Definitions for the further properties *)

(** Sum of the per-sport margins stored in a breakdown. *)
Definition sumDelta (o : SportsObj) : Z :=
  sumZ (map (fun kv => delta (snd kv)) o).

(** Every parsed score of the input is within the 21 points of a set (what
    the score fields of the page enforce). *)
Definition capped (scores : Scores) : Prop :=
  forall s x y, parsed (scores s) = Some (x, y) -> x <= 21 /\ y <= 21.

(** An optional score string, replaced by [v] when it does not parse. *)
Definition fill (v : jsstring) (o : option jsstring) : option jsstring :=
  match parsed (ofOpt o) with
  | Some _ => o
  | None => Some v
  end.

(** The input in which every sport not yet played gets the score [v]. *)
Definition completed (v : jsstring) (tt bd sq tn : option jsstring) : Scores :=
  input (fill v tt) (fill v bd) (fill v sq) (fill v tn).

(** The input in which the next sport to play gets the score [v]. *)
Definition playNext (v : jsstring) (tt bd sq tn : option jsstring) : Scores :=
  match nextSport (input tt bd sq tn) with
  | Some tabletennis => input (Some v) bd sq tn
  | Some badminton => input tt (Some v) sq tn
  | Some squash => input tt bd (Some v) tn
  | Some tennis => input tt bd sq (Some v)
  | None => input tt bd sq tn
  end.

(** The status that the played count [n] and the margin [d] give. *)
Definition verdict (n d : Z) : Status :=
  if n =? 4 then (if d =? 0 then gummiarm else finished)
  else if Z.abs d >? (4 - n) * 21 then finished
  else in_progress.

(** ** The page ([app.js]) *)

(** A score row of the page: its [data-sport] key and the values of its
    two score fields.  The rows are those selected by
    [document.querySelectorAll('.score-row[data-sport]')], in document
    order.  The markup of the page is not part of the sources: the rows are
    taken to be keyed by the four sports that the engine reads, and the
    value of a field is the string last typed or assigned to it. *)
Record Row := { rowSport : Sport; fieldA : jsstring; fieldB : jsstring }.

(** [v !== ''] *)
Definition notEmpty (v : jsstring) : bool :=
  match v with
  | [] => false
  | _ :: _ => true
  end.

(** [scores[k] = v] *)
Definition setKey (scores : Scores) (k : Sport) (v : jsval) : Scores :=
  fun s => if Sport_eqb k s then v else scores s.

(** [getScores()] *)
Definition getScores (rows : list Row) : Scores :=
  fold_left
    (fun scores row =>
       let scoreA := fieldA row in
       let scoreB := fieldB row in
       if notEmpty scoreA && notEmpty scoreB
       then setKey scores (rowSport row) (VStr (scoreA ++ js "-" ++ scoreB))
       else scores)
    rows (fun _ => VUndefined).

Definition isHexDigit (c : N) : bool :=
  (isDigit c || ((97 <=? c) && (c <=? 102)) || ((65 <=? c) && (c <=? 70)))%N.

Definition digitValue (c : N) : Z :=
  if isDigit c then Z.of_N c - 48
  else if (97 <=? c)%N then Z.of_N c - 87
  else Z.of_N c - 55.

(** [parseInt(s)] without a radix, on any string: leading whitespace is
    skipped, a sign is read, a [0x] prefix selects radix 16, and the longest
    run of digits is converted; [None] stands for [NaN]. *)
Definition parseIntAuto (s : jsstring) : option Z :=
  let s := dropWhile isSpace s in
  let '(sign, s) :=
    match s with
    | c :: t => if (c =? 45)%N then (-1, t)
                else if (c =? 43)%N then (1, t) else (1, s)
    | [] => (1, s)
    end in
  let '(radix, s) :=
    match s with
    | c0 :: c1 :: t =>
        if ((c0 =? 48) && ((c1 =? 120) || (c1 =? 88)))%N then (16, t)
        else (10, s)
    | _ => (10, s)
    end in
  let ds := takeWhile (if radix =? 16 then isHexDigit else isDigit) s in
  match ds with
  | [] => None
  | _ :: _ =>
      Some (sign * fold_left (fun acc c => radix * acc + digitValue c) ds 0)
  end.

(** [n || 0] on the result of [parseInt]. *)
Definition orZero (n : option Z) : Z :=
  match n with
  | Some z => z
  | None => 0
  end.

(** The totals computed by [updateTotals()], the rows being added in
    document order.  The additions are those of the code as long as the
    totals stay within [MAX_SAFE_INTEGER] ([safeRows]). *)
Definition updateTotals (rows : list Row) : Z * Z :=
  fold_left
    (fun totals row =>
       let scoreA := orZero (parseIntAuto (fieldA row)) in
       let scoreB := orZero (parseIntAuto (fieldB row)) in
       if notEmpty (fieldA row) && notEmpty (fieldB row)
       then (fst totals + scoreA, snd totals + scoreB)
       else totals)
    rows (0, 0).

(** The values of the score fields and both totals of [updateTotals] are
    at most [MAX_SAFE_INTEGER]. *)
Definition safeRows (rows : list Row) : bool :=
  forallb
    (fun row =>
       (orZero (parseIntAuto (fieldA row)) <=? MAX_SAFE_INTEGER)
       && (orZero (parseIntAuto (fieldB row)) <=? MAX_SAFE_INTEGER)) rows
  && (fst (updateTotals rows) <=? MAX_SAFE_INTEGER)
  && (snd (updateTotals rows) <=? MAX_SAFE_INTEGER).

(** The handler of a score field: [if (input.value !== '' &&
    parseInt(input.value) > 21) input.value = 21].  A comparison with [NaN]
    is false. *)
Definition capInput (value : jsstring) : jsstring :=
  if notEmpty value
     && match parseIntAuto value with
        | Some n => n >? 21
        | None => false
        end
  then js "21" else value.

(** [score.match(/(\d+)-(\d+)/)] tried at the start of [s]. *)
Definition matchScoreAt (s : jsstring) : option (jsstring * jsstring) :=
  let d1 := takeWhile isDigit s in
  match d1, dropWhile isDigit s with
  | _ :: _, c :: rest =>
      let d2 := takeWhile isDigit rest in
      if (c =? hyphen)%N && notEmpty d2 then Some (d1, d2) else None
  | _, _ => None
  end.

(** [score.match(/(\d+)-(\d+)/)]: the leftmost match. *)
Fixpoint searchScore (s : jsstring) : option (jsstring * jsstring) :=
  match s with
  | [] => None
  | _ :: t =>
      match matchScoreAt s with
      | Some m => Some m
      | None => searchScore t
      end
  end.

(** Writing the two fields of the first row of sport [k]
    ([document.querySelector] returns the first match; no such row, no
    change). *)
Fixpoint writeRow (k : Sport) (a b : jsstring) (rows : list Row) : list Row :=
  match rows with
  | [] => []
  | row :: rest =>
      if Sport_eqb (rowSport row) k
      then {| rowSport := k; fieldA := a; fieldB := b |} :: rest
      else row :: writeRow k a b rest
  end.

(** The field updates of [setScores(scores)], for the scores object of the
    text recognition: the four sport keys in play order, each a string or
    [null] ([None]). *)
Definition setScores (scores : Sport -> option jsstring) (rows : list Row)
    : list Row :=
  fold_left
    (fun rows sport =>
       match scores sport with
       | None => rows
       | Some score =>
           if negb (truthy (VStr score)) then rows
           else match searchScore score with
                | None => rows
                | Some (m1, m2) => writeRow sport m1 m2 rows
                end
       end)
    SPORTS rows.

(** The row of sport [s], if any. *)
Definition rowOf (rows : list Row) (s : Sport) : option Row :=
  find (fun row => Sport_eqb (rowSport row) s) rows.

(** Both score fields of the row hold something. *)
Definition filled (row : Row) : bool :=
  notEmpty (fieldA row) && notEmpty (fieldB row).

(** Every score field holds only digits (or nothing). *)
Definition digitFields (rows : list Row) : Prop :=
  forall row, In row rows ->
    forallb isDigit (fieldA row) = true /\ forallb isDigit (fieldB row) = true.

(** What a row adds to the totals of [updateTotals]. *)
Definition rowPointsA (row : Row) : Z :=
  if filled row then orZero (parseIntAuto (fieldA row)) else 0.

Definition rowPointsB (row : Row) : Z :=
  if filled row then orZero (parseIntAuto (fieldB row)) else 0.

(** The rows after every score field went through its handler. *)
Definition capRows (rows : list Row) : list Row :=
  map (fun row => {| rowSport := rowSport row;
                     fieldA := capInput (fieldA row);
                     fieldB := capInput (fieldB row) |}) rows.

(** The score written for a sport, if any. *)
Definition recognised (scores : Sport -> option jsstring) (s : Sport)
    : option (jsstring * jsstring) :=
  match scores s with
  | None => None
  | Some score => if negb (truthy (VStr score)) then None else searchScore score
  end.

(** * Properties *)

(** ** Inputs made of strings *)

Lemma parseScore_string (o : option jsstring) :
  parseScore (ofOpt o) = Return (parsed (ofOpt o)).
Proof.
  unfold parsed.
  destruct o as [s|]; [|reflexivity].
  unfold parseScore, ofOpt.
  destruct (negb (truthy (VStr s))); [reflexivity|].
  destruct (jsstring_eqb (trim s) [] || jsstring_eqb s (js "-")); [reflexivity|].
  cbv zeta.
  destruct (matchScore (removeSpaces s)) as [[m1 m2]|]; reflexivity.
Qed.

Lemma input_strings tt bd sq tn : stringScores (input tt bd sq tn).
Proof. intros []; apply parseScore_string. Qed.

(** ** The parser *)

Section Spans.
Context {A : Type} (p : A -> bool).

Lemma takeWhile_dropWhile l : takeWhile p l ++ dropWhile p l = l.
Proof.
  induction l as [|x l IH]; [reflexivity|].
  cbn. destruct (p x); [cbn; now rewrite IH|reflexivity].
Qed.

Lemma takeWhile_all l : forallb p (takeWhile p l) = true.
Proof.
  induction l as [|x l IH]; [reflexivity|].
  cbn. destruct (p x) eqn:E; [cbn; now rewrite E|reflexivity].
Qed.

Lemma span_stop d x r :
  forallb p d = true -> p x = false ->
  takeWhile p (d ++ x :: r) = d /\ dropWhile p (d ++ x :: r) = x :: r.
Proof.
  intros Hd Hx. induction d as [|y d IH]; cbn.
  - now rewrite Hx.
  - cbn in Hd. apply andb_true_iff in Hd as [Hy Hd]. rewrite Hy.
    destruct (IH Hd) as [-> ->]. auto.
Qed.

Lemma dropWhile_all l : forallb p l = true -> dropWhile p l = [].
Proof.
  induction l as [|x l IH]; [reflexivity|].
  cbn. intros H. apply andb_true_iff in H as [-> H]. auto.
Qed.

Lemma dropWhile_nil l : dropWhile p l = [] -> forallb p l = true.
Proof.
  induction l as [|x l IH]; [reflexivity|].
  cbn. destruct (p x); [auto|discriminate].
Qed.

Lemma dropWhile_snoc l x : p x = false -> dropWhile p (l ++ [x]) <> [].
Proof.
  intros Hx. induction l as [|y l IH]; cbn.
  - rewrite Hx. discriminate.
  - destruct (p y); [exact IH|discriminate].
Qed.

Lemma dropWhile_head l x r : dropWhile p l = x :: r -> p x = false.
Proof.
  induction l as [|y l IH]; cbn; [discriminate|].
  destruct (p y) eqn:E; [exact IH|]. intros H. injection H as <- _. exact E.
Qed.
End Spans.

Lemma trim_nil s : trim s = [] <-> forallb isSpace s = true.
Proof.
  unfold trim. split.
  - intros H. apply dropWhile_nil.
    destruct (dropWhile isSpace s) as [|x t] eqn:E; [reflexivity|].
    exfalso. apply dropWhile_head in E as Hx.
    apply (f_equal (@rev N)) in H. rewrite rev_involutive in H. cbn [rev] in H.
    exact (dropWhile_snoc isSpace (rev t) x Hx H).
  - intros H. now rewrite (dropWhile_all isSpace s H).
Qed.

Lemma jsstring_eqb_eq a b : jsstring_eqb a b = true <-> a = b.
Proof.
  unfold jsstring_eqb. destruct (list_eq_dec N.eq_dec a b); split; auto; discriminate.
Qed.

Lemma digit_not_space c : isDigit c = true -> isSpace c = false.
Proof.
  unfold isDigit. intros H. apply andb_true_iff in H as [H1 H2].
  apply N.leb_le in H1, H2.
  assert (Hc : (c = 48 \/ c = 49 \/ c = 50 \/ c = 51 \/ c = 52 \/ c = 53 \/
                c = 54 \/ c = 55 \/ c = 56 \/ c = 57)%N) by lia.
  repeat destruct Hc as [->|Hc]; try reflexivity. subst. reflexivity.
Qed.

Lemma removeSpaces_digits d : forallb isDigit d = true -> removeSpaces d = d.
Proof.
  unfold removeSpaces. induction d as [|c d IH]; [reflexivity|].
  cbn. intros H. apply andb_true_iff in H as [Hc Hd].
  rewrite (digit_not_space c Hc). cbn. now rewrite IH.
Qed.

Lemma removeSpaces_spaces w : forallb isSpace w = true -> removeSpaces w = [].
Proof.
  unfold removeSpaces. induction w as [|c w IH]; [reflexivity|].
  cbn. intros H. apply andb_true_iff in H as [-> Hw]. cbn. auto.
Qed.

Lemma removeSpaces_app a b : removeSpaces (a ++ b) = removeSpaces a ++ removeSpaces b.
Proof. apply filter_app. Qed.

Lemma matchScore_spec c d1 d2 :
  matchScore c = Some (d1, d2) <->
  c = d1 ++ hyphen :: d2 /\ d1 <> [] /\ d2 <> [] /\
  forallb isDigit d1 = true /\ forallb isDigit d2 = true.
Proof.
  unfold matchScore. cbv zeta. split.
  - pose proof (takeWhile_dropWhile isDigit c) as Hc.
    pose proof (takeWhile_all isDigit c) as Ht.
    destruct (takeWhile isDigit c) as [|x t]; [discriminate|].
    destruct (dropWhile isDigit c) as [|y r]; [discriminate|].
    destruct (N.eqb_spec y hyphen) as [->|]; [|discriminate]. cbn [andb].
    destruct r as [|z r]; [discriminate|]. cbn [List.length Nat.eqb negb andb].
    destruct (forallb isDigit (z :: r)) eqn:Hr; [|discriminate].
    intros H. injection H as <- <-.
    repeat split; auto; discriminate.
  - intros (-> & H1 & H2 & Hd1 & Hd2).
    destruct (span_stop isDigit d1 hyphen d2 Hd1 eq_refl) as [-> ->].
    destruct d1 as [|x t]; [contradiction|].
    destruct d2 as [|z r]; [contradiction|].
    rewrite N.eqb_refl. cbn [List.length Nat.eqb negb andb]. now rewrite Hd2.
Qed.

Lemma parseScore_Some s x y :
  parseScore (VStr s) = Return (Some (x, y)) <->
  exists d1 d2,
    removeSpaces s = d1 ++ hyphen :: d2 /\ d1 <> [] /\ d2 <> [] /\
    forallb isDigit d1 = true /\ forallb isDigit d2 = true /\
    x = parseInt d1 /\ y = parseInt d2.
Proof.
  unfold parseScore. split.
  - destruct (negb (truthy (VStr s))); [discriminate|].
    destruct (jsstring_eqb (trim s) [] || jsstring_eqb s (js "-")); [discriminate|].
    cbv zeta. destruct (matchScore (removeSpaces s)) as [[d1 d2]|] eqn:E;
      [|discriminate].
    intros H. injection H as <- <-. apply matchScore_spec in E.
    exists d1, d2. tauto.
  - intros (d1 & d2 & Hs & H1 & H2 & Hd1 & Hd2 & -> & ->).
    assert (Hm : matchScore (removeSpaces s) = Some (d1, d2))
      by (apply matchScore_spec; tauto).
    assert (Hne : removeSpaces s <> []) by (rewrite Hs; now destruct d1).
    destruct s as [|c s]; [now contradiction Hne|].
    cbn [truthy List.length Nat.eqb negb].
    destruct (jsstring_eqb (trim (c :: s)) []) eqn:Et.
    { apply jsstring_eqb_eq, trim_nil, removeSpaces_spaces in Et. contradiction. }
    destruct (jsstring_eqb (c :: s) (js "-")) eqn:Eh.
    { apply jsstring_eqb_eq in Eh. rewrite Eh in Hs.
      destruct d1 as [|d t]; [contradiction|].
      cbn in Hd1. apply andb_true_iff in Hd1 as [Hd _].
      vm_compute in Hs. injection Hs as <- _. discriminate. }
    cbn [orb]. cbv zeta. now rewrite Hm.
Qed.

Lemma specForm_stripped s d1 d2 :
  specForm s = Some (d1, d2) ->
  removeSpaces s = d1 ++ hyphen :: d2 /\ d1 <> [] /\ d2 <> [] /\
  forallb isDigit d1 = true /\ forallb isDigit d2 = true.
Proof.
  unfold specForm. cbv zeta.
  pose proof (takeWhile_dropWhile isDigit s) as Hs.
  pose proof (takeWhile_all isDigit s) as Ht.
  pose proof (takeWhile_dropWhile isSpace (dropWhile isDigit s)) as Hw.
  pose proof (takeWhile_all isSpace (dropWhile isDigit s)) as Hw1.
  destruct (takeWhile isDigit s) as [|x t]; [discriminate|].
  destruct (dropWhile isSpace (dropWhile isDigit s)) as [|c rest]; [discriminate|].
  pose proof (takeWhile_dropWhile isSpace rest) as Hr.
  pose proof (takeWhile_all isSpace rest) as Hw2.
  destruct (N.eqb_spec c hyphen) as [->|]; [|discriminate]. cbn [andb].
  destruct (dropWhile isSpace rest) as [|z r]; [discriminate|].
  cbn [List.length Nat.eqb negb andb].
  destruct (forallb isDigit (z :: r)) eqn:Hd2; [|discriminate].
  intros H. injection H as <- <-.
  split; [|repeat split; auto; discriminate].
  rewrite <- Hs, <- Hw, <- Hr.
  rewrite !removeSpaces_app.
  change (hyphen :: takeWhile isSpace rest ++ z :: r)
    with ([hyphen] ++ takeWhile isSpace rest ++ z :: r).
  rewrite !removeSpaces_app.
  rewrite (removeSpaces_spaces _ Hw1), (removeSpaces_spaces _ Hw2).
  rewrite (removeSpaces_digits _ Ht), (removeSpaces_digits _ Hd2).
  reflexivity.
Qed.

Lemma parseInt_nonneg_from ds : forall acc,
  forallb isDigit ds = true -> 0 <= acc ->
  0 <= fold_left (fun acc c => 10 * acc + (Z.of_N c - 48)) ds acc.
Proof.
  induction ds as [|c ds IH]; intros acc Hd Hacc; [exact Hacc|].
  cbn [forallb] in Hd. cbn [fold_left].
  apply andb_true_iff in Hd as [Hc Hd].
  apply IH; [exact Hd|].
  unfold isDigit in Hc. apply andb_true_iff in Hc as [H1 H2].
  apply N.leb_le in H1, H2. lia.
Qed.

Lemma parseInt_nonneg ds : forallb isDigit ds = true -> 0 <= parseInt ds.
Proof. intros H. apply parseInt_nonneg_from; [exact H|lia]. Qed.

(** C3, as the code has it: [parseScore] returns "not played" when the
    input is absent, empty, all whitespace or a lone separator, and for
    any other string that, once ALL its whitespace is removed (wherever it
    stands), is not of the form digits-digits, such as "abc" or "21–" with
    a non-ASCII dash; it returns a pair exactly when the whitespace-free
    string has that form, which covers the form with optional whitespace
    around the separator; the pair is that of the two non-negative
    integers written, for numerals of at most [MAX_SAFE_INTEGER]; and it
    throws on no string. *)
Theorem parseScore_contract :
  (* not played *)
  parseScore VUndefined = Return None /\
  parseScore (VStr []) = Return None /\
  (forall s, forallb isSpace s = true -> parseScore (VStr s) = Return None) /\
  parseScore (str "-") = Return None /\
  parseScore (str "abc") = Return None /\
  parseScore (str "21–") = Return None /\
  (* never throws on a string *)
  (forall s, parseScore (VStr s) = Return (parsed (VStr s))) /\
  (* a pair exactly when the string, whitespace removed, is digits-digits *)
  (forall s,
      (exists p, parseScore (VStr s) = Return (Some p)) <->
      exists d1 d2,
        removeSpaces s = d1 ++ hyphen :: d2 /\ d1 <> [] /\ d2 <> [] /\
        forallb isDigit d1 = true /\ forallb isDigit d2 = true) /\
  (* the pair of the integers written, for numerals in the exact range *)
  (forall s d1 d2,
      removeSpaces s = d1 ++ hyphen :: d2 -> d1 <> [] -> d2 <> [] ->
      forallb isDigit d1 = true -> forallb isDigit d2 = true ->
      parseInt d1 <= MAX_SAFE_INTEGER -> parseInt d2 <= MAX_SAFE_INTEGER ->
      parseScore (VStr s) = Return (Some (parseInt d1, parseInt d2)) /\
      0 <= parseInt d1 /\ 0 <= parseInt d2) /\
  (* the form of the specification is accepted *)
  (forall s d1 d2,
      specForm s = Some (d1, d2) ->
      (exists p, parseScore (VStr s) = Return (Some p)) /\
      (parseInt d1 <= MAX_SAFE_INTEGER -> parseInt d2 <= MAX_SAFE_INTEGER ->
       parseScore (VStr s) = Return (Some (parseInt d1, parseInt d2)))).
Proof.
  split; [reflexivity|]. split; [reflexivity|].
  split.
  { intros s H. unfold parseScore.
    destruct (negb (truthy (VStr s))); [reflexivity|].
    apply trim_nil in H. rewrite H. reflexivity. }
  split; [reflexivity|]. split; [reflexivity|]. split; [reflexivity|].
  split; [intros s; exact (parseScore_string (Some s))|].
  split.
  { intros s. split.
    - intros [[x y] H]. apply parseScore_Some in H.
      destruct H as (d1 & d2 & H0 & H1 & H2 & H3 & H4 & _).
      exists d1, d2. tauto.
    - intros (d1 & d2 & H0 & H1 & H2 & H3 & H4).
      exists (parseInt d1, parseInt d2).
      apply parseScore_Some. exists d1, d2. tauto. }
  split.
  { intros s d1 d2 H0 H1 H2 H3 H4 _ _.
    split; [|split; now apply parseInt_nonneg].
    apply parseScore_Some. exists d1, d2. tauto. }
  intros s d1 d2 H. apply specForm_stripped in H.
  assert (Hp : parseScore (VStr s) = Return (Some (parseInt d1, parseInt d2)))
    by (apply parseScore_Some; exists d1, d2; tauto).
  split; [eexists; exact Hp|]. intros _ _. exact Hp.
Qed.

(** C3 as stated fails: "2 1-15" is not of the form digits-digits with
    optional whitespace around the separator, yet it parses to (21, 15);
    so does " 21-15 ", with whitespace at both ends. *)
Lemma space_inside_digits_is_parsed :
  specForm (js "2 1-15") = None /\
  parseScore (str "2 1-15") = Return (Some (21, 15)) /\
  parseScore (str "2 1-15") <> Return None /\
  specForm (js " 21-15 ") = None /\
  parseScore (str " 21-15 ") = Return (Some (21, 15)).
Proof. repeat split; try reflexivity. discriminate. Qed.

Example parse_plain : parseScore (str "21-15") = Return (Some (21, 15)).
Proof. reflexivity. Qed.

Example parse_spaced : parseScore (str "21 - 15") = Return (Some (21, 15)).
Proof. reflexivity. Qed.

Example parse_leading_zeros : parseScore (str "007-3") = Return (Some (7, 3)).
Proof. reflexivity. Qed.

Example parse_no_break_space :
  parseScore (VStr [50; 49; 160; 45; 160; 49; 53]%N) = Return (Some (21, 15)).
Proof. reflexivity. Qed.

Example parse_number_throws : parseScore (VNum (Int 5)) = Throw TypeError.
Proof. reflexivity. Qed.

Example render_negative : Render.num (-18) = js "-18".
Proof. reflexivity. Qed.

Example js_code_units : js "🏆 ≥é" = [55356; 57286; 32; 8805; 233]%N.
Proof. reflexivity. Qed.

(** ** The parsing loop *)

Lemma parseSports_fold scores (Hstr : stringScores scores) (l : list Sport) :
  forall r, exists r',
    forOf l (parseSport scores) r = Return r' /\
    playerA r' = playerA r /\ playerB r' = playerB r /\
    totalA r' = totalA r + sumZ (map (ptsA scores) (filter (isPlayed scores) l)) /\
    totalB r' = totalB r + sumZ (map (ptsB scores) (filter (isPlayed scores) l)) /\
    sportsPlayed r' =
      sportsPlayed r + Z.of_nat (List.length (filter (isPlayed scores) l)) /\
    currentDelta r' = currentDelta r /\
    sportsRemaining r' = sportsRemaining r /\
    maxRemainingPoints r' = maxRemainingPoints r /\
    status r' = status r /\ winner r' = winner r /\ analysis r' = analysis r /\
    sports r' =
      fold_left (fun o s => setProp o s (sportEntry scores s)) l (sports r).
Proof.
  induction l as [|s l IH]; intros r.
  - exists r. cbn. repeat split; lia.
  - cbn [forOf]. unfold parseSport at 1. rewrite Hstr. cbn [bind].
    cbn [filter fold_left].
    destruct (parsed (scores s)) as [[x y]|] eqn:E.
    + assert (Hp : isPlayed scores s = true) by (unfold isPlayed; now rewrite E).
      assert (Ha : ptsA scores s = x) by (unfold ptsA; now rewrite E).
      assert (Hb : ptsB scores s = y) by (unfold ptsB; now rewrite E).
      assert (He : sportEntry scores s =
                   {| label := SPORT_LABELS s; played := true; scoreA := Some x;
                      scoreB := Some y; delta := x - y |})
        by (unfold sportEntry, isPlayed; now rewrite E).
      rewrite Hp, He. cbn [fst snd map sumZ fold_right List.length].
      rewrite Ha, Hb. cbn [bind].
      match goal with |- context [forOf l _ ?r1] => destruct (IH r1) as (r' & -> & H) end.
      exists r'. split; [reflexivity|].
      cbn [playerA playerB totalA totalB sportsPlayed currentDelta sportsRemaining
           maxRemainingPoints status winner analysis sports
           set_sports set_totalA set_totalB set_sportsPlayed] in H.
      fold (sumZ (map (ptsA scores) (filter (isPlayed scores) l))).
      fold (sumZ (map (ptsB scores) (filter (isPlayed scores) l))).
      repeat match goal with H : _ /\ _ |- _ => destruct H end.
      repeat split; try assumption; try lia.
    + assert (Hp : isPlayed scores s = false) by (unfold isPlayed; now rewrite E).
      assert (He : sportEntry scores s =
                   {| label := SPORT_LABELS s; played := false; scoreA := None;
                      scoreB := None; delta := 0 |})
        by (unfold sportEntry, isPlayed; now rewrite E).
      rewrite Hp, He. cbn [bind].
      match goal with |- context [forOf l _ ?r1] => destruct (IH r1) as (r' & -> & H) end.
      exists r'. split; [reflexivity|].
      cbn [playerA playerB totalA totalB sportsPlayed currentDelta sportsRemaining
           maxRemainingPoints status winner analysis sports
           set_sports set_totalA set_totalB set_sportsPlayed] in H.
      exact H.
Qed.

Lemma loop_result scores pA pB :
  stringScores scores ->
  forOf SPORTS (parseSport scores) (initialResult pA pB) =
  Return {| playerA := pA; playerB := pB;
            sports := map (fun s => (s, sportEntry scores s)) SPORTS;
            totalA := pointsA scores; totalB := pointsB scores;
            currentDelta := 0; sportsPlayed := playedCount scores;
            sportsRemaining := 0; maxRemainingPoints := 0;
            status := in_progress; winner := None; analysis := [] |}.
Proof.
  intros Hstr.
  destruct (parseSports_fold scores Hstr SPORTS (initialResult pA pB))
    as (r & -> & H).
  destruct r. cbn in H.
  repeat match goal with H : _ /\ _ |- _ => destruct H end.
  subst. reflexivity.
Qed.

(** ** The scenario generator's dispatch *)

Lemma findIndex_next result scores :
  sports result = sportsOf scores ->
  exists idx,
    findIndex (fun s => p <- sportPlayed result s ;; Return (negb p)) SPORTS
      = Return idx /\
    (if idx >=? 0 then nth_error SPORTS (Z.to_nat idx) else None)
      = nextSport scores.
Proof.
  intros H. unfold findIndex, sportPlayed, nextSport. rewrite H.
  unfold sportsOf, SPORTS.
  cbn [map getProp Sport_eqb findIndexFrom find bind played sportEntry].
  destruct (isPlayed scores tabletennis); cbn [negb bind];
    [|eexists; split; reflexivity].
  destruct (isPlayed scores badminton); cbn [negb bind];
    [|eexists; split; reflexivity].
  destruct (isPlayed scores squash); cbn [negb bind];
    [|eexists; split; reflexivity].
  destruct (isPlayed scores tennis); cbn [negb bind];
    eexists; split; reflexivity.
Qed.

Lemma generate_string scores R pA pB :
  sports R = sportsOf scores ->
  generateInProgressAnalysis R pA pB scores =
  Return
    (let L := set_analysis
                (analysis R ++
                   [leaderEntry pA pB (currentDelta R) (totalA R) (totalB R)]) R in
     match nextSport scores with
     | None => L
     | Some s =>
         if sportsRemaining R =? 1 then
           analyzeLastSport L pA pB (currentDelta R) (SPORT_LABELS s)
         else if sportsRemaining R =? 2 then
           analyzeBeforeTennis L pA pB (currentDelta R) (SPORT_LABELS s) scores
         else
           analyzeMultipleSportsRemaining L pA pB (currentDelta R)
             (SPORT_LABELS s) (sportsRemaining R)
     end).
Proof.
  intros HS. unfold generateInProgressAnalysis, leaderEntry. cbv zeta.
  destruct (currentDelta R >? 0); [|destruct (currentDelta R <? 0)].
  all: match goal with
       | |- context [sportPlayed ?r _] =>
           destruct (findIndex_next r scores HS) as (idx & Hi & Hn);
           rewrite Hi; cbn [bind]; rewrite Hn
       end.
  all: destruct (nextSport scores); [|reflexivity].
  all: destruct (sportsRemaining R =? 1); [reflexivity|].
  all: destruct (sportsRemaining R =? 2); reflexivity.
Qed.

Lemma playedCount_range scores : 0 <= playedCount scores <= 4.
Proof.
  unfold playedCount, playedSports, SPORTS. cbn [filter].
  destruct (isPlayed scores tabletennis), (isPlayed scores badminton),
    (isPlayed scores squash), (isPlayed scores tennis); cbn; lia.
Qed.

Lemma nextSport_some scores :
  playedCount scores <> 4 ->
  exists s, nextSport scores = Some s /\ isPlayed scores s = false.
Proof.
  unfold playedCount, playedSports, nextSport, SPORTS. cbn [filter find].
  destruct (isPlayed scores tabletennis) eqn:E1; cbn [negb];
    [|intros _; exists tabletennis; auto].
  destruct (isPlayed scores badminton) eqn:E2; cbn [negb];
    [|intros _; exists badminton; auto].
  destruct (isPlayed scores squash) eqn:E3; cbn [negb];
    [|intros _; exists squash; auto].
  destruct (isPlayed scores tennis) eqn:E4; cbn [negb];
    [|intros _; exists tennis; auto].
  cbn. lia.
Qed.

(** ** The engine, path by path *)

Ltac run_engine :=
  unfold analyzeMatch;
  match goal with
  | |- context [forOf SPORTS (parseSport ?sc) ?r0] =>
      let H := fresh in
      pose proof (loop_result sc (playerA r0) (playerB r0)) as H;
      unfold initialResult in H; cbn [playerA playerB] in H;
      rewrite H by apply input_strings; clear H
  end;
  cbv beta iota zeta delta
    [bind set_sportsRemaining set_currentDelta set_maxRemainingPoints
     set_status set_winner set_analysis push
     playerA playerB sports totalA totalB currentDelta sportsPlayed
     sportsRemaining maxRemainingPoints status winner analysis
     MAX_POINTS_PER_SET toStr].

Lemma engine_cases tt bd sq tn a b :
  exists r,
    analyzeMatch (input tt bd sq tn) a b = Return r /\
    EngineCase (input tt bd sq tn)
      (orDefault a (js "Joueur A")) (orDefault b (js "Joueur B")) r.
Proof.
  run_engine.
  set (scores := input tt bd sq tn).
  pose proof (playedCount_range scores) as Hn.
  destruct (Z.eqb_spec (playedCount scores) 4) as [H4|H4].
  - destruct (Z.eqb_spec (pointsA scores - pointsB scores) 0) as [H0|H0];
      eexists; (split; [reflexivity|]).
    + apply case_gummiarm; lia.
    + apply case_finished; lia.
  - destruct (Z.gtb_spec (Z.abs (pointsA scores - pointsB scores))
                ((4 - playedCount scores) * 21)) as [Hd|Hd].
    + eexists; split; [reflexivity|]. apply case_decided; lia.
    + rewrite generate_string by reflexivity.
      cbv beta iota zeta delta
        [set_analysis playerA playerB sports totalA totalB currentDelta
         sportsPlayed sportsRemaining maxRemainingPoints status winner analysis].
      destruct (nextSport_some scores H4) as (s & Hs & Hp). rewrite Hs.
      eexists; split; [reflexivity|].
      apply (case_in_progress scores _ _ s); try assumption; lia.
Qed.

(** ** The scenario generators only append to the analysis *)

Lemma frame_push t m r : frame (push t m r) = frame r.
Proof. reflexivity. Qed.

Ltac split_ifs :=
  repeat match goal with
         | |- context [if ?c then _ else _] => destruct c
         end.

Lemma frame_analyzeLastSport r pA pB d lbl :
  frame (analyzeLastSport r pA pB d lbl) = frame r.
Proof. unfold analyzeLastSport. cbv zeta. split_ifs; reflexivity. Qed.

Lemma frame_analyzeBeforeTennis r pA pB d lbl scores :
  frame (analyzeBeforeTennis r pA pB d lbl scores) = frame r.
Proof. unfold analyzeBeforeTennis. cbv zeta. split_ifs; reflexivity. Qed.

Lemma frame_analyzeMultipleSportsRemaining r pA pB d lbl n :
  frame (analyzeMultipleSportsRemaining r pA pB d lbl n) = frame r.
Proof.
  unfold analyzeMultipleSportsRemaining. cbv zeta. split_ifs; reflexivity.
Qed.

Lemma frame_scenarios r pA pB d lbl n scores :
  frame (scenarios r pA pB d lbl n scores) = frame r.
Proof.
  unfold scenarios.
  destruct (n =? 1); [apply frame_analyzeLastSport|].
  destruct (n =? 2);
    [apply frame_analyzeBeforeTennis|apply frame_analyzeMultipleSportsRemaining].
Qed.

(** Every path of the engine leaves the aggregate fields as the
    aggregator computed them. *)
Lemma engine_frame scores pA pB r :
  EngineCase scores pA pB r ->
  exists st w, frame r = baseResult scores pA pB st w [].
Proof.
  intros [m ? ?|m ? ?|m ? ?|s ? ? ? ?]; try (eexists; eexists; reflexivity).
  rewrite frame_scenarios. eexists; eexists; reflexivity.
Qed.

Ltac case_if :=
  match goal with
  | |- context [if ?a >? ?b then _ else _] => destruct (Z.gtb_spec a b)
  | |- context [if ?a <? ?b then _ else _] => destruct (Z.ltb_spec a b)
  | |- context [if ?a <=? ?b then _ else _] => destruct (Z.leb_spec a b)
  | |- context [if ?a >=? ?b then _ else _] => destruct (Z.geb_spec a b)
  | |- context [if ?a =? ?b then _ else _] => destruct (Z.eqb_spec a b)
  | |- context [if ?c then _ else _] => destruct c eqn:?
  end.

Ltac case_ifs := repeat (case_if; try lia).

Ltac show_analysis :=
  cbn [analysis push set_analysis baseResult app playerA playerB totalA totalB
       currentDelta sportsRemaining].

(** ** Status classification *)

(** C1: on every input of four optional score strings and two player
    names, [analyzeMatch] returns a result whose status follows the rules
    in priority order: four sports played and equal totals give
    [gummiarm]; four sports played and different totals give [finished]
    with the player of the greater total as winner; fewer than four played
    with a lead above [(4 - played) * 21] gives [finished] with the leader
    as winner; every other input gives [in_progress].
    Stated for scores and totals of at most [MAX_SAFE_INTEGER]
    ([safeScores]), the range in which the integers of the model are the
    numbers of the code. *)
Theorem analyzeMatch_status_rules (tt bd sq tn a b : option jsstring) :
  safeScores (input tt bd sq tn) = true ->
  let scores := input tt bd sq tn in
  let pA := orDefault a (js "Joueur A") in
  let pB := orDefault b (js "Joueur B") in
  let n := playedCount scores in
  let tA := pointsA scores in
  let tB := pointsB scores in
  exists r,
    analyzeMatch scores a b = Return r /\
    (n = 4 -> tA = tB -> status r = gummiarm /\ winner r = None) /\
    (n = 4 -> tA <> tB ->
       status r = finished /\ winner r = Some (if tA >? tB then pA else pB)) /\
    (n < 4 -> Z.abs (tA - tB) > (4 - n) * 21 ->
       status r = finished /\ winner r = Some (if tA >? tB then pA else pB)) /\
    (n < 4 -> Z.abs (tA - tB) <= (4 - n) * 21 -> status r = in_progress).
Proof.
  intros _ scores pA pB n tA tB.
  destruct (engine_cases tt bd sq tn a b) as (r & Hr & Hc).
  exists r. split; [exact Hr|].
  fold scores pA pB in Hc.
  assert (Hw : (if tA - tB >? 0 then pA else pB) = (if tA >? tB then pA else pB)).
  { destruct (Z.gtb_spec (tA - tB) 0), (Z.gtb_spec tA tB); auto; lia. }
  destruct Hc as [m H4 Hd|m H4 Hd|m H4 Hd|s H4 Hd Hs Hp];
    fold n tA tB in H4, Hd; cbn [status winner baseResult]; fold tA tB.
  - repeat split; intros; try lia; auto.
  - rewrite Hw. repeat split; intros; try lia; auto.
  - rewrite Hw. repeat split; intros; try lia; auto.
  - change (status ?x) with (status (frame x)).
    rewrite frame_scenarios. cbn [status frame set_analysis baseResult].
    repeat split; intros; try lia; auto.
Qed.

Lemma analyzeMatch_status_rules_witness :
  exists r,
    analyzeMatch
      (input (Some (js "21-19")) (Some (js "19-21")) (Some (js "21-19"))
         (Some (js "19-21"))) None None = Return r /\
    status r = gummiarm /\ winner r = None.
Proof.
  destruct (analyzeMatch_status_rules
              (Some (js "21-19")) (Some (js "19-21")) (Some (js "21-19"))
              (Some (js "19-21")) None None)
    as (r & Hr & Hg & _); [vm_compute; reflexivity|].
  exists r. split; [exact Hr|]. apply Hg; vm_compute; reflexivity.
Defined.

(** ** Aggregates *)

Lemma breakdown_sums_list scores (l : list Sport) :
  sumScoreA (map (fun s => (s, sportEntry scores s)) l)
    = sumZ (map (ptsA scores) (filter (isPlayed scores) l)) /\
  sumScoreB (map (fun s => (s, sportEntry scores s)) l)
    = sumZ (map (ptsB scores) (filter (isPlayed scores) l)).
Proof.
  unfold sumScoreA, sumScoreB.
  induction l as [|s l [IHa IHb]]; [split; reflexivity|].
  cbn [map filter snd played sportEntry].
  destruct (isPlayed scores s) eqn:Hp; [|split; assumption].
  cbn [map sumZ fold_right snd scoreA scoreB sportEntry].
  fold (sumZ (map (ptsA scores) (filter (isPlayed scores) l))).
  fold (sumZ (map (ptsB scores) (filter (isPlayed scores) l))).
  unfold sumZ in IHa, IHb |- *. rewrite IHa, IHb.
  unfold ptsA, ptsB. destruct (parsed (scores s)) as [[x y]|]; split; reflexivity.
Qed.

Lemma breakdown_sums scores :
  sumScoreA (sportsOf scores) = pointsA scores /\
  sumScoreB (sportsOf scores) = pointsB scores.
Proof. apply breakdown_sums_list. Qed.

(** C2: the result of [analyzeMatch] has [totalA] and [totalB] equal to
    the sums of [scoreA] and [scoreB] over exactly the sports whose score
    string parsed (both read off the input and read off the per-sport
    breakdown of the result), [sportsPlayed + sportsRemaining = 4] and
    [maxRemainingPoints = sportsRemaining * 21].
    Stated for scores and totals of at most [MAX_SAFE_INTEGER]
    ([safeScores]), the range in which the integers of the model are the
    numbers of the code. *)
Theorem analyzeMatch_aggregates (tt bd sq tn a b : option jsstring) :
  safeScores (input tt bd sq tn) = true ->
  let scores := input tt bd sq tn in
  exists r,
    analyzeMatch scores a b = Return r /\
    sports r = sportsOf scores /\
    totalA r = pointsA scores /\ totalB r = pointsB scores /\
    totalA r = sumScoreA (sports r) /\ totalB r = sumScoreB (sports r) /\
    sportsPlayed r = playedCount scores /\
    sportsPlayed r + sportsRemaining r = 4 /\
    maxRemainingPoints r = sportsRemaining r * 21.
Proof.
  intros _ scores.
  destruct (engine_cases tt bd sq tn a b) as (r & Hr & Hc).
  exists r. split; [exact Hr|].
  apply engine_frame in Hc. destruct Hc as (st & w & Hf). fold scores in Hf.
  destruct (breakdown_sums scores) as [HA HB].
  change (sports r) with (sports (frame r)).
  change (totalA r) with (totalA (frame r)).
  change (totalB r) with (totalB (frame r)).
  change (sportsPlayed r) with (sportsPlayed (frame r)).
  change (sportsRemaining r) with (sportsRemaining (frame r)).
  change (maxRemainingPoints r) with (maxRemainingPoints (frame r)).
  rewrite Hf.
  cbn [sports totalA totalB sportsPlayed sportsRemaining maxRemainingPoints
       baseResult].
  rewrite HA, HB. repeat split; lia.
Qed.

Lemma analyzeMatch_aggregates_witness :
  exists r,
    analyzeMatch (input (Some (js "21-15")) (Some (js "15-21")) None None)
      None None = Return r /\
    totalA r = 36 /\ totalB r = 36 /\
    sumScoreA (sports r) = 36 /\ sumScoreB (sports r) = 36 /\
    sportsPlayed r + sportsRemaining r = 4.
Proof.
  destruct (analyzeMatch_aggregates
              (Some (js "21-15")) (Some (js "15-21")) None None None None)
    as (r & Hr & _ & HA & HB & HsA & HsB & _ & H4 & _);
    [vm_compute; reflexivity|].
  exists r. split; [exact Hr|].
  rewrite <- HsA, <- HsB, HA, HB.
  split; [vm_compute; reflexivity|]. split; [vm_compute; reflexivity|].
  split; [vm_compute; reflexivity|]. split; [vm_compute; reflexivity|exact H4].
Defined.

(** ** No error reaches the caller *)

(** C4: on any four optional score strings (malformed ones and values
    above 21 included) and any names, [analyzeMatch] returns a result and
    does not throw; a tied set such as "21-21" is counted in the totals
    with margin 0, and "100-0" is accepted as it is. *)
Theorem analyzeMatch_never_throws :
  (forall tt bd sq tn a b : option jsstring,
      exists r, analyzeMatch (input tt bd sq tn) a b = Return r) /\
  (forall a b : option jsstring,
      exists r,
        analyzeMatch (mkScores (str "21-21") VUndefined VUndefined VUndefined) a b
          = Return r /\
        totalA r = 21 /\ totalB r = 21 /\ currentDelta r = 0 /\
        sportsPlayed r = 1 /\ status r = in_progress /\
        getProp (sports r) tabletennis =
          Some {| label := js "Ping-pong"; played := true; scoreA := Some 21;
                  scoreB := Some 21; delta := 0 |}) /\
  (forall a b : option jsstring,
      exists r,
        analyzeMatch (mkScores (str "100-0") VUndefined VUndefined VUndefined) a b
          = Return r /\
        totalA r = 100 /\ totalB r = 0 /\ status r = finished /\
        winner r = Some (orDefault a (js "Joueur A"))).
Proof.
  split; [|split].
  - intros. destruct (engine_cases tt bd sq tn a b) as (r & Hr & _).
    exists r. exact Hr.
  - intros a b. eexists. split; [vm_compute; reflexivity|].
    repeat split.
  - intros a b. eexists. split; [vm_compute; reflexivity|].
    repeat split.
Qed.

(** ** The clinched entry is unreachable *)

Ltac entry_cases HL :=
  let Hin := fresh "Hin" in
  rewrite ?in_app_iff; cbn [In]; intros Hin;
  repeat (destruct Hin as [Hin|Hin]; try (now apply HL));
  try (subst; cbn [type]; discriminate); try contradiction.

(** The last-sport generator emits no [clinched] entry when the lead is
    within one set. *)
Lemma analyzeLastSport_no_clinched L pA pB d lbl :
  Z.abs d <= 21 ->
  (forall e, In e (analysis L) -> type e <> t_clinched) ->
  forall e, In e (analysis (analyzeLastSport L pA pB d lbl)) ->
            type e <> t_clinched.
Proof.
  intros Hd HL e. unfold analyzeLastSport. cbv zeta.
  case_ifs; show_analysis; entry_cases HL.
Qed.

Lemma analyzeBeforeTennis_no_clinched L pA pB d lbl scores :
  (forall e, In e (analysis L) -> type e <> t_clinched) ->
  forall e, In e (analysis (analyzeBeforeTennis L pA pB d lbl scores)) ->
            type e <> t_clinched.
Proof.
  intros HL e. unfold analyzeBeforeTennis. cbv zeta.
  split_ifs; show_analysis; entry_cases HL.
Qed.

Lemma analyzeMultipleSportsRemaining_no_clinched L pA pB d lbl n :
  (forall e, In e (analysis L) -> type e <> t_clinched) ->
  forall e, In e (analysis (analyzeMultipleSportsRemaining L pA pB d lbl n)) ->
            type e <> t_clinched.
Proof.
  intros HL e. unfold analyzeMultipleSportsRemaining. cbv zeta.
  split_ifs; show_analysis; entry_cases HL.
Qed.

Lemma leaderEntry_type pA pB d tA tB :
  type (leaderEntry pA pB d tA tB) <> t_clinched.
Proof. unfold leaderEntry. split_ifs; cbn [type]; discriminate. Qed.

(** The guard is what keeps the entry out: with a lead above 21 the
    last-sport generator does emit it. *)
Lemma analyzeLastSport_clinched L pA pB d lbl :
  21 < Z.abs d ->
  exists m,
    analysis (analyzeLastSport L pA pB d lbl)
      = analysis L ++ [{| type := t_clinched; message := m |}].
Proof.
  intros Hd. unfold analyzeLastSport. cbv zeta.
  case_ifs; show_analysis; eexists; reflexivity.
Qed.

(** C10: the analysis returned by [analyzeMatch] never holds an entry of
    type [clinched]: the generator that emits it runs only when one sport
    remains and the lead is at most 21. *)
Theorem analyzeMatch_never_clinched (tt bd sq tn a b : option jsstring) :
  exists r,
    analyzeMatch (input tt bd sq tn) a b = Return r /\
    forall e, In e (analysis r) -> type e <> t_clinched.
Proof.
  destruct (engine_cases tt bd sq tn a b) as (r & Hr & Hc).
  exists r. split; [exact Hr|].
  destruct Hc as [m H4 Hd|m H4 Hd|m H4 Hd|s H4 Hd Hs Hp].
  1-3: cbn [analysis baseResult In]; intros e [<-|[]]; cbn [type]; discriminate.
  unfold scenarios.
  assert (HL : forall e,
             In e (analysis
                     (baseResult (input tt bd sq tn)
                        (orDefault a (js "Joueur A")) (orDefault b (js "Joueur B"))
                        in_progress None
                        [leaderEntry (orDefault a (js "Joueur A"))
                           (orDefault b (js "Joueur B"))
                           (pointsA (input tt bd sq tn) - pointsB (input tt bd sq tn))
                           (pointsA (input tt bd sq tn))
                           (pointsB (input tt bd sq tn))])) ->
             type e <> t_clinched).
  { cbn [analysis baseResult In]. intros e [<-|[]]. apply leaderEntry_type. }
  destruct (Z.eqb_spec (4 - playedCount (input tt bd sq tn)) 1) as [H1|H1].
  - apply analyzeLastSport_no_clinched; [lia|exact HL].
  - destruct (4 - playedCount (input tt bd sq tn) =? 2).
    + apply analyzeBeforeTennis_no_clinched; exact HL.
    + apply analyzeMultipleSportsRemaining_no_clinched; exact HL.
Qed.

(** ** In-progress matches *)

(** What an in-progress result is made of. *)
Lemma engine_in_progress (tt bd sq tn a b : option jsstring) r :
  analyzeMatch (input tt bd sq tn) a b = Return r ->
  status r = in_progress ->
  let scores := input tt bd sq tn in
  let pA := orDefault a (js "Joueur A") in
  let pB := orDefault b (js "Joueur B") in
  exists s,
    nextSport scores = Some s /\ isPlayed scores s = false /\
    playerA r = pA /\ playerB r = pB /\
    totalA r = pointsA scores /\ totalB r = pointsB scores /\
    currentDelta r = pointsA scores - pointsB scores /\
    sportsRemaining r = 4 - playedCount scores /\
    1 <= sportsRemaining r <= 4 /\
    Z.abs (currentDelta r) <= sportsRemaining r * 21 /\
    r = scenarios
          (baseResult scores pA pB in_progress None
             [leaderEntry pA pB (currentDelta r) (totalA r) (totalB r)])
          pA pB (currentDelta r) (SPORT_LABELS s) (sportsRemaining r) scores.
Proof.
  intros Hr Hst scores pA pB.
  destruct (engine_cases tt bd sq tn a b) as (r' & Hr' & Hc).
  rewrite Hr in Hr'. injection Hr' as <-.
  fold scores pA pB in Hc.
  pose proof (playedCount_range scores) as Hn.
  destruct Hc as [m H4 Hd|m H4 Hd|m H4 Hd|s H4 Hd Hs Hp];
    try (cbn [status baseResult] in Hst; discriminate).
  exists s.
  set (L := baseResult scores pA pB in_progress None _).
  set (d := pointsA scores - pointsB scores) in *.
  set (k := 4 - playedCount scores) in *.
  assert (Hf : frame (scenarios L pA pB d (SPORT_LABELS s) k scores) = frame L)
    by apply frame_scenarios.
  set (r := scenarios L pA pB d (SPORT_LABELS s) k scores) in *.
  assert (HpA : playerA r = pA) by (change (playerA (frame r) = pA); now rewrite Hf).
  assert (HpB : playerB r = pB) by (change (playerB (frame r) = pB); now rewrite Hf).
  assert (HtA : totalA r = pointsA scores)
    by (change (totalA (frame r) = pointsA scores); now rewrite Hf).
  assert (HtB : totalB r = pointsB scores)
    by (change (totalB (frame r) = pointsB scores); now rewrite Hf).
  assert (Hcd : currentDelta r = d)
    by (change (currentDelta (frame r) = d); now rewrite Hf).
  assert (Hsr : sportsRemaining r = k)
    by (change (sportsRemaining (frame r) = k); now rewrite Hf).
  rewrite HpA, HpB, HtA, HtB, Hcd, Hsr.
  repeat split; try assumption; try reflexivity; try lia.
Qed.

(** C5: for an input classified [in_progress] with one sport remaining and
    [0 < |currentDelta| < 21], the analysis is the leader entry followed by:
    the trailing player wins with the last sport at 21 to at most
    [21 - |currentDelta| - 1]; the leading player wins by taking the set or
    losing it by at most [|currentDelta| - 1] (the opponent's 21 to
    [21 - (|currentDelta| - 1)]); and the gummiarm scenario at exactly
    21 to [21 - |currentDelta|].
    Stated for scores and totals of at most [MAX_SAFE_INTEGER]
    ([safeScores]), the range in which the integers of the model are the
    numbers of the code. *)
Theorem last_sport_scenarios (tt bd sq tn a b : option jsstring) r :
  safeScores (input tt bd sq tn) = true ->
  analyzeMatch (input tt bd sq tn) a b = Return r ->
  status r = in_progress ->
  sportsRemaining r = 1 ->
  0 < Z.abs (currentDelta r) < 21 ->
  exists s,
    nextSport (input tt bd sq tn) = Some s /\
    let d := Z.abs (currentDelta r) in
    let leading := if currentDelta r >? 0 then playerA r else playerB r in
    let trailing := if currentDelta r >? 0 then playerB r else playerA r in
    let lbl := SPORT_LABELS s in
    analysis r =
      [ leaderEntry (playerA r) (playerB r) (currentDelta r) (totalA r) (totalB r);
        {| type := t_scenario;
           message := js "🏆 " ++ trailing ++ js " gagne si " ++ lbl
                        ++ js " ≥ 21-" ++ Render.num (21 - d - 1) |};
        {| type := t_scenario;
           message := js "🏆 " ++ leading ++ js " gagne si " ++ lbl
                        ++ js " ≤ 21-" ++ Render.num (21 - (d - 1))
                        ++ js " ou " ++ leading ++ js " gagne le set" |};
        {| type := t_gummiarm_scenario;
           message := js "⚡ Gummiarm si " ++ lbl ++ js " = 21-"
                        ++ Render.num (21 - d) |} ].
Proof.
  intros _ Hr Hst Hrem Hd.
  destruct (engine_in_progress tt bd sq tn a b r Hr Hst)
    as (s & Hs & _ & HpA & HpB & _ & _ & _ & _ & _ & _ & Heq).
  exists s. split; [exact Hs|].
  rewrite HpA, HpB in *. rewrite Hrem in Heq.
  set (D := currentDelta r) in *.
  cbv zeta. rewrite Heq at 1.
  unfold scenarios. cbn [Z.eqb Pos.eqb]. unfold analyzeLastSport. cbv zeta.
  destruct (Z.gtb_spec D 0) as [Hpos|Hneg].
  - replace (Z.abs D) with D by lia.
    replace (21 - (D - 1)) with (21 - D - 1 + 2) by lia.
    case_ifs; reflexivity.
  - replace (21 - (Z.abs D - 1)) with (21 - Z.abs D - 1 + 2) by lia.
    case_ifs. reflexivity.
Qed.

(** The scenario of the specification: 21-15 three times, tennis not
    played. *)
Lemma last_sport_scenarios_witness :
  exists r,
    analyzeMatch
      (input (Some (js "21-15")) (Some (js "21-15")) (Some (js "21-15")) None)
      None None = Return r /\
    status r = in_progress /\ sportsRemaining r = 1 /\
    totalA r = 63 /\ totalB r = 45 /\ currentDelta r = 18 /\
    analysis r =
      [ {| type := t_leader;
           message := js "Joueur A mène de 18 points (63-45)" |};
        {| type := t_scenario;
           message := js "🏆 Joueur B gagne si Tennis ≥ 21-2" |};
        {| type := t_scenario;
           message :=
             js "🏆 Joueur A gagne si Tennis ≤ 21-4 ou Joueur A gagne le set" |};
        {| type := t_gummiarm_scenario;
           message := js "⚡ Gummiarm si Tennis = 21-3" |} ].
Proof.
  eexists. split; [vm_compute; reflexivity|].
  match goal with
  | |- _ /\ _ /\ _ /\ _ /\ _ /\ analysis ?r = _ =>
      destruct (last_sport_scenarios
                  (Some (js "21-15")) (Some (js "21-15")) (Some (js "21-15")) None
                  None None r)
        as (s & Hs & Han);
      [ vm_compute; reflexivity | vm_compute; reflexivity | reflexivity | reflexivity
      | cbn [currentDelta]; lia | ]
  end.
  vm_compute in Hs. injection Hs as <-.
  split; [reflexivity|]. split; [reflexivity|]. split; [reflexivity|].
  split; [reflexivity|]. split; [reflexivity|].
  rewrite Han. vm_compute. reflexivity.
Defined.

(** C7: for an input classified [in_progress] with three or more sports
    remaining, when neither clinch gain ([pointsAfterThis - delta + 1] for
    A, [pointsAfterThis + delta + 1] for B, with
    [pointsAfterThis = (remaining - 1) * 21]) fits in the 21 points of one
    sport, the analysis is the leader or tied entry, the count of
    remaining sports, and the explicit message that nobody can win after
    the next sport alone.
    Stated for scores and totals of at most [MAX_SAFE_INTEGER]
    ([safeScores]), the range in which the integers of the model are the
    numbers of the code. *)
Theorem undecided_after_next_sport (tt bd sq tn a b : option jsstring) r :
  safeScores (input tt bd sq tn) = true ->
  analyzeMatch (input tt bd sq tn) a b = Return r ->
  status r = in_progress ->
  3 <= sportsRemaining r ->
  21 < (sportsRemaining r - 1) * 21 - currentDelta r + 1 ->
  21 < (sportsRemaining r - 1) * 21 + currentDelta r + 1 ->
  exists s,
    nextSport (input tt bd sq tn) = Some s /\
    analysis r =
      [ leaderEntry (playerA r) (playerB r) (currentDelta r) (totalA r) (totalB r);
        {| type := t_info;
           message := Render.num (sportsRemaining r) ++ js " sports restants ("
                        ++ Render.num ((sportsRemaining r - 1) * 21 + 21)
                        ++ js " pts max)" |};
        {| type := t_info;
           message := js "Aucun ne peut gagner après " ++ SPORT_LABELS s
                        ++ js " seul, le match continue" |} ].
Proof.
  intros _ Hr Hst Hrem HA HB.
  destruct (engine_in_progress tt bd sq tn a b r Hr Hst)
    as (s & Hs & _ & HpA & HpB & _ & _ & _ & _ & _ & _ & Heq).
  exists s. split; [exact Hs|].
  rewrite HpA, HpB in *.
  set (D := currentDelta r) in *. set (k := sportsRemaining r) in *.
  rewrite Heq at 1.
  unfold scenarios.
  destruct (Z.eqb_spec k 1); [lia|]. destruct (Z.eqb_spec k 2); [lia|].
  unfold analyzeMultipleSportsRemaining, MAX_POINTS_PER_SET. cbv zeta.
  destruct (Z.leb_spec ((k - 1) * 21 - D + 1) 21); [lia|].
  destruct (Z.leb_spec ((k - 1) * 21 + D + 1) 21); [lia|].
  destruct (Z.gtb_spec ((k - 1) * 21 - D + 1) 21); [|lia].
  destruct (Z.gtb_spec ((k - 1) * 21 + D + 1) 21); [|lia].
  reflexivity.
Qed.

(** The scenario of the specification: only table tennis played, 21-0. *)
Lemma undecided_after_next_sport_witness :
  exists r,
    analyzeMatch (input (Some (js "21-0")) None None None) None None = Return r /\
    status r = in_progress /\ sportsRemaining r = 3 /\ currentDelta r = 21 /\
    analysis r =
      [ {| type := t_leader;
           message := js "Joueur A mène de 21 points (21-0)" |};
        {| type := t_info; message := js "3 sports restants (63 pts max)" |};
        {| type := t_info;
           message :=
             js "Aucun ne peut gagner après Badminton seul, le match continue" |} ].
Proof.
  eexists. split; [vm_compute; reflexivity|].
  match goal with
  | |- _ /\ _ /\ _ /\ analysis ?r = _ =>
      destruct (undecided_after_next_sport
                  (Some (js "21-0")) None None None None None r)
        as (s & Hs & Han);
      [ vm_compute; reflexivity | vm_compute; reflexivity | reflexivity
      | cbn [sportsRemaining]; lia
      | cbn [sportsRemaining currentDelta]; lia
      | cbn [sportsRemaining currentDelta]; lia | ]
  end.
  vm_compute in Hs. injection Hs as <-.
  split; [reflexivity|]. split; [reflexivity|]. split; [reflexivity|].
  rewrite Han. vm_compute. reflexivity.
Defined.

(** C8, as the code has it: for an input classified [in_progress] with two
    sports remaining and a margin of zero, the stage for two remaining
    sports emits its header entry and then only the generic message that
    the winner of the next sport has the advantage at tennis: no
    skip-tennis entry and no per-player tennis-setup entry.
    Stated for scores and totals of at most [MAX_SAFE_INTEGER]
    ([safeScores]), the range in which the integers of the model are the
    numbers of the code. *)
Theorem tied_before_tennis (tt bd sq tn a b : option jsstring) r :
  safeScores (input tt bd sq tn) = true ->
  analyzeMatch (input tt bd sq tn) a b = Return r ->
  status r = in_progress ->
  sportsRemaining r = 2 ->
  currentDelta r = 0 ->
  exists s,
    nextSport (input tt bd sq tn) = Some s /\
    analysis r =
      [ {| type := t_tied;
           message := js "Égalité parfaite " ++ Render.num (totalA r) ++ js "-"
                        ++ Render.num (totalB r) |};
        {| type := t_header;
           message := js "📊 Analyse " ++ SPORT_LABELS s ++ js " :" |};
        {| type := t_tennis_setup;
           message := js "🎾 Le gagnant du " ++ SPORT_LABELS s
                        ++ js " aura l'avantage au tennis" |} ].
Proof.
  intros _ Hr Hst Hrem Hd.
  destruct (engine_in_progress tt bd sq tn a b r Hr Hst)
    as (s & Hs & _ & HpA & HpB & _ & _ & _ & _ & _ & _ & Heq).
  exists s. split; [exact Hs|].
  rewrite Hrem, Hd in Heq. rewrite Heq at 1.
  reflexivity.
Qed.

(** Two sports played, 21-15 and 15-21. *)
Lemma tied_before_tennis_witness :
  exists r,
    analyzeMatch (input (Some (js "21-15")) (Some (js "15-21")) None None)
      None None = Return r /\
    status r = in_progress /\ sportsRemaining r = 2 /\ currentDelta r = 0 /\
    analysis r =
      [ {| type := t_tied; message := js "Égalité parfaite 36-36" |};
        {| type := t_header; message := js "📊 Analyse Squash :" |};
        {| type := t_tennis_setup;
           message := js "🎾 Le gagnant du Squash aura l'avantage au tennis" |} ].
Proof.
  eexists. split; [vm_compute; reflexivity|].
  match goal with
  | |- _ /\ _ /\ _ /\ analysis ?r = _ =>
      destruct (tied_before_tennis
                  (Some (js "21-15")) (Some (js "15-21")) None None None None r)
        as (s & Hs & Han);
      [ vm_compute; reflexivity | vm_compute; reflexivity | reflexivity | reflexivity | reflexivity | ]
  end.
  vm_compute in Hs. injection Hs as <-.
  split; [reflexivity|]. split; [reflexivity|]. split; [reflexivity|].
  rewrite Han. vm_compute. reflexivity.
Defined.

(** C8 as stated fails: on the scores 21-15 and 15-21 (two sports left,
    margin zero) the entries that follow the tied entry are two, a header
    and the generic message, not the generic message alone. *)
Lemma tied_before_tennis_emits_header :
  exists r,
    analyzeMatch (input (Some (js "21-15")) (Some (js "15-21")) None None)
      None None = Return r /\
    status r = in_progress /\ sportsRemaining r = 2 /\ currentDelta r = 0 /\
    let generic :=
      {| type := t_tennis_setup;
         message := js "🎾 Le gagnant du Squash aura l'avantage au tennis" |} in
    tl (analysis r)
      = [ {| type := t_header; message := js "📊 Analyse Squash :" |}; generic ] /\
    tl (analysis r) <> [ generic ].
Proof.
  eexists. split; [vm_compute; reflexivity|].
  split; [reflexivity|]. split; [reflexivity|]. split; [reflexivity|].
  cbv zeta. split; [vm_compute; reflexivity|]. vm_compute. discriminate.
Qed.

(** ** A lead of exactly 21 before the last sport *)

(** C6 holds when A leads by 21 and fails when B does.  With A ahead by 21
    the only scenario is that B must win the last sport 21-0 to reach the
    gummiarm; the mirrored input, B ahead by 21, falls into the branch for
    smaller leads and yields three entries, the first of which asks A for
    a score of 21 to -1. *)
Theorem lead_of_21_not_mirrored :
  (exists r,
      analyzeMatch
        (input (Some (js "21-0")) (Some (js "10-10")) (Some (js "10-10")) None)
        None None = Return r /\
      status r = in_progress /\ sportsRemaining r = 1 /\ currentDelta r = 21 /\
      analysis r =
        [ {| type := t_leader;
             message := js "Joueur A mène de 21 points (41-20)" |};
          {| type := t_scenario;
             message :=
               js "Joueur B doit faire 21-0 au Tennis pour aller au Gummiarm" |} ])
  /\
  (exists r,
      analyzeMatch
        (input (Some (js "0-21")) (Some (js "10-10")) (Some (js "10-10")) None)
        None None = Return r /\
      status r = in_progress /\ sportsRemaining r = 1 /\ currentDelta r = -21 /\
      analysis r =
        [ {| type := t_leader;
             message := js "Joueur B mène de 21 points (41-20)" |};
          {| type := t_scenario;
             message := js "🏆 Joueur A gagne si Tennis ≥ 21--1" |};
          {| type := t_scenario;
             message :=
               js "🏆 Joueur B gagne si Tennis ≤ 21-1 ou Joueur B gagne le set" |};
          {| type := t_gummiarm_scenario;
             message := js "⚡ Gummiarm si Tennis = 21-0" |} ] /\
      analysis r <>
        [ {| type := t_leader;
             message := js "Joueur B mène de 21 points (41-20)" |};
          {| type := t_scenario;
             message :=
               js "Joueur A doit faire 21-0 au Tennis pour aller au Gummiarm" |} ]).
Proof.
  split.
  - eexists. split; [vm_compute; reflexivity|].
    repeat (split; [reflexivity|]). vm_compute. reflexivity.
  - eexists. split; [vm_compute; reflexivity|].
    repeat (split; [reflexivity|]). vm_compute. discriminate.
Qed.

(** The same on every input: with B ahead by exactly 21 and one sport
    left, the analysis has three scenario entries after the leader entry. *)
Lemma lead_of_21_for_B (tt bd sq tn a b : option jsstring) r :
  analyzeMatch (input tt bd sq tn) a b = Return r ->
  status r = in_progress ->
  sportsRemaining r = 1 ->
  currentDelta r = -21 ->
  exists s,
    nextSport (input tt bd sq tn) = Some s /\
    analysis r =
      [ leaderEntry (playerA r) (playerB r) (-21) (totalA r) (totalB r);
        {| type := t_scenario;
           message := js "🏆 " ++ playerA r ++ js " gagne si " ++ SPORT_LABELS s
                        ++ js " ≥ 21-" ++ Render.num (-1) |};
        {| type := t_scenario;
           message := js "🏆 " ++ playerB r ++ js " gagne si " ++ SPORT_LABELS s
                        ++ js " ≤ 21-" ++ Render.num 1 ++ js " ou " ++ playerB r
                        ++ js " gagne le set" |};
        {| type := t_gummiarm_scenario;
           message := js "⚡ Gummiarm si " ++ SPORT_LABELS s ++ js " = 21-"
                        ++ Render.num 0 |} ].
Proof.
  intros Hr Hst Hrem Hd.
  destruct (engine_in_progress tt bd sq tn a b r Hr Hst)
    as (s & Hs & _ & HpA & HpB & _ & _ & _ & _ & _ & _ & Heq).
  exists s. split; [exact Hs|].
  rewrite HpA, HpB in *. rewrite Hrem, Hd in Heq. rewrite Heq at 1.
  reflexivity.
Qed.

(** With A ahead by exactly 21 the single 21-0 scenario is emitted. *)
Lemma lead_of_21_for_A (tt bd sq tn a b : option jsstring) r :
  analyzeMatch (input tt bd sq tn) a b = Return r ->
  status r = in_progress ->
  sportsRemaining r = 1 ->
  currentDelta r = 21 ->
  exists s,
    nextSport (input tt bd sq tn) = Some s /\
    analysis r =
      [ leaderEntry (playerA r) (playerB r) 21 (totalA r) (totalB r);
        {| type := t_scenario;
           message := playerB r ++ js " doit faire 21-0 au " ++ SPORT_LABELS s
                        ++ js " pour aller au Gummiarm" |} ].
Proof.
  intros Hr Hst Hrem Hd.
  destruct (engine_in_progress tt bd sq tn a b r Hr Hst)
    as (s & Hs & _ & HpA & HpB & _ & _ & _ & _ & _ & _ & Heq).
  exists s. split; [exact Hs|].
  rewrite HpA, HpB in *. rewrite Hrem, Hd in Heq. rewrite Heq at 1.
  reflexivity.
Qed.

(** ** Player names *)

(** C9 as stated fails: empty name strings passed to [analyzeMatch] are
    kept, in the name fields and as the winner. *)
Lemma empty_names_are_kept :
  exists r,
    analyzeMatch
      (input (Some (js "21-0")) (Some (js "21-0")) (Some (js "21-0")) None)
      (Some []) (Some []) = Return r /\
    playerA r = [] /\ playerB r = [] /\ winner r = Some [] /\
    playerA r <> js "Joueur A" /\ playerB r <> js "Joueur B" /\
    winner r <> Some (js "Joueur A").
Proof.
  eexists. split; [vm_compute; reflexivity|].
  repeat (split; [reflexivity|]).
  repeat split; vm_compute; discriminate.
Qed.

(** C9, as the code has it: the placeholders "Joueur A" and "Joueur B" are
    used when the name arguments are omitted: in the name fields, as the
    winner, and throughout the result, which is the one obtained by
    passing the placeholders.  The caller in [app.js] replaces empty
    name fields by the placeholders before it calls the engine. *)
Theorem default_names_when_omitted (tt bd sq tn : option jsstring) :
  let scores := input tt bd sq tn in
  exists r,
    analyzeMatch scores None None = Return r /\
    playerA r = js "Joueur A" /\ playerB r = js "Joueur B" /\
    (winner r = None \/ winner r = Some (js "Joueur A")
     \/ winner r = Some (js "Joueur B")) /\
    analyzeMatch scores (Some (js "Joueur A")) (Some (js "Joueur B")) = Return r /\
    updateAnalysis scores [] [] =
      if noScores scores then None else Some (Return r).
Proof.
  intros scores.
  destruct (engine_cases tt bd sq tn None None) as (r & Hr & Hc).
  exists r. split; [exact Hr|].
  fold scores in Hc. cbn [orDefault] in Hc.
  assert (Hn : playerA r = js "Joueur A" /\ playerB r = js "Joueur B").
  { apply engine_frame in Hc. destruct Hc as (st & w & Hf).
    change (playerA r) with (playerA (frame r)).
    change (playerB r) with (playerB (frame r)).
    rewrite Hf. split; reflexivity. }
  destruct Hn as [HA HB]. split; [exact HA|]. split; [exact HB|].
  split.
  - destruct Hc as [m H4 Hd|m H4 Hd|m H4 Hd|s H4 Hd Hs Hp];
      cbn [winner baseResult]; auto.
    + destruct (_ >? 0); auto.
    + destruct (_ >? 0); auto.
    + change (winner ?x) with (winner (frame x)). rewrite frame_scenarios.
      left. reflexivity.
  - split; [exact Hr|].
    unfold updateAnalysis. cbv zeta.
    destruct (noScores scores); [reflexivity|].
    f_equal. exact Hr.
Qed.

(** * Further properties of the engine *)

(** ** Rendering and parsing a score *)

Lemma digits_all u : forallb isDigit (Render.digits u) = true.
Proof. induction u; cbn [Render.digits forallb]; auto. Qed.

Lemma parse_digits_acc u : forall acc : positive,
  fold_left (fun acc c => 10 * acc + (Z.of_N c - 48)) (Render.digits u) (Zpos acc)
    = Zpos (Pos.of_uint_acc u acc).
Proof.
  induction u; intros acc; cbn [Render.digits fold_left Pos.of_uint_acc];
    [reflexivity|..];
    match goal with
    | |- fold_left _ _ ?z = _ =>
        match goal with
        | |- _ = Zpos (Pos.of_uint_acc _ ?q) =>
            replace z with (Zpos q) by lia; apply IHu
        end
    end.
Qed.

Lemma parse_digits u : parseInt (Render.digits u) = Z.of_N (Pos.of_uint u).
Proof.
  unfold parseInt.
  induction u; cbn [Render.digits fold_left Pos.of_uint]; [reflexivity|exact IHu|..];
    match goal with
    | |- fold_left _ _ ?z = _ =>
        let z' := eval cbv in z in
        change z with z'; rewrite parse_digits_acc; reflexivity
    end.
Qed.

Lemma num_all_digits z : 0 <= z -> forallb isDigit (Render.num z) = true.
Proof. destruct z; [reflexivity|intros _; apply digits_all|lia]. Qed.

Lemma num_nonempty z : Render.num z <> [].
Proof.
  destruct z; cbn [Render.num]; try discriminate.
  intros H. pose proof (DecimalPos.Unsigned.of_to p) as Hp.
  destruct (Pos.to_uint p); cbn in H, Hp; discriminate.
Qed.

Lemma parseInt_num z : 0 <= z -> parseInt (Render.num z) = z.
Proof.
  destruct z; [reflexivity| |lia]. intros _.
  cbn [Render.num]. rewrite parse_digits, DecimalPos.Unsigned.of_to. reflexivity.
Qed.

Lemma parse_rendered (x y : Z) :
  0 <= x -> 0 <= y ->
  parseScore (VStr (Render.num x ++ js "-" ++ Render.num y))
    = Return (Some (x, y)).
Proof.
  intros Hx Hy. apply parseScore_Some.
  exists (Render.num x), (Render.num y).
  rewrite !removeSpaces_app.
  rewrite (removeSpaces_digits _ (num_all_digits x Hx)).
  rewrite (removeSpaces_digits _ (num_all_digits y Hy)).
  repeat split; auto using num_nonempty, num_all_digits;
    symmetry; now apply parseInt_num.
Qed.

(** X1: a pair of non-negative integers of at most [MAX_SAFE_INTEGER],
    written in decimal as "x-y", or as "x - y" with spaces around the
    separator, parses back to the same pair. *)
Theorem parse_rendered_score (x y : Z) :
  0 <= x <= MAX_SAFE_INTEGER -> 0 <= y <= MAX_SAFE_INTEGER ->
  parseScore (VStr (Render.num x ++ js "-" ++ Render.num y))
    = Return (Some (x, y)) /\
  parseScore (VStr (Render.num x ++ js " - " ++ Render.num y))
    = Return (Some (x, y)).
Proof.
  intros [Hx _] [Hy _].
  pose proof (num_all_digits x Hx) as Dx. pose proof (num_all_digits y Hy) as Dy.
  split; apply parseScore_Some; exists (Render.num x), (Render.num y);
    rewrite !removeSpaces_app, (removeSpaces_digits _ Dx),
      (removeSpaces_digits _ Dy);
    (split; [reflexivity|]);
    (split; [apply num_nonempty|]); (split; [apply num_nonempty|]);
    (split; [exact Dx|]); (split; [exact Dy|]);
    split; symmetry; now apply parseInt_num.
Qed.

Lemma parse_rendered_score_witness :
  parseScore (VStr (Render.num 21 ++ js "-" ++ Render.num 15))
    = Return (Some (21, 15)) /\
  parseScore (VStr (Render.num 21 ++ js " - " ++ Render.num 15))
    = Return (Some (21, 15)).
Proof. apply (parse_rendered_score 21 15); unfold MAX_SAFE_INTEGER; lia. Defined.

Lemma parsed_nonneg v x y : parsed v = Some (x, y) -> 0 <= x /\ 0 <= y.
Proof.
  unfold parsed. destruct v as [| |s|n]; try discriminate.
  - destruct (parseScore (VStr s)) as [[[x' y']|]|e] eqn:E; try discriminate.
    intros H. injection H as -> ->. apply parseScore_Some in E.
    destruct E as (d1 & d2 & _ & _ & _ & H1 & H2 & -> & ->).
    split; now apply parseInt_nonneg.
  - unfold parseScore. destruct (negb (truthy (VNum n))); discriminate.
Qed.

(** X2: parsing is idempotent: the canonical rendering "x-y" of a parsed
    pair parses to the same pair, whatever whitespace or leading zeros the
    original string had.  Stated for parsed values of at most
    [MAX_SAFE_INTEGER], which the code reads exactly and prints with all
    their digits. *)
Theorem parse_canonical_rendering (s : jsstring) (x y : Z) :
  parseScore (VStr s) = Return (Some (x, y)) ->
  x <= MAX_SAFE_INTEGER -> y <= MAX_SAFE_INTEGER ->
  parseScore (VStr (Render.num x ++ js "-" ++ Render.num y))
    = Return (Some (x, y)).
Proof.
  intros H _ _.
  assert (Hp : parsed (VStr s) = Some (x, y)) by (unfold parsed; now rewrite H).
  apply parsed_nonneg in Hp. now apply parse_rendered.
Qed.

Lemma parse_canonical_rendering_witness :
  parseScore (str " 007 - 3 ") = Return (Some (7, 3)) /\
  parseScore (VStr (Render.num 7 ++ js "-" ++ Render.num 3))
    = Return (Some (7, 3)).
Proof.
  split; [reflexivity|].
  apply (parse_canonical_rendering (js " 007 - 3 ") 7 3);
    [reflexivity | unfold MAX_SAFE_INTEGER; lia | unfold MAX_SAFE_INTEGER; lia].
Defined.

(** ** Example scores for a gain *)

Lemma calculateScoreForGain_in_range (gain : Z) (forB : bool) :
  0 <= gain <= 21 ->
  calculateScoreForGain gain forB
    = VStr (if forB then Render.num (21 - gain) ++ js "-21"
            else js "21-" ++ Render.num (21 - gain)).
Proof.
  intros Hg. unfold calculateScoreForGain. cbv zeta.
  destruct (Z.gtb_spec gain 21); [lia|]. destruct (Z.ltb_spec gain (-21)); [lia|].
  cbn [orb]. replace (Z.max 0 (21 - gain)) with (21 - gain) by lia.
  destruct (Z.gtb_spec (21 - gain) 21); [lia|].
  destruct forB; reflexivity.
Qed.

Lemma calculateScoreForGain_out_of_range (gain : Z) (forB : bool) :
  gain < 0 \/ 21 < gain ->
  calculateScoreForGain gain forB = VNull.
Proof.
  intros Hg. unfold calculateScoreForGain. cbv zeta.
  destruct (Z.gtb_spec gain 21); [reflexivity|].
  destruct (Z.ltb_spec gain (-21)); [reflexivity|]. cbn [orb].
  destruct (Z.gtb_spec (Z.max 0 (21 - gain)) 21); [reflexivity|lia].
Qed.

(** X3: for a gain from 0 to 21 [calculateScoreForGain] yields a set won
    21 to [21 - gain], written from the side of the player it is for, and
    [parseScore] reads it back as a set whose margin is the gain. *)
Theorem calculateScoreForGain_parses (gain : Z) (forB : bool) :
  0 <= gain <= 21 ->
  exists s,
    calculateScoreForGain gain forB = VStr s /\
    s = (if forB then Render.num (21 - gain) ++ js "-21"
         else js "21-" ++ Render.num (21 - gain)) /\
    parseScore (VStr s)
      = Return (Some (if forB then (21 - gain, 21) else (21, 21 - gain))).
Proof.
  intros Hg. rewrite (calculateScoreForGain_in_range gain forB Hg).
  eexists. split; [reflexivity|]. split; [reflexivity|].
  destruct forB.
  - apply (parse_rendered (21 - gain) 21); lia.
  - apply (parse_rendered 21 (21 - gain)); lia.
Qed.

Lemma calculateScoreForGain_parses_witness :
  exists s,
    calculateScoreForGain 7 false = VStr s /\
    s = js "21-" ++ Render.num (21 - 7) /\
    parseScore (VStr s) = Return (Some (21, 21 - 7)).
Proof. apply (calculateScoreForGain_parses 7 false). lia. Defined.

(** X4: [calculateScoreForGain] returns [null] exactly outside the gains
    0 to 21: above 21, and for every negative gain, also those down to -21
    that pass its first guard. *)
Theorem calculateScoreForGain_null_iff (gain : Z) (forB : bool) :
  calculateScoreForGain gain forB = VNull <-> gain < 0 \/ 21 < gain.
Proof.
  split.
  - intros H. destruct (Z_lt_le_dec gain 0) as [|Hlo]; [now left|].
    destruct (Z_lt_le_dec 21 gain) as [|Hhi]; [now right|].
    rewrite calculateScoreForGain_in_range in H by lia. discriminate.
  - apply calculateScoreForGain_out_of_range.
Qed.

(** ** The scenarios of an in-progress match, branch by branch *)

(** X5: tied before the last sport.  The analysis is the tied entry, the
    statement that the winner of the last sport wins the match, and the
    gummiarm scenario for a tied last sport.
    Stated for scores and totals of at most [MAX_SAFE_INTEGER]
    ([safeScores]), the range in which the integers of the model are the
    numbers of the code. *)
Theorem last_sport_tied (tt bd sq tn a b : option jsstring) r :
  safeScores (input tt bd sq tn) = true ->
  analyzeMatch (input tt bd sq tn) a b = Return r ->
  status r = in_progress ->
  sportsRemaining r = 1 ->
  currentDelta r = 0 ->
  exists s,
    nextSport (input tt bd sq tn) = Some s /\
    analysis r =
      [ {| type := t_tied;
           message := js "Égalité parfaite " ++ Render.num (totalA r) ++ js "-"
                        ++ Render.num (totalB r) |};
        {| type := t_scenario;
           message := js "Le gagnant du " ++ SPORT_LABELS s
                        ++ js " remporte le match !" |};
        {| type := t_gummiarm_scenario;
           message := js "⚡ Gummiarm si égalité au " ++ SPORT_LABELS s |} ].
Proof.
  intros _ Hr Hst Hrem Hd.
  destruct (engine_in_progress tt bd sq tn a b r Hr Hst)
    as (s & Hs & _ & HpA & HpB & _ & _ & _ & _ & _ & _ & Heq).
  exists s. split; [exact Hs|].
  rewrite Hrem, Hd in Heq. rewrite Heq at 1.
  reflexivity.
Qed.

Lemma last_sport_tied_witness :
  exists r,
    analyzeMatch
      (input (Some (js "21-15")) (Some (js "15-21")) (Some (js "10-10")) None)
      None None = Return r /\
    analysis r =
      [ {| type := t_tied; message := js "Égalité parfaite 46-46" |};
        {| type := t_scenario;
           message := js "Le gagnant du Tennis remporte le match !" |};
        {| type := t_gummiarm_scenario;
           message := js "⚡ Gummiarm si égalité au Tennis" |} ].
Proof.
  eexists. split; [vm_compute; reflexivity|].
  match goal with
  | |- analysis ?r = _ =>
      destruct (last_sport_tied
                  (Some (js "21-15")) (Some (js "15-21")) (Some (js "10-10")) None
                  None None r)
        as (s & Hs & Han);
      [ vm_compute; reflexivity | vm_compute; reflexivity | reflexivity | reflexivity | reflexivity | ]
  end.
  vm_compute in Hs. injection Hs as <-.
  rewrite Han. vm_compute. reflexivity.
Defined.

Lemma truthy_score_A x : truthy (VStr (js "21-" ++ x)) = true.
Proof. reflexivity. Qed.

Lemma truthy_score_B z x : truthy (VStr (Render.num z ++ x)) = true.
Proof.
  cbn [truthy]. pose proof (num_nonempty z) as H.
  destruct (Render.num z); [contradiction|reflexivity].
Qed.

(** X6: a lead before the last two sports.  With two sports remaining and
    a lead of [d > 0], the analysis is: the leader entry; the header; for a
    lead of at most 22, one skip-tennis entry, for the leading player only,
    with the score 21 to [d - 1]; then the two tennis-setup entries (the
    leading player keeps the advantage when losing by at most [d - 1], the
    trailing player needs [d + 1]).  The trailing player never gets a
    skip-tennis entry.
    Stated for scores and totals of at most [MAX_SAFE_INTEGER]
    ([safeScores]), the range in which the integers of the model are the
    numbers of the code. *)
Theorem before_tennis_with_lead (tt bd sq tn a b : option jsstring) r :
  safeScores (input tt bd sq tn) = true ->
  analyzeMatch (input tt bd sq tn) a b = Return r ->
  status r = in_progress ->
  sportsRemaining r = 2 ->
  currentDelta r <> 0 ->
  exists s,
    nextSport (input tt bd sq tn) = Some s /\
    let d := Z.abs (currentDelta r) in
    let leading := if currentDelta r >? 0 then playerA r else playerB r in
    let trailing := if currentDelta r >? 0 then playerB r else playerA r in
    let score := if currentDelta r >? 0 then js "21-" ++ Render.num (d - 1)
                 else Render.num (d - 1) ++ js "-21" in
    let lbl := SPORT_LABELS s in
    analysis r =
      [ leaderEntry (playerA r) (playerB r) (currentDelta r) (totalA r) (totalB r);
        {| type := t_header; message := js "📊 Analyse " ++ lbl ++ js " :" |} ]
      ++ (if d <=? 22 then
            [ {| type := t_skip_tennis;
                 message := js "🏆 " ++ leading ++ js " gagne SANS tennis si : "
                              ++ lbl ++ js " en " ++ score ++ js " ou mieux" |} ]
          else [])
      ++ [ {| type := t_tennis_setup;
              message := js "🎾 " ++ leading
                           ++ js " va au tennis avec l'avantage si perd de "
                           ++ Render.num (d - 1) ++ js " pts ou moins au " ++ lbl |};
           {| type := t_tennis_setup;
              message := js "🎾 " ++ trailing ++ js " doit gagner +"
                           ++ Render.num (d + 1) ++ js " pts au " ++ lbl
                           ++ js " pour avoir l'avantage au tennis" |} ].
Proof.
  intros _ Hr Hst Hrem Hd.
  destruct (engine_in_progress tt bd sq tn a b r Hr Hst)
    as (s & Hs & _ & HpA & HpB & _ & _ & _ & _ & _ & Hcap & Heq).
  exists s. split; [exact Hs|].
  rewrite HpA, HpB in *. rewrite Hrem in Heq, Hcap.
  set (D := currentDelta r) in *.
  cbv zeta. rewrite Heq at 1.
  unfold scenarios. cbn [Z.eqb Pos.eqb].
  unfold analyzeBeforeTennis. cbv zeta.
  destruct (Z.gtb_spec D 0) as [Hpos|Hneg].
  - replace (Z.abs D) with D by lia.
    destruct (Z.geb_spec D 0); [|lia].
    destruct (Z.leb_spec (22 - D) 21); [|lia].
    destruct (Z.leb_spec D 22) as [H22|H22].
    + rewrite (calculateScoreForGain_in_range (22 - D) false) by lia.
      rewrite truthy_score_A. cbn [toStr].
      replace (21 - (22 - D)) with (D - 1) by lia.
      destruct (Z.leb_spec D 21).
      * destruct (Z.leb_spec (Z.abs (-22 - D)) 21); [lia|]. reflexivity.
      * reflexivity.
    + rewrite (calculateScoreForGain_out_of_range (22 - D) false) by lia.
      cbn [truthy]. destruct (Z.leb_spec D 21); [lia|]. reflexivity.
  - destruct (Z.geb_spec D 0); [lia|].
    destruct (Z.leb_spec (22 - Z.abs D) 21); [|lia].
    destruct (Z.leb_spec (22 + Z.abs D) 21); [lia|].
    destruct (Z.leb_spec (Z.abs D) 22) as [H22|H22].
    + rewrite (calculateScoreForGain_in_range (22 - Z.abs D) true) by lia.
      rewrite truthy_score_B. cbn [toStr].
      replace (21 - (22 - Z.abs D)) with (Z.abs D - 1) by lia.
      reflexivity.
    + rewrite (calculateScoreForGain_out_of_range (22 - Z.abs D) true) by lia.
      reflexivity.
Qed.

Lemma before_tennis_with_lead_witness :
  exists r,
    analyzeMatch (input (Some (js "21-10")) (Some (js "21-15")) None None)
      None None = Return r /\
    currentDelta r = 17 /\
    analysis r =
      [ {| type := t_leader;
           message := js "Joueur A mène de 17 points (42-25)" |};
        {| type := t_header; message := js "📊 Analyse Squash :" |};
        {| type := t_skip_tennis;
           message :=
             js "🏆 Joueur A gagne SANS tennis si : Squash en 21-16 ou mieux" |};
        {| type := t_tennis_setup;
           message :=
             js "🎾 Joueur A va au tennis avec l'avantage si perd de 16 pts ou moins au Squash" |};
        {| type := t_tennis_setup;
           message :=
             js "🎾 Joueur B doit gagner +18 pts au Squash pour avoir l'avantage au tennis" |} ].
Proof.
  eexists. split; [vm_compute; reflexivity|]. split; [reflexivity|].
  match goal with
  | |- analysis ?r = _ =>
      destruct (before_tennis_with_lead
                  (Some (js "21-10")) (Some (js "21-15")) None None None None r)
        as (s & Hs & Han);
      [ vm_compute; reflexivity | vm_compute; reflexivity | reflexivity | reflexivity
      | cbn [currentDelta]; lia | ]
  end.
  vm_compute in Hs. injection Hs as <-.
  rewrite Han. vm_compute. reflexivity.
Defined.

(** X7: a lead large enough to clinch with three or more sports left.
    When the leading player's clinch gain
    [(remaining - 1) * 21 - |delta| + 1] is at most 21, the analysis is the
    leader entry, the count of remaining sports and one clinch-possible
    entry, for the leading player only.  Its score is 21 to [21 - gain]
    for a gain of 0 or more; for a negative gain (the lead already exceeds
    what the later sports can give) [calculateScoreForGain] returns [null]
    and the message reads "avec un null ou mieux".
    Stated for scores and totals of at most [MAX_SAFE_INTEGER]
    ([safeScores]), the range in which the integers of the model are the
    numbers of the code. *)
Theorem clinch_possible_after_next_sport (tt bd sq tn a b : option jsstring) r :
  safeScores (input tt bd sq tn) = true ->
  analyzeMatch (input tt bd sq tn) a b = Return r ->
  status r = in_progress ->
  3 <= sportsRemaining r ->
  (sportsRemaining r - 1) * 21 - Z.abs (currentDelta r) + 1 <= 21 ->
  exists s,
    nextSport (input tt bd sq tn) = Some s /\
    let gain := (sportsRemaining r - 1) * 21 - Z.abs (currentDelta r) + 1 in
    let leading := if currentDelta r >? 0 then playerA r else playerB r in
    let score :=
      if gain <? 0 then js "null"
      else if currentDelta r >? 0 then js "21-" ++ Render.num (21 - gain)
      else Render.num (21 - gain) ++ js "-21" in
    analysis r =
      [ leaderEntry (playerA r) (playerB r) (currentDelta r) (totalA r) (totalB r);
        {| type := t_info;
           message := Render.num (sportsRemaining r) ++ js " sports restants ("
                        ++ Render.num ((sportsRemaining r - 1) * 21 + 21)
                        ++ js " pts max)" |};
        {| type := t_clinch_possible;
           message := leading ++ js " peut gagner après " ++ SPORT_LABELS s
                        ++ js " avec un " ++ score ++ js " ou mieux" |} ].
Proof.
  intros _ Hr Hst Hrem Hg.
  destruct (engine_in_progress tt bd sq tn a b r Hr Hst)
    as (s & Hs & _ & HpA & HpB & _ & _ & _ & _ & Hk & Hcap & Heq).
  exists s. split; [exact Hs|].
  rewrite HpA, HpB in *.
  set (D := currentDelta r) in *. set (k := sportsRemaining r) in *.
  cbv zeta. rewrite Heq at 1.
  unfold scenarios.
  destruct (Z.eqb_spec k 1); [lia|]. destruct (Z.eqb_spec k 2); [lia|].
  unfold analyzeMultipleSportsRemaining, MAX_POINTS_PER_SET. cbv zeta.
  destruct (Z.gtb_spec D 0) as [Hpos|Hneg].
  - replace (Z.abs D) with D in * by lia.
    destruct (Z.leb_spec ((k - 1) * 21 - D + 1) 21); [|lia].
    destruct (Z.leb_spec ((k - 1) * 21 + D + 1) 21); [lia|].
    destruct (Z.gtb_spec ((k - 1) * 21 - D + 1) 21); [lia|]. cbn [andb].
    destruct (Z.ltb_spec ((k - 1) * 21 - D + 1) 0).
    + rewrite calculateScoreForGain_out_of_range by lia. reflexivity.
    + rewrite (calculateScoreForGain_in_range ((k - 1) * 21 - D + 1) false) by lia. reflexivity.
  - assert (HD : Z.abs D = - D) by lia. rewrite HD in *.
    replace ((k - 1) * 21 - - D + 1) with ((k - 1) * 21 + D + 1) in * by lia.
    destruct (Z.leb_spec ((k - 1) * 21 - D + 1) 21); [lia|].
    destruct (Z.leb_spec ((k - 1) * 21 + D + 1) 21); [|lia].
    destruct (Z.gtb_spec ((k - 1) * 21 - D + 1) 21); [|lia].
    destruct (Z.gtb_spec ((k - 1) * 21 + D + 1) 21); [lia|]. cbn [andb].
    destruct (Z.ltb_spec ((k - 1) * 21 + D + 1) 0).
    + rewrite calculateScoreForGain_out_of_range by lia. reflexivity.
    + rewrite (calculateScoreForGain_in_range ((k - 1) * 21 + D + 1) true) by lia. reflexivity.
Qed.

Lemma clinch_possible_after_next_sport_witness :
  exists r,
    analyzeMatch (input (Some (js "50-0")) None None None) None None = Return r /\
    analysis r =
      [ {| type := t_leader;
           message := js "Joueur A mène de 50 points (50-0)" |};
        {| type := t_info; message := js "3 sports restants (63 pts max)" |};
        {| type := t_clinch_possible;
           message :=
             js "Joueur A peut gagner après Badminton avec un null ou mieux" |} ].
Proof.
  eexists. split; [vm_compute; reflexivity|].
  match goal with
  | |- analysis ?r = _ =>
      destruct (clinch_possible_after_next_sport
                  (Some (js "50-0")) None None None None None r)
        as (s & Hs & Han);
      [ vm_compute; reflexivity | vm_compute; reflexivity | reflexivity
      | cbn [sportsRemaining]; lia
      | cbn [sportsRemaining currentDelta]; lia | ]
  end.
  vm_compute in Hs. injection Hs as <-.
  rewrite Han. vm_compute. reflexivity.
Defined.

(** ** Terminal results *)

(** X8: a result that is not in progress carries exactly one analysis
    entry: the gummiarm entry with both totals, or the winner entry, which
    gives the final score (greater total first) and the margin after four
    sports, and the lead and the points still available when the match is
    decided early.
    Stated for scores and totals of at most [MAX_SAFE_INTEGER]
    ([safeScores]), the range in which the integers of the model are the
    numbers of the code. *)
Theorem terminal_analysis (tt bd sq tn a b : option jsstring) r :
  safeScores (input tt bd sq tn) = true ->
  analyzeMatch (input tt bd sq tn) a b = Return r ->
  status r <> in_progress ->
  analysis r =
    [ match status r with
      | gummiarm =>
          {| type := t_gummiarm;
             message := js "Égalité parfaite " ++ Render.num (totalA r) ++ js "-"
                          ++ Render.num (totalB r)
                          ++ js " ! Direction le Gummiarm 🎾" |}
      | _ =>
          let w := if currentDelta r >? 0 then playerA r else playerB r in
          if sportsPlayed r =? 4 then
            {| type := t_winner;
               message := w ++ js " gagne "
                            ++ Render.num (Z.max (totalA r) (totalB r)) ++ js "-"
                            ++ Render.num (Z.min (totalA r) (totalB r))
                            ++ js " (+" ++ Render.num (Z.abs (currentDelta r))
                            ++ js " pts)" |}
          else
            {| type := t_winner;
               message := w ++ js " a déjà gagné ! Avance de "
                            ++ Render.num (Z.abs (currentDelta r))
                            ++ js " pts, seulement "
                            ++ Render.num (maxRemainingPoints r)
                            ++ js " pts restants possibles." |}
      end ].
Proof.
  intros _ Hr Hst. revert Hr. run_engine.
  set (scores := input tt bd sq tn).
  destruct (Z.eqb_spec (playedCount scores) 4) as [H4|H4].
  - destruct (Z.eqb_spec (pointsA scores - pointsB scores) 0) as [H0|H0];
      intros Hr; injection Hr as <-;
      cbn [analysis status sportsPlayed totalA totalB currentDelta playerA playerB
           maxRemainingPoints app].
    + reflexivity.
    + destruct (Z.eqb_spec (playedCount scores) 4); [reflexivity|contradiction].
  - destruct (Z.gtb_spec (Z.abs (pointsA scores - pointsB scores))
                ((4 - playedCount scores) * 21)) as [Hd|Hd].
    + intros Hr; injection Hr as <-;
      cbn [analysis status sportsPlayed totalA totalB currentDelta playerA playerB
           maxRemainingPoints app].
      destruct (Z.eqb_spec (playedCount scores) 4); [contradiction|reflexivity].
    + intros Hr. exfalso. apply Hst.
      rewrite generate_string in Hr by reflexivity. injection Hr as <-.
      cbv zeta. destruct (nextSport scores).
      * change (status ?x) with (status (frame x)).
        destruct (_ =? 1); [now rewrite frame_analyzeLastSport|].
        destruct (_ =? 2);
          [now rewrite frame_analyzeBeforeTennis
          |now rewrite frame_analyzeMultipleSportsRemaining].
      * reflexivity.
Qed.

Lemma terminal_analysis_witness :
  exists r,
    analyzeMatch
      (input (Some (js "21-19")) (Some (js "19-21")) (Some (js "21-19"))
         (Some (js "19-21"))) None None = Return r /\
    status r = gummiarm /\ winner r = None /\
    analysis r =
      [ {| type := t_gummiarm;
           message := js "Égalité parfaite 80-80 ! Direction le Gummiarm 🎾" |} ].
Proof.
  eexists. split; [vm_compute; reflexivity|].
  split; [reflexivity|]. split; [reflexivity|].
  match goal with
  | |- analysis ?r = _ =>
      rewrite (terminal_analysis
                 (Some (js "21-19")) (Some (js "19-21")) (Some (js "21-19"))
                 (Some (js "19-21")) None None r);
      [ | vm_compute; reflexivity | vm_compute; reflexivity | cbn [status]; discriminate ]
  end.
  vm_compute. reflexivity.
Defined.

(** ** The first entry of an in-progress analysis *)

Lemma scenarios_extend L pA pB d lbl n scores :
  exists rest,
    rest <> [] /\
    analysis (scenarios L pA pB d lbl n scores) = analysis L ++ rest.
Proof.
  unfold scenarios, analyzeLastSport, analyzeBeforeTennis,
    analyzeMultipleSportsRemaining.
  cbv zeta. split_ifs; show_analysis; rewrite <- ?app_assoc; cbn [app];
    eexists; (split; [|reflexivity]); discriminate.
Qed.

(** X9: the analysis of an in-progress match starts with who leads: the
    leading player, the lead and the totals with the leader's first, or,
    on equal totals, the tied entry; at least one scenario entry follows.
    Stated for scores and totals of at most [MAX_SAFE_INTEGER]
    ([safeScores]), the range in which the integers of the model are the
    numbers of the code. *)
Theorem in_progress_starts_with_leader (tt bd sq tn a b : option jsstring) r :
  safeScores (input tt bd sq tn) = true ->
  analyzeMatch (input tt bd sq tn) a b = Return r ->
  status r = in_progress ->
  exists e rest,
    analysis r = e :: rest /\ rest <> [] /\
    (0 < currentDelta r ->
       e = {| type := t_leader;
              message := playerA r ++ js " mène de " ++ Render.num (currentDelta r)
                           ++ js " points (" ++ Render.num (totalA r) ++ js "-"
                           ++ Render.num (totalB r) ++ js ")" |}) /\
    (currentDelta r < 0 ->
       e = {| type := t_leader;
              message := playerB r ++ js " mène de "
                           ++ Render.num (- currentDelta r)
                           ++ js " points (" ++ Render.num (totalB r) ++ js "-"
                           ++ Render.num (totalA r) ++ js ")" |}) /\
    (currentDelta r = 0 ->
       e = {| type := t_tied;
              message := js "Égalité parfaite " ++ Render.num (totalA r) ++ js "-"
                           ++ Render.num (totalB r) |}).
Proof.
  intros _ Hr Hst.
  destruct (engine_in_progress tt bd sq tn a b r Hr Hst)
    as (s & Hs & _ & HpA & HpB & _ & _ & _ & _ & _ & _ & Heq).
  rewrite HpA, HpB.
  set (e := leaderEntry (orDefault a (js "Joueur A")) (orDefault b (js "Joueur B"))
              (currentDelta r) (totalA r) (totalB r)) in *.
  match type of Heq with
  | _ = scenarios ?L ?pA ?pB ?d ?lbl ?n ?sc =>
      destruct (scenarios_extend L pA pB d lbl n sc) as (rest & Hne & Hrest)
  end.
  rewrite <- Heq in Hrest. cbn [analysis baseResult app] in Hrest.
  exists e, rest. split; [exact Hrest|]. split; [exact Hne|].
  subst e. unfold leaderEntry.
  repeat split; intros H.
  - destruct (Z.gtb_spec (currentDelta r) 0); [reflexivity|lia].
  - destruct (Z.gtb_spec (currentDelta r) 0); [lia|].
    destruct (Z.ltb_spec (currentDelta r) 0); [|lia].
    replace (Z.abs (currentDelta r)) with (- currentDelta r) by lia. reflexivity.
  - rewrite H. reflexivity.
Qed.

Lemma in_progress_starts_with_leader_witness :
  exists r,
    analyzeMatch (input None (Some (js "11-21")) None None) None None = Return r /\
    hd_error (analysis r)
      = Some {| type := t_leader;
                message := js "Joueur B mène de 10 points (21-11)" |}.
Proof.
  eexists. split; [vm_compute; reflexivity|].
  match goal with
  | |- hd_error (analysis ?r) = _ =>
      destruct (in_progress_starts_with_leader
                  None (Some (js "11-21")) None None None None r)
        as (e & rest & Han & _ & _ & HB & _);
      [ vm_compute; reflexivity | vm_compute; reflexivity | reflexivity | ]
  end.
  rewrite Han. cbn [hd_error].
  rewrite HB by (cbn [currentDelta]; lia). vm_compute. reflexivity.
Defined.

(** ** The per-sport breakdown *)

Lemma sumZ_cons x l : sumZ (x :: l) = x + sumZ l.
Proof. reflexivity. Qed.

Lemma sumDelta_list scores (l : list Sport) :
  sumDelta (map (fun s => (s, sportEntry scores s)) l)
    = sumZ (map (ptsA scores) (filter (isPlayed scores) l))
      - sumZ (map (ptsB scores) (filter (isPlayed scores) l)).
Proof.
  unfold sumDelta.
  induction l as [|s l IH]; [reflexivity|].
  cbn [map filter snd]. rewrite sumZ_cons, IH.
  assert (Hd : delta (sportEntry scores s)
               = if isPlayed scores s then ptsA scores s - ptsB scores s else 0).
  { unfold sportEntry, isPlayed, ptsA, ptsB. cbn [delta].
    destruct (parsed (scores s)); reflexivity. }
  rewrite Hd. destruct (isPlayed scores s); cbn [map]; rewrite ?sumZ_cons; lia.
Qed.

(** X10: in every result the margin [currentDelta] is the sum of the
    per-sport margins of the breakdown, and each entry of the breakdown is
    consistent: the four sports in play order, each with its label; a
    played entry has both scores, non-negative, and their difference as
    margin; an unplayed entry has no score and margin 0.
    Stated for scores and totals of at most [MAX_SAFE_INTEGER]
    ([safeScores]), the range in which the integers of the model are the
    numbers of the code. *)
Theorem breakdown_consistent (tt bd sq tn a b : option jsstring) :
  safeScores (input tt bd sq tn) = true ->
  exists r,
    analyzeMatch (input tt bd sq tn) a b = Return r /\
    map fst (sports r) = SPORTS /\
    currentDelta r = sumDelta (sports r) /\
    forall s, exists sr,
      getProp (sports r) s = Some sr /\
      label sr = SPORT_LABELS s /\
      (if played sr then
         exists x y, scoreA sr = Some x /\ scoreB sr = Some y /\
                     0 <= x /\ 0 <= y /\ delta sr = x - y
       else scoreA sr = None /\ scoreB sr = None /\ delta sr = 0).
Proof.
  intros _.
  destruct (engine_cases tt bd sq tn a b) as (r & Hr & Hc).
  exists r. split; [exact Hr|].
  apply engine_frame in Hc. destruct Hc as (st & w & Hf).
  set (scores := input tt bd sq tn) in *.
  change (sports r) with (sports (frame r)).
  change (currentDelta r) with (currentDelta (frame r)).
  rewrite Hf. cbn [sports currentDelta baseResult].
  split; [reflexivity|]. split.
  - unfold sportsOf. rewrite sumDelta_list. reflexivity.
  - intros s. exists (sportEntry scores s). split; [destruct s; reflexivity|].
    split; [reflexivity|].
    unfold sportEntry, isPlayed. cbn [played scoreA scoreB delta].
    destruct (parsed (scores s)) as [[x y]|] eqn:E; [|auto].
    destruct (parsed_nonneg _ _ _ E). exists x, y. cbn. auto.
Qed.

Lemma breakdown_consistent_witness :
  exists r,
    analyzeMatch (input (Some (js "21-15")) (Some (js "11-21")) None None)
      None None = Return r /\
    currentDelta r = sumDelta (sports r) /\
    option_map delta (getProp (sports r) badminton) = Some (-10) /\
    option_map delta (getProp (sports r) tennis) = Some 0.
Proof.
  destruct (breakdown_consistent
              (Some (js "21-15")) (Some (js "11-21")) None None None None)
    as (r & Hr & _ & Hd & _); [vm_compute; reflexivity|].
  exists r. split; [exact Hr|]. split; [exact Hd|].
  vm_compute in Hr. injection Hr as <-. split; reflexivity.
Defined.

(** ** Totals, sport by sport *)

Lemma pts_unplayed scores s :
  isPlayed scores s = false -> ptsA scores s = 0 /\ ptsB scores s = 0.
Proof.
  unfold isPlayed, ptsA, ptsB. destruct (parsed (scores s)); [discriminate|auto].
Qed.

Lemma pts_parsed scores s x y :
  parsed (scores s) = Some (x, y) ->
  isPlayed scores s = true /\ ptsA scores s = x /\ ptsB scores s = y.
Proof. unfold isPlayed, ptsA, ptsB. intros ->. auto. Qed.

Lemma pts_same scores scores' s :
  parsed (scores' s) = parsed (scores s) ->
  isPlayed scores' s = isPlayed scores s /\
  ptsA scores' s = ptsA scores s /\ ptsB scores' s = ptsB scores s.
Proof. unfold isPlayed, ptsA, ptsB. intros ->. auto. Qed.

Lemma totals_by_sport scores :
  pointsA scores = ptsA scores tabletennis + ptsA scores badminton
                   + ptsA scores squash + ptsA scores tennis /\
  pointsB scores = ptsB scores tabletennis + ptsB scores badminton
                   + ptsB scores squash + ptsB scores tennis /\
  playedCount scores
    = (if isPlayed scores tabletennis then 1 else 0)
      + (if isPlayed scores badminton then 1 else 0)
      + (if isPlayed scores squash then 1 else 0)
      + (if isPlayed scores tennis then 1 else 0).
Proof.
  unfold pointsA, pointsB, playedCount, playedSports, SPORTS. cbn [filter].
  destruct (isPlayed scores tabletennis) eqn:E1;
  destruct (isPlayed scores badminton) eqn:E2;
  destruct (isPlayed scores squash) eqn:E3;
  destruct (isPlayed scores tennis) eqn:E4;
  cbn [map List.length]; rewrite ?sumZ_cons; change (sumZ []) with 0;
  repeat match goal with
         | H : isPlayed scores ?s = false |- _ =>
             destruct (pts_unplayed scores s H) as [-> ->]; clear H
         end;
  repeat split; lia.
Qed.

(** Status, winner and aggregates as functions of the input. *)
Lemma engine_outcome (tt bd sq tn a b : option jsstring) :
  let scores := input tt bd sq tn in
  let pA := orDefault a (js "Joueur A") in
  let pB := orDefault b (js "Joueur B") in
  let n := playedCount scores in
  let d := pointsA scores - pointsB scores in
  exists r,
    analyzeMatch scores a b = Return r /\
    playerA r = pA /\ playerB r = pB /\
    sportsPlayed r = n /\ sportsRemaining r = 4 - n /\ currentDelta r = d /\
    status r = verdict n d /\
    winner r = match verdict n d with
               | finished => Some (if d >? 0 then pA else pB)
               | _ => None
               end.
Proof.
  intros scores pA pB n d.
  destruct (engine_cases tt bd sq tn a b) as (r & Hr & Hc).
  exists r. split; [exact Hr|].
  fold scores pA pB in Hc. unfold verdict.
  pose proof (playedCount_range scores) as Hn. fold n in Hn.
  destruct Hc as [m H4 Hd|m H4 Hd|m H4 Hd|s H4 Hd Hs Hp];
    fold n in H4; fold d in Hd.
  1-3: cbn [playerA playerB sportsPlayed sportsRemaining currentDelta status
            winner baseResult]; fold n d.
  - destruct (Z.eqb_spec n 4); [|lia]. destruct (Z.eqb_spec d 0); [|lia].
    repeat split.
  - destruct (Z.eqb_spec n 4); [|lia]. destruct (Z.eqb_spec d 0); [lia|].
    repeat split.
  - destruct (Z.eqb_spec n 4); [lia|].
    destruct (Z.gtb_spec (Z.abs d) ((4 - n) * 21)); [|lia]. repeat split.
  - change (playerA ?x) with (playerA (frame x)).
    change (playerB ?x) with (playerB (frame x)).
    change (sportsPlayed ?x) with (sportsPlayed (frame x)).
    change (sportsRemaining ?x) with (sportsRemaining (frame x)).
    change (currentDelta ?x) with (currentDelta (frame x)).
    change (status ?x) with (status (frame x)).
    change (winner ?x) with (winner (frame x)).
    rewrite frame_scenarios.
    cbn [playerA playerB sportsPlayed sportsRemaining currentDelta status
         winner baseResult frame set_analysis]; fold n d.
    destruct (Z.eqb_spec n 4); [lia|].
    destruct (Z.gtb_spec (Z.abs d) ((4 - n) * 21)); [lia|]. repeat split.
Qed.

(** ** Scores within the 21 points of a set *)

Lemma capped_sport scores s :
  capped scores ->
  (0 <= ptsA scores s <= 21 /\ 0 <= ptsB scores s <= 21) /\
  (isPlayed scores s = false -> ptsA scores s = 0 /\ ptsB scores s = 0).
Proof.
  intros Hc. split; [|apply pts_unplayed].
  unfold ptsA, ptsB. destruct (parsed (scores s)) as [[x y]|] eqn:E; [|lia].
  destruct (Hc s x y E). destruct (parsed_nonneg _ _ _ E). cbn. lia.
Qed.

Lemma capped_lead scores :
  capped scores ->
  Z.abs (pointsA scores - pointsB scores) <= 21 * playedCount scores.
Proof.
  intros Hc.
  destruct (totals_by_sport scores) as (-> & -> & ->).
  destruct (capped_sport scores tabletennis Hc) as [B1 U1].
  destruct (capped_sport scores badminton Hc) as [B2 U2].
  destruct (capped_sport scores squash Hc) as [B3 U3].
  destruct (capped_sport scores tennis Hc) as [B4 U4].
  destruct (isPlayed scores tabletennis); [|destruct (U1 eq_refl)];
  (destruct (isPlayed scores badminton); [|destruct (U2 eq_refl)]);
  (destruct (isPlayed scores squash); [|destruct (U3 eq_refl)]);
  (destruct (isPlayed scores tennis); [|destruct (U4 eq_refl)]); lia.
Qed.

(** X11: with every score within 21, a match is never decided before the
    third sport: a finished result has at least three sports played. *)
Theorem capped_finish_needs_three_sports (tt bd sq tn a b : option jsstring) r :
  capped (input tt bd sq tn) ->
  analyzeMatch (input tt bd sq tn) a b = Return r ->
  status r = finished ->
  3 <= sportsPlayed r.
Proof.
  intros Hc Hr Hst.
  destruct (engine_outcome tt bd sq tn a b)
    as (r' & Hr' & _ & _ & Hn & _ & _ & Hv & _).
  rewrite Hr in Hr'. injection Hr' as <-.
  pose proof (capped_lead _ Hc) as Hl.
  pose proof (playedCount_range (input tt bd sq tn)) as Hrange.
  rewrite Hn. rewrite Hv in Hst. unfold verdict in Hst.
  destruct (Z.eqb_spec (playedCount (input tt bd sq tn)) 4); [lia|].
  destruct (Z.gtb_spec
              (Z.abs (pointsA (input tt bd sq tn) - pointsB (input tt bd sq tn)))
              ((4 - playedCount (input tt bd sq tn)) * 21));
    [lia|discriminate].
Qed.

Lemma capped_example :
  capped (input (Some (js "21-0")) (Some (js "21-0")) (Some (js "21-0")) None).
Proof.
  intros s x y. destruct s; vm_compute; intros H; try discriminate;
    injection H as <- <-; split; discriminate.
Qed.

Lemma capped_finish_needs_three_sports_witness :
  exists r,
    analyzeMatch
      (input (Some (js "21-0")) (Some (js "21-0")) (Some (js "21-0")) None)
      None None = Return r /\
    status r = finished /\ 3 <= sportsPlayed r.
Proof.
  eexists. split; [vm_compute; reflexivity|]. split; [reflexivity|].
  match goal with
  | |- 3 <= sportsPlayed ?r =>
      apply (capped_finish_needs_three_sports
               (Some (js "21-0")) (Some (js "21-0")) (Some (js "21-0")) None
               None None r);
      [ exact capped_example | vm_compute; reflexivity | reflexivity ]
  end.
Defined.

(** X12: with every score within 21 and three or more sports remaining,
    nobody can clinch in the next sport: the analysis is always the leader
    or tied entry, the count of remaining sports and the message that the
    match continues; no clinch-possible entry is emitted. *)
Theorem capped_no_clinch_possible (tt bd sq tn a b : option jsstring) r :
  capped (input tt bd sq tn) ->
  analyzeMatch (input tt bd sq tn) a b = Return r ->
  3 <= sportsRemaining r ->
  exists s,
    nextSport (input tt bd sq tn) = Some s /\
    status r = in_progress /\
    analysis r =
      [ leaderEntry (playerA r) (playerB r) (currentDelta r) (totalA r) (totalB r);
        {| type := t_info;
           message := Render.num (sportsRemaining r) ++ js " sports restants ("
                        ++ Render.num ((sportsRemaining r - 1) * 21 + 21)
                        ++ js " pts max)" |};
        {| type := t_info;
           message := js "Aucun ne peut gagner après " ++ SPORT_LABELS s
                        ++ js " seul, le match continue" |} ].
Proof.
  intros Hc Hr Hrem.
  destruct (engine_outcome tt bd sq tn a b)
    as (r' & Hr' & _ & _ & Hn & Hk & Hd & Hv & _).
  rewrite Hr in Hr'. injection Hr' as <-.
  pose proof (capped_lead _ Hc) as Hl.
  pose proof (playedCount_range (input tt bd sq tn)) as Hrange.
  assert (Hst : status r = in_progress).
  { rewrite Hv. unfold verdict.
    destruct (Z.eqb_spec (playedCount (input tt bd sq tn)) 4); [lia|].
    destruct (Z.gtb_spec
                (Z.abs (pointsA (input tt bd sq tn) - pointsB (input tt bd sq tn)))
                ((4 - playedCount (input tt bd sq tn)) * 21));
      [lia|reflexivity]. }
  destruct (engine_in_progress tt bd sq tn a b r Hr Hst)
    as (s & Hs & _ & HpA & HpB & _ & _ & _ & _ & _ & _ & Heq).
  exists s. split; [exact Hs|]. split; [exact Hst|].
  rewrite HpA, HpB in *. rewrite <- Hd, <- Hn in Hl.
  set (D := currentDelta r) in *. set (k := sportsRemaining r) in *.
  rewrite Heq at 1.
  unfold scenarios.
  destruct (Z.eqb_spec k 1); [lia|]. destruct (Z.eqb_spec k 2); [lia|].
  unfold analyzeMultipleSportsRemaining, MAX_POINTS_PER_SET. cbv zeta.
  destruct (Z.leb_spec ((k - 1) * 21 - D + 1) 21); [lia|].
  destruct (Z.leb_spec ((k - 1) * 21 + D + 1) 21); [lia|].
  destruct (Z.gtb_spec ((k - 1) * 21 - D + 1) 21); [|lia].
  destruct (Z.gtb_spec ((k - 1) * 21 + D + 1) 21); [|lia].
  reflexivity.
Qed.

Lemma capped_no_clinch_possible_witness :
  exists r,
    analyzeMatch (input (Some (js "21-0")) None None None) None None = Return r /\
    List.length (analysis r) = 3%nat.
Proof.
  eexists. split; [vm_compute; reflexivity|].
  match goal with
  | |- List.length (analysis ?r) = _ =>
      destruct (capped_no_clinch_possible
                  (Some (js "21-0")) None None None None None r)
        as (s & _ & _ & Han);
      [ intros s x y; destruct s; vm_compute; intros H;
        try discriminate; injection H as <- <-; split; discriminate
      | vm_compute; reflexivity | cbn [sportsRemaining]; lia | ]
  end.
  rewrite Han. reflexivity.
Defined.

(** ** What the remaining sports can still change *)

Lemma completion_sport scores scores' s :
  (isPlayed scores s = true -> parsed (scores' s) = parsed (scores s)) ->
  (isPlayed scores s = false ->
     exists x y, parsed (scores' s) = Some (x, y) /\ x <= 21 /\ y <= 21) ->
  isPlayed scores' s = true /\
  (if isPlayed scores s
   then ptsA scores' s - ptsB scores' s = ptsA scores s - ptsB scores s
   else -21 <= ptsA scores' s - ptsB scores' s <= 21
        /\ ptsA scores s = 0 /\ ptsB scores s = 0).
Proof.
  intros Hp Hu. destruct (isPlayed scores s) eqn:E.
  - destruct (pts_same scores scores' s (Hp eq_refl)) as (-> & -> & ->). auto.
  - destruct (Hu eq_refl) as (x & y & Hxy & Hx & Hy).
    destruct (parsed_nonneg _ _ _ Hxy).
    destruct (pts_parsed scores' s x y Hxy) as (-> & -> & ->).
    destruct (pts_unplayed scores s E) as [-> ->]. repeat split; lia.
Qed.

(** X13: a match declared finished stays won by the same player however
    the sports not yet played end, as long as each of them stays within 21
    points a side.
    Stated for scores and totals of at most [MAX_SAFE_INTEGER]
    ([safeScores]), before and after the remaining sports are played: the
    range in which the integers of the model are the numbers of the code. *)
Theorem early_finish_is_final
    (tt bd sq tn tt' bd' sq' tn' a b : option jsstring) r :
  safeScores (input tt bd sq tn) = true ->
  safeScores (input tt' bd' sq' tn') = true ->
  analyzeMatch (input tt bd sq tn) a b = Return r ->
  status r = finished ->
  (forall s, isPlayed (input tt bd sq tn) s = true ->
             parsed (input tt' bd' sq' tn' s) = parsed (input tt bd sq tn s)) ->
  (forall s, isPlayed (input tt bd sq tn) s = false ->
             exists x y, parsed (input tt' bd' sq' tn' s) = Some (x, y)
                         /\ x <= 21 /\ y <= 21) ->
  exists r',
    analyzeMatch (input tt' bd' sq' tn') a b = Return r' /\
    sportsPlayed r' = 4 /\ status r' = finished /\ winner r' = winner r.
Proof.
  intros _ _ Hr Hst Hp Hu.
  destruct (engine_outcome tt bd sq tn a b)
    as (r0 & Hr0 & _ & _ & _ & _ & _ & Hv & Hw).
  rewrite Hr in Hr0. injection Hr0 as <-.
  destruct (engine_outcome tt' bd' sq' tn' a b)
    as (r' & Hr' & _ & _ & Hn' & _ & _ & Hv' & Hw').
  exists r'. split; [exact Hr'|].
  set (S := input tt bd sq tn) in *. set (S' := input tt' bd' sq' tn') in *.
  pose proof (completion_sport S S' tabletennis (Hp _) (Hu _)) as [P1 F1].
  pose proof (completion_sport S S' badminton (Hp _) (Hu _)) as [P2 F2].
  pose proof (completion_sport S S' squash (Hp _) (Hu _)) as [P3 F3].
  pose proof (completion_sport S S' tennis (Hp _) (Hu _)) as [P4 F4].
  destruct (totals_by_sport S) as (TA & TB & TN).
  destruct (totals_by_sport S') as (TA' & TB' & TN').
  rewrite P1, P2, P3, P4 in TN'.
  rewrite Hv in Hst. rewrite Hn', Hv', Hw', Hw.
  clear Hv Hw Hv' Hw' Hr Hr' Hn' Hp Hu P1 P2 P3 P4.
  set (d := pointsA S - pointsB S) in *.
  set (d' := pointsA S' - pointsB S') in *.
  assert (Hbound : Z.abs (d' - d) <= 21 * (4 - playedCount S)).
  { subst d d'. rewrite TA, TB, TA', TB', TN.
    destruct (isPlayed S tabletennis), (isPlayed S badminton),
      (isPlayed S squash), (isPlayed S tennis); lia. }
  rewrite TN'. unfold verdict in *. cbn [Z.eqb Pos.eqb Z.add Pos.add] in *.
  destruct (Z.eqb_spec (playedCount S) 4) as [E4|E4].
  - destruct (Z.eqb_spec d 0); [discriminate|].
    destruct (Z.eqb_spec d' 0); [lia|].
    repeat split.
    destruct (Z.gtb_spec d 0), (Z.gtb_spec d' 0); auto; lia.
  - destruct (Z.gtb_spec (Z.abs d) ((4 - playedCount S) * 21)); [|discriminate].
    destruct (Z.eqb_spec d' 0); [lia|].
    repeat split.
    destruct (Z.gtb_spec d 0), (Z.gtb_spec d' 0); auto; lia.
Qed.

Lemma early_finish_is_final_witness :
  exists r r',
    analyzeMatch
      (input (Some (js "21-0")) (Some (js "21-0")) (Some (js "21-1")) None)
      None None = Return r /\
    analyzeMatch
      (input (Some (js "21-0")) (Some (js "21-0")) (Some (js "21-1"))
         (Some (js "0-21")))
      None None = Return r' /\
    status r = finished /\ status r' = finished /\ winner r' = winner r.
Proof.
  eexists.
  match goal with
  | |- exists r', ?A = Return ?r /\ _ =>
      assert (Hr : A = Return r) by (vm_compute; reflexivity);
      destruct (early_finish_is_final
                  (Some (js "21-0")) (Some (js "21-0")) (Some (js "21-1")) None
                  (Some (js "21-0")) (Some (js "21-0")) (Some (js "21-1"))
                  (Some (js "0-21")) None None r eq_refl eq_refl Hr)
        as (r' & Hr' & _ & Hst' & Hw)
  end.
  - reflexivity.
  - clear Hr. intros s; destruct s; vm_compute; intros H;
      first [discriminate H|reflexivity].
  - clear Hr. intros s; destruct s; intros H; vm_compute in H;
      first [discriminate H|exists 0, 21; split; [reflexivity|lia]].
  - exists r'. repeat split; assumption.
Defined.

Lemma parsed_fill v o :
  parsed (ofOpt (fill v o))
    = match parsed (ofOpt o) with
      | Some p => Some p
      | None => parsed (VStr v)
      end.
Proof. unfold fill. destruct (parsed (ofOpt o)) eqn:E; [exact E|reflexivity]. Qed.

Lemma completed_sport v x y tt bd sq tn s :
  parsed (VStr v) = Some (x, y) ->
  isPlayed (completed v tt bd sq tn) s = true /\
  (if isPlayed (input tt bd sq tn) s
   then ptsA (completed v tt bd sq tn) s = ptsA (input tt bd sq tn) s /\
        ptsB (completed v tt bd sq tn) s = ptsB (input tt bd sq tn) s
   else ptsA (completed v tt bd sq tn) s = x /\
        ptsB (completed v tt bd sq tn) s = y /\
        ptsA (input tt bd sq tn) s = 0 /\ ptsB (input tt bd sq tn) s = 0).
Proof.
  intros Hv. unfold isPlayed, ptsA, ptsB, completed, input.
  destruct s; cbn [mkScores]; rewrite parsed_fill, Hv;
    match goal with
    | |- context [parsed (ofOpt ?o)] => destruct (parsed (ofOpt o)) as [[? ?]|]
    end; cbn; auto.
Qed.

Lemma completed_totals v x y tt bd sq tn :
  parsed (VStr v) = Some (x, y) ->
  playedCount (completed v tt bd sq tn) = 4 /\
  pointsA (completed v tt bd sq tn)
    = pointsA (input tt bd sq tn) + (4 - playedCount (input tt bd sq tn)) * x /\
  pointsB (completed v tt bd sq tn)
    = pointsB (input tt bd sq tn) + (4 - playedCount (input tt bd sq tn)) * y.
Proof.
  intros Hv.
  destruct (completed_sport v x y tt bd sq tn tabletennis Hv) as [P1 F1].
  destruct (completed_sport v x y tt bd sq tn badminton Hv) as [P2 F2].
  destruct (completed_sport v x y tt bd sq tn squash Hv) as [P3 F3].
  destruct (completed_sport v x y tt bd sq tn tennis Hv) as [P4 F4].
  destruct (totals_by_sport (input tt bd sq tn)) as (-> & -> & ->).
  destruct (totals_by_sport (completed v tt bd sq tn)) as (-> & -> & ->).
  rewrite P1, P2, P3, P4.
  destruct (isPlayed (input tt bd sq tn) tabletennis),
    (isPlayed (input tt bd sq tn) badminton),
    (isPlayed (input tt bd sq tn) squash),
    (isPlayed (input tt bd sq tn) tennis); lia.
Qed.

(** X14: a match in progress is still open for both players: if one of
    them takes every sport not yet played 21-0, the result is a win for
    that player or at least the gummiarm.
    Stated for scores and totals of at most [MAX_SAFE_INTEGER]
    ([safeScores]), before and after the remaining sports are played: the
    range in which the integers of the model are the numbers of the code. *)
Theorem in_progress_is_open (tt bd sq tn a b : option jsstring) r :
  safeScores (input tt bd sq tn) = true ->
  safeScores (completed (js "21-0") tt bd sq tn) = true ->
  safeScores (completed (js "0-21") tt bd sq tn) = true ->
  analyzeMatch (input tt bd sq tn) a b = Return r ->
  status r = in_progress ->
  (exists rA,
      analyzeMatch (completed (js "21-0") tt bd sq tn) a b = Return rA /\
      (status rA = gummiarm \/
       status rA = finished /\ winner rA = Some (playerA r))) /\
  (exists rB,
      analyzeMatch (completed (js "0-21") tt bd sq tn) a b = Return rB /\
      (status rB = gummiarm \/
       status rB = finished /\ winner rB = Some (playerB r))).
Proof.
  intros _ _ _ Hr Hst.
  destruct (engine_outcome tt bd sq tn a b)
    as (r0 & Hr0 & HpA & HpB & _ & _ & _ & Hv & _).
  rewrite Hr in Hr0. injection Hr0 as <-.
  rewrite HpA, HpB. rewrite Hv in Hst. clear Hv Hr HpA HpB.
  pose proof (playedCount_range (input tt bd sq tn)) as Hn.
  unfold verdict in Hst.
  destruct (Z.eqb_spec (playedCount (input tt bd sq tn)) 4) as [|N4];
    [destruct (_ =? 0); discriminate|].
  destruct (Z.gtb_spec
              (Z.abs (pointsA (input tt bd sq tn) - pointsB (input tt bd sq tn)))
              ((4 - playedCount (input tt bd sq tn)) * 21)) as [|Hd];
    [discriminate|].
  split.
  - destruct (completed_totals (js "21-0") 21 0 tt bd sq tn eq_refl)
      as (Cn & CA & CB).
    unfold completed in *.
    destruct (engine_outcome (fill (js "21-0") tt) (fill (js "21-0") bd)
                (fill (js "21-0") sq) (fill (js "21-0") tn) a b)
      as (rA & HrA & _ & _ & _ & _ & _ & Hv & Hw).
    exists rA. split; [exact HrA|]. rewrite Hv, Hw, Cn, CA, CB.
    unfold verdict. cbn [Z.eqb Pos.eqb].
    match goal with
    | |- context [Z.eqb ?d 0] => destruct (Z.eqb_spec d 0); [left; reflexivity|right]
    end.
    split; [reflexivity|].
    match goal with
    | |- context [Z.gtb ?d 0] => destruct (Z.gtb_spec d 0); [reflexivity|lia]
    end.
  - destruct (completed_totals (js "0-21") 0 21 tt bd sq tn eq_refl)
      as (Cn & CA & CB).
    unfold completed in *.
    destruct (engine_outcome (fill (js "0-21") tt) (fill (js "0-21") bd)
                (fill (js "0-21") sq) (fill (js "0-21") tn) a b)
      as (rB & HrB & _ & _ & _ & _ & _ & Hv & Hw).
    exists rB. split; [exact HrB|]. rewrite Hv, Hw, Cn, CA, CB.
    unfold verdict. cbn [Z.eqb Pos.eqb].
    match goal with
    | |- context [Z.eqb ?d 0] => destruct (Z.eqb_spec d 0); [left; reflexivity|right]
    end.
    split; [reflexivity|].
    match goal with
    | |- context [Z.gtb ?d 0] => destruct (Z.gtb_spec d 0); [lia|reflexivity]
    end.
Qed.

Lemma in_progress_is_open_witness :
  exists r rB,
    analyzeMatch
      (input (Some (js "21-0")) (Some (js "21-0")) None None) None None
      = Return r /\
    status r = in_progress /\
    analyzeMatch
      (completed (js "0-21") (Some (js "21-0")) (Some (js "21-0")) None None)
      None None = Return rB /\
    status rB = gummiarm.
Proof.
  eexists.
  match goal with
  | |- exists rB, ?A = Return ?r /\ _ =>
      assert (Hr : A = Return r) by (vm_compute; reflexivity);
      destruct (in_progress_is_open
                  (Some (js "21-0")) (Some (js "21-0")) None None None None r eq_refl eq_refl eq_refl Hr)
        as (_ & rB & HrB & _); [reflexivity|]
  end.
  exists rB. split; [exact Hr|]. split; [reflexivity|]. split; [exact HrB|].
  vm_compute in HrB. injection HrB as <-. reflexivity.
Defined.

(** X15: the thresholds announced before the last sport are the right
    ones.  With one sport left and a lead of [d > 0], let the trailing
    player take the last sport 21 to [z]: the trailing player wins the
    match when [z <= 21 - d - 1], the match goes to the gummiarm when
    [z = 21 - d], and the leading player wins when [z >= 21 - d + 1].
    Stated for scores and totals of at most [MAX_SAFE_INTEGER]
    ([safeScores]), before and after the remaining sports are played: the
    range in which the integers of the model are the numbers of the code. *)
Theorem last_sport_thresholds (tt bd sq tn a b : option jsstring) r (z : Z) :
  safeScores (input tt bd sq tn) = true ->
  analyzeMatch (input tt bd sq tn) a b = Return r ->
  status r = in_progress ->
  sportsRemaining r = 1 ->
  currentDelta r <> 0 ->
  0 <= z <= 21 ->
  let d := Z.abs (currentDelta r) in
  let leading := if currentDelta r >? 0 then playerA r else playerB r in
  let trailing := if currentDelta r >? 0 then playerB r else playerA r in
  let v := if currentDelta r >? 0
           then Render.num z ++ js "-" ++ Render.num 21
           else Render.num 21 ++ js "-" ++ Render.num z in
  safeScores (completed v tt bd sq tn) = true ->
  exists r',
    analyzeMatch (completed v tt bd sq tn) a b = Return r' /\
    sportsPlayed r' = 4 /\
    (z <= 21 - d - 1 -> status r' = finished /\ winner r' = Some trailing) /\
    (z = 21 - d -> status r' = gummiarm /\ winner r' = None) /\
    (21 - d + 1 <= z -> status r' = finished /\ winner r' = Some leading).
Proof.
  intros _ Hr Hst Hrem Hd0 Hz d leading trailing v _.
  destruct (engine_outcome tt bd sq tn a b)
    as (r0 & Hr0 & HpA & HpB & _ & Hk & HD & _ & _).
  rewrite Hr in Hr0. injection Hr0 as <-.
  assert (Hv : parsed (VStr v)
               = Some (if currentDelta r >? 0 then (z, 21) else (21, z))).
  { unfold parsed, v. destruct (currentDelta r >? 0);
      rewrite parse_rendered by lia; reflexivity. }
  set (p := if currentDelta r >? 0 then (z, 21) else (21, z)) in *.
  assert (Hp : parsed (VStr v) = Some (fst p, snd p))
    by (rewrite Hv; destruct p; reflexivity).
  destruct (completed_totals v (fst p) (snd p) tt bd sq tn Hp) as (Cn & CA & CB).
  subst p.
  unfold completed in *.
  destruct (engine_outcome (fill v tt) (fill v bd) (fill v sq) (fill v tn) a b)
    as (r' & Hr' & _ & _ & Hn' & _ & _ & Hv' & Hw').
  exists r'. split; [exact Hr'|].
  rewrite Hn', Hv', Hw', Cn, CA, CB. split; [reflexivity|].
  rewrite Hrem in Hk. rewrite <- Hk.
  subst leading trailing d. rewrite HpA, HpB. rewrite HD in *.
  set (D := pointsA (input tt bd sq tn) - pointsB (input tt bd sq tn)) in *.
  unfold verdict. cbn [Z.eqb Pos.eqb].
  destruct (Z.gtb_spec D 0) as [Hpos|Hneg]; cbn [fst snd].
  - replace (pointsA (input tt bd sq tn) + 1 * z
             - (pointsB (input tt bd sq tn) + 1 * 21)) with (D + z - 21)
      by (subst D; lia).
    replace (Z.abs D) with D by lia.
    split; [intros Hc|split; intros Hc].
    all: destruct (Z.eqb_spec (D + z - 21) 0); try lia;
      try (split; reflexivity).
    all: destruct (Z.gtb_spec (D + z - 21) 0); try lia; split; reflexivity.
  - replace (pointsA (input tt bd sq tn) + 1 * 21
             - (pointsB (input tt bd sq tn) + 1 * z)) with (D + 21 - z)
      by (subst D; lia).
    replace (Z.abs D) with (- D) by lia.
    split; [intros Hc|split; intros Hc].
    all: destruct (Z.eqb_spec (D + 21 - z) 0); try lia;
      try (split; reflexivity).
    all: destruct (Z.gtb_spec (D + 21 - z) 0); try lia; split; reflexivity.
Qed.

Lemma last_sport_thresholds_witness :
  exists r r',
    analyzeMatch
      (input (Some (js "21-15")) (Some (js "21-15")) (Some (js "21-15")) None)
      None None = Return r /\
    currentDelta r = 18 /\
    analyzeMatch
      (completed (Render.num 3 ++ js "-" ++ Render.num 21)
         (Some (js "21-15")) (Some (js "21-15")) (Some (js "21-15")) None)
      None None = Return r' /\
    status r' = gummiarm.
Proof.
  eexists.
  match goal with
  | |- exists r', ?A = Return ?r /\ _ =>
      assert (Hr : A = Return r) by (vm_compute; reflexivity);
      destruct (last_sport_thresholds
                  (Some (js "21-15")) (Some (js "21-15")) (Some (js "21-15")) None
                  None None r 3 eq_refl Hr)
        as (r' & Hr' & _ & _ & Hg & _);
      [ reflexivity | reflexivity | cbn [currentDelta]; lia | lia | vm_compute; reflexivity | ]
  end.
  exists r'. split; [exact Hr|]. split; [reflexivity|].
  split; [exact Hr'|]. apply Hg. reflexivity.
Defined.

Lemma nextSport_unplayed scores s :
  nextSport scores = Some s -> isPlayed scores s = false.
Proof.
  unfold nextSport. intros H. apply find_some in H as [_ H].
  now apply negb_true_iff in H.
Qed.

Lemma playNext_outcome v x y (tt bd sq tn a b : option jsstring) s :
  nextSport (input tt bd sq tn) = Some s ->
  parsed (VStr v) = Some (x, y) ->
  let n := playedCount (input tt bd sq tn) + 1 in
  let d := pointsA (input tt bd sq tn) + x - (pointsB (input tt bd sq tn) + y) in
  exists r,
    analyzeMatch (playNext v tt bd sq tn) a b = Return r /\
    sportsPlayed r = n /\ sportsRemaining r = 4 - n /\ currentDelta r = d /\
    status r = verdict n d /\
    winner r = match verdict n d with
               | finished =>
                   Some (if d >? 0 then orDefault a (js "Joueur A")
                         else orDefault b (js "Joueur B"))
               | _ => None
               end.
Proof.
  intros Hs Hv n d.
  pose proof (nextSport_unplayed _ _ Hs) as Hu.
  destruct (pts_unplayed _ _ Hu) as [UA UB].
  destruct (totals_by_sport (input tt bd sq tn)) as (TA & TB & TN).
  unfold playNext. rewrite Hs.
  destruct s;
    match goal with
    | |- context [analyzeMatch (input ?t1 ?t2 ?t3 ?t4)] =>
        destruct (engine_outcome t1 t2 t3 t4 a b)
          as (r & Hr & _ & _ & Hn & Hk & Hd & Hst & Hw);
        destruct (totals_by_sport (input t1 t2 t3 t4)) as (TA' & TB' & TN');
        exists r; split; [exact Hr|]
    end.
  all: assert (En : playedCount (input tt bd sq tn) + 1 = n) by reflexivity.
  all: assert (Ed : pointsA (input tt bd sq tn) + x
                    - (pointsB (input tt bd sq tn) + y) = d) by reflexivity.
  all: unfold isPlayed, ptsA, ptsB, input in *; cbn [mkScores ofOpt] in *;
    rewrite Hv in *; cbn [fst snd] in *.
  all: match type of Hu with
       | match ?p with _ => _ end = false => destruct p; [discriminate|]
       end.
  all: match type of Hn with
       | _ = ?n' => replace n' with n in * by lia
       end.
  all: match type of Hd with
       | _ = ?d' => replace d' with d in * by lia
       end.
  all: auto.
Qed.

(** X16: the score announced for skipping tennis is the right threshold.
    With two sports left and a lead [d] between 1 and 22, let the leading
    player take the next sport 21 to [z]: when [z <= d - 1] (the announced
    21 to [d - 1], or better) the match is finished with one sport unplayed
    and won by the leading player; when [z >= d] it is still in
    progress.
    Stated for scores and totals of at most [MAX_SAFE_INTEGER]
    ([safeScores]), before and after the remaining sports are played: the
    range in which the integers of the model are the numbers of the code. *)
Theorem skip_tennis_threshold (tt bd sq tn a b : option jsstring) r (z : Z) :
  safeScores (input tt bd sq tn) = true ->
  analyzeMatch (input tt bd sq tn) a b = Return r ->
  status r = in_progress ->
  sportsRemaining r = 2 ->
  1 <= Z.abs (currentDelta r) <= 22 ->
  0 <= z <= 21 ->
  let d := Z.abs (currentDelta r) in
  let leading := if currentDelta r >? 0 then playerA r else playerB r in
  let v := if currentDelta r >? 0
           then Render.num 21 ++ js "-" ++ Render.num z
           else Render.num z ++ js "-" ++ Render.num 21 in
  safeScores (playNext v tt bd sq tn) = true ->
  exists r',
    analyzeMatch (playNext v tt bd sq tn) a b = Return r' /\
    sportsRemaining r' = 1 /\
    (z <= d - 1 -> status r' = finished /\ winner r' = Some leading) /\
    (d <= z -> status r' = in_progress).
Proof.
  intros _ Hr Hst Hrem Hd Hz d leading v _.
  destruct (engine_in_progress tt bd sq tn a b r Hr Hst)
    as (s & Hs & _ & HpA & HpB & _ & _ & HD & Hk & _ & _ & _).
  assert (Hv : parsed (VStr v)
               = Some (if currentDelta r >? 0 then (21, z) else (z, 21))).
  { unfold parsed, v. destruct (currentDelta r >? 0);
      rewrite parse_rendered by lia; reflexivity. }
  set (p := if currentDelta r >? 0 then (21, z) else (z, 21)) in *.
  assert (Hp : parsed (VStr v) = Some (fst p, snd p))
    by (rewrite Hv; destruct p; reflexivity).
  destruct (playNext_outcome v (fst p) (snd p) tt bd sq tn a b s Hs Hp)
    as (r' & Hr' & _ & Hk' & _ & Hv' & Hw').
  subst p.
  exists r'. split; [exact Hr'|].
  rewrite Hk', Hv', Hw'. rewrite Hrem in Hk.
  subst leading d. rewrite HpA, HpB. rewrite HD in *.
  set (D := pointsA (input tt bd sq tn) - pointsB (input tt bd sq tn)) in *.
  replace (playedCount (input tt bd sq tn) + 1) with 3 by lia.
  split; [reflexivity|].
  unfold verdict. change ((4 - 3) * 21) with 21. cbn [Z.eqb Pos.eqb].
  destruct (Z.gtb_spec D 0) as [Hpos|Hneg]; cbn [fst snd].
  - replace (pointsA (input tt bd sq tn) + 21
             - (pointsB (input tt bd sq tn) + z)) with (D + 21 - z)
      by (subst D; lia).
    replace (Z.abs D) with D in * by lia.
    split; intros Hc;
      destruct (Z.gtb_spec (Z.abs (D + 21 - z)) 21); try lia; try reflexivity.
    split; [reflexivity|].
    destruct (Z.gtb_spec (D + 21 - z) 0); [reflexivity|lia].
  - replace (pointsA (input tt bd sq tn) + z
             - (pointsB (input tt bd sq tn) + 21)) with (D + z - 21)
      by (subst D; lia).
    assert (HD' : Z.abs D = - D) by lia. rewrite HD' in *.
    split; intros Hc;
      destruct (Z.gtb_spec (Z.abs (D + z - 21)) 21); try lia; try reflexivity.
    split; [reflexivity|].
    destruct (Z.gtb_spec (D + z - 21) 0); [lia|reflexivity].
Qed.

Lemma skip_tennis_threshold_witness :
  exists r r',
    analyzeMatch (input (Some (js "21-10")) (Some (js "21-15")) None None)
      None None = Return r /\
    currentDelta r = 17 /\
    analyzeMatch
      (playNext (Render.num 21 ++ js "-" ++ Render.num 16)
         (Some (js "21-10")) (Some (js "21-15")) None None)
      None None = Return r' /\
    status r' = finished /\ winner r' = Some (js "Joueur A").
Proof.
  eexists.
  match goal with
  | |- exists r', ?A = Return ?r /\ _ =>
      assert (Hr : A = Return r) by (vm_compute; reflexivity);
      destruct (skip_tennis_threshold
                  (Some (js "21-10")) (Some (js "21-15")) None None
                  None None r 16 eq_refl Hr)
        as (r' & Hr' & _ & Hwin & _);
      [ reflexivity | reflexivity | cbn [currentDelta]; lia | lia | vm_compute; reflexivity | ]
  end.
  exists r'. split; [exact Hr|]. split; [reflexivity|].
  split; [exact Hr'|]. apply Hwin. cbn [currentDelta]. lia.
Defined.

(** ** The engine on any scores object *)

Ltac run_engine_with Hs :=
  unfold analyzeMatch;
  match goal with
  | |- context [forOf SPORTS (parseSport ?sc) ?r0] =>
      let H := fresh in
      pose proof (loop_result sc (playerA r0) (playerB r0) Hs) as H;
      unfold initialResult in H; cbn [playerA playerB] in H;
      rewrite H; clear H
  end;
  cbv beta iota zeta delta
    [bind set_sportsRemaining set_currentDelta set_maxRemainingPoints
     set_status set_winner set_analysis push
     playerA playerB sports totalA totalB currentDelta sportsPlayed
     sportsRemaining maxRemainingPoints status winner analysis
     MAX_POINTS_PER_SET toStr].

Lemma engine_cases_any scores (a b : option jsstring) :
  stringScores scores ->
  exists r,
    analyzeMatch scores a b = Return r /\
    EngineCase scores (orDefault a (js "Joueur A")) (orDefault b (js "Joueur B")) r.
Proof.
  intros Hstr. run_engine_with Hstr.
  pose proof (playedCount_range scores) as Hn.
  destruct (Z.eqb_spec (playedCount scores) 4) as [H4|H4].
  - destruct (Z.eqb_spec (pointsA scores - pointsB scores) 0) as [H0|H0];
      eexists; (split; [reflexivity|]).
    + apply case_gummiarm; lia.
    + apply case_finished; lia.
  - destruct (Z.gtb_spec (Z.abs (pointsA scores - pointsB scores))
                ((4 - playedCount scores) * 21)) as [Hd|Hd].
    + eexists; split; [reflexivity|]. apply case_decided; lia.
    + rewrite generate_string by reflexivity.
      cbv beta iota zeta delta
        [set_analysis playerA playerB sports totalA totalB currentDelta
         sportsPlayed sportsRemaining maxRemainingPoints status winner analysis].
      destruct (nextSport_some scores H4) as (s & Hs & Hp). rewrite Hs.
      eexists; split; [reflexivity|].
      apply (case_in_progress scores _ _ s); try assumption; lia.
Qed.

(** ** Errors *)

Lemma parseScore_throws v :
  parseScore v = Throw TypeError <-> truthy v = true /\ isString v = false.
Proof.
  split.
  - destruct v as [| |s|n]; try discriminate.
    + intros H. pose proof (parseScore_string (Some s)) as Hs.
      cbn [ofOpt] in Hs. rewrite Hs in H. discriminate.
    + unfold parseScore. destruct (truthy (VNum n)); [|discriminate].
      intros _. split; reflexivity.
  - intros [Ht Hs]. unfold parseScore. rewrite Ht. cbn [negb].
    destruct v as [| |s|n]; try discriminate; reflexivity.
Qed.

Lemma parseScore_returns v :
  (forall n, v = VNum n -> truthy v = false) -> parseScore v = Return (parsed v).
Proof.
  intros H. unfold parsed.
  destruct (parseScore v) as [p|[]] eqn:E; [reflexivity|].
  apply parseScore_throws in E as [Ht Hs].
  destruct v as [| |s|n]; try discriminate.
  rewrite (H n eq_refl) in Ht. discriminate.
Qed.

Lemma forOf_throws scores (l : list Sport) s :
  In s l -> parseScore (scores s) = Throw TypeError ->
  forall r, forOf l (parseSport scores) r = Throw TypeError.
Proof.
  intros Hin Hs. induction l as [|x l IH]; [destruct Hin|].
  intros r. cbn [forOf].
  destruct (parseSport scores r x) as [r'|[]] eqn:E; [|reflexivity].
  cbn [bind]. destruct Hin as [->|Hin]; [|now apply IH].
  unfold parseSport in E. rewrite Hs in E. discriminate.
Qed.

(** X17: [analyzeMatch] throws exactly when one of the four scores is
    truthy and not a string (it has no [trim] method): among the numbers,
    every one but zero and [NaN], which are falsy and read as "not played".
    When every score that is not a string is falsy (absent, [null], 0 or
    [NaN]) it returns a result. *)
Theorem analyzeMatch_throws_iff (scores : Scores) (a b : option jsstring) :
  (analyzeMatch scores a b = Throw TypeError <->
   exists s, truthy (scores s) = true /\ isString (scores s) = false) /\
  ((forall s, isString (scores s) = false -> truthy (scores s) = false) ->
   exists r, analyzeMatch scores a b = Return r) /\
  (forall n, truthy (VNum n) = false <-> n = Int 0 \/ n = NaN).
Proof.
  assert (Hret : (forall s, isString (scores s) = false ->
                            truthy (scores s) = false) ->
                 exists r, analyzeMatch scores a b = Return r).
  { intros H.
    destruct (engine_cases_any scores a b) as (r & Hr & _).
    - intros s. apply parseScore_returns. intros n Hn. apply H.
      rewrite Hn. reflexivity.
    - exists r. exact Hr. }
  split; [|split; [exact Hret|]].
  - split.
    + intros Ht.
      destruct (parseScore (scores tabletennis)) as [p1|[]] eqn:E1;
        [|apply parseScore_throws in E1; eauto].
      destruct (parseScore (scores badminton)) as [p2|[]] eqn:E2;
        [|apply parseScore_throws in E2; eauto].
      destruct (parseScore (scores squash)) as [p3|[]] eqn:E3;
        [|apply parseScore_throws in E3; eauto].
      destruct (parseScore (scores tennis)) as [p4|[]] eqn:E4;
        [|apply parseScore_throws in E4; eauto].
      exfalso. destruct Hret as (r & Hr); [|rewrite Hr in Ht; discriminate].
      intros s Hs.
      destruct (truthy (scores s)) eqn:Hn; [exfalso|reflexivity].
      assert (Hth : parseScore (scores s) = Throw TypeError)
        by (apply parseScore_throws; auto).
      destruct s; congruence.
    + intros (s & Hn & Hs).
      unfold analyzeMatch. cbv zeta.
      rewrite (forOf_throws scores SPORTS s); [reflexivity| |].
      * destruct s; cbn; auto.
      * apply parseScore_throws. auto.
  - intros n. split.
    + destruct n as [z| |neg]; cbn [truthy]; try discriminate; [|now right].
      destruct (Z.eqb_spec z 0) as [->|]; [now left|discriminate].
    + intros [->| ->]; reflexivity.
Qed.

(** ** The page: reading the score fields *)

Lemma Sport_eqb_eq a b : Sport_eqb a b = true <-> a = b.
Proof. destruct a, b; cbn; split; congruence. Qed.

Lemma Sport_eqb_refl a : Sport_eqb a a = true.
Proof. now apply Sport_eqb_eq. Qed.

Lemma Sport_eqb_neq a b : a <> b -> Sport_eqb a b = false.
Proof.
  intros H. destruct (Sport_eqb a b) eqn:E; [|reflexivity].
  apply Sport_eqb_eq in E. contradiction.
Qed.

Lemma rowOf_absent rows s : ~ In s (map rowSport rows) -> rowOf rows s = None.
Proof.
  unfold rowOf. induction rows as [|row rows IH]; [reflexivity|].
  cbn [map In find]. intros H.
  rewrite Sport_eqb_neq by (intros E; apply H; now left).
  apply IH. intros Hin. apply H. now right.
Qed.

Lemma getScores_from_lookup rows : forall init,
  NoDup (map rowSport rows) ->
  forall s,
    fold_left
      (fun scores row =>
         let scoreA := fieldA row in
         let scoreB := fieldB row in
         if notEmpty scoreA && notEmpty scoreB
         then setKey scores (rowSport row) (VStr (scoreA ++ js "-" ++ scoreB))
         else scores) rows init s
    = match rowOf rows s with
      | Some row =>
          if filled row then VStr (fieldA row ++ js "-" ++ fieldB row)
          else init s
      | None => init s
      end.
Proof.
  induction rows as [|row rows IH]; intros init Hnd s; [reflexivity|].
  cbn [map] in Hnd. apply NoDup_cons_iff in Hnd as [Hnotin Hnd].
  cbn [fold_left]. rewrite (IH _ Hnd s). cbv zeta.
  unfold rowOf at 2. cbn [find]. fold (rowOf rows s).
  destruct (Sport_eqb (rowSport row) s) eqn:E.
  - apply Sport_eqb_eq in E. subst s.
    rewrite (rowOf_absent rows _ Hnotin). unfold filled.
    destruct (notEmpty (fieldA row) && notEmpty (fieldB row)); [|reflexivity].
    unfold setKey. now rewrite Sport_eqb_refl.
  - assert (Hinit : (if notEmpty (fieldA row) && notEmpty (fieldB row)
                     then setKey init (rowSport row)
                            (VStr (fieldA row ++ js "-" ++ fieldB row))
                     else init) s = init s).
    { destruct (notEmpty (fieldA row) && notEmpty (fieldB row)); [|reflexivity].
      unfold setKey. now rewrite E. }
    rewrite Hinit. reflexivity.
Qed.

Lemma getScores_lookup rows s :
  NoDup (map rowSport rows) ->
  getScores rows s
    = match rowOf rows s with
      | Some row =>
          if filled row then VStr (fieldA row ++ js "-" ++ fieldB row)
          else VUndefined
      | None => VUndefined
      end.
Proof. intros H. unfold getScores. now rewrite getScores_from_lookup. Qed.

Lemma getScores_from_strings rows : forall init,
  (forall s n, init s <> VNum n) ->
  forall s n,
    fold_left
      (fun scores row =>
         let scoreA := fieldA row in
         let scoreB := fieldB row in
         if notEmpty scoreA && notEmpty scoreB
         then setKey scores (rowSport row) (VStr (scoreA ++ js "-" ++ scoreB))
         else scores) rows init s <> VNum n.
Proof.
  induction rows as [|row rows IH]; intros init Hinit s n; [apply Hinit|].
  cbn [fold_left]. apply IH. cbv zeta. intros s' n'.
  destruct (notEmpty (fieldA row) && notEmpty (fieldB row)); [|apply Hinit].
  unfold setKey. destruct (Sport_eqb (rowSport row) s'); [discriminate|apply Hinit].
Qed.

Lemma getScores_strings rows : stringScores (getScores rows).
Proof.
  intros s. apply parseScore_returns. intros n H. exfalso.
  revert H. unfold getScores. apply getScores_from_strings. discriminate.
Qed.

Lemma parse_fields A B :
  A <> [] -> B <> [] ->
  forallb isDigit A = true -> forallb isDigit B = true ->
  parsed (VStr (A ++ js "-" ++ B)) = Some (parseInt A, parseInt B).
Proof.
  intros HA HB HdA HdB. unfold parsed.
  assert (H : parseScore (VStr (A ++ js "-" ++ B))
              = Return (Some (parseInt A, parseInt B))).
  { apply parseScore_Some. exists A, B.
    rewrite !removeSpaces_app, (removeSpaces_digits _ HdA),
      (removeSpaces_digits _ HdB).
    repeat split; auto. }
  now rewrite H.
Qed.

Lemma fold_digitValue l :
  forallb isDigit l = true ->
  forall acc,
    fold_left (fun acc c => 10 * acc + digitValue c) l acc
    = fold_left (fun acc c => 10 * acc + (Z.of_N c - 48)) l acc.
Proof.
  induction l as [|x l IH]; intros Hall acc; [reflexivity|].
  cbn [forallb] in Hall. apply andb_true_iff in Hall as [Hx Hl].
  cbn [fold_left]. unfold digitValue at 2. rewrite Hx. now apply IH.
Qed.

Lemma parseIntAuto_digits v :
  v <> [] -> forallb isDigit v = true -> parseIntAuto v = Some (parseInt v).
Proof.
  intros Hne Hd. destruct v as [|c t]; [contradiction|].
  pose proof Hd as Hall. cbn [forallb] in Hd.
  apply andb_true_iff in Hd as [Hc Ht].
  unfold parseIntAuto. cbn [dropWhile]. rewrite (digit_not_space c Hc).
  assert (H45 : (c =? 45)%N = false /\ (c =? 43)%N = false).
  { unfold isDigit in Hc. apply andb_true_iff in Hc as [H1 H2].
    apply N.leb_le in H1, H2. split; apply N.eqb_neq; lia. }
  destruct H45 as [-> ->].
  assert (Hpre : (let '(radix, s) :=
                    match c :: t with
                    | c0 :: c1 :: t' =>
                        if ((c0 =? 48) && ((c1 =? 120) || (c1 =? 88)))%N
                        then (16, t') else (10, c :: t)
                    | _ => (10, c :: t)
                    end in (radix, s)) = (10, c :: t)).
  { destruct t as [|c1 t']; [reflexivity|].
    cbn [forallb] in Ht. apply andb_true_iff in Ht as [Hc1 _].
    unfold isDigit in Hc1. apply andb_true_iff in Hc1 as [H1 H2].
    apply N.leb_le in H1, H2.
    assert (E1 : (c1 =? 120)%N = false) by (apply N.eqb_neq; lia).
    assert (E2 : (c1 =? 88)%N = false) by (apply N.eqb_neq; lia).
    rewrite E1, E2, andb_false_r. reflexivity. }
  destruct (match c :: t with
            | c0 :: c1 :: t' =>
                if ((c0 =? 48) && ((c1 =? 120) || (c1 =? 88)))%N
                then (16, t') else (10, c :: t)
            | _ => (10, c :: t)
            end) as [radix s] eqn:E.
  injection Hpre as -> ->. cbn [Z.eqb Pos.eqb].
  assert (Htw : takeWhile isDigit (c :: t) = c :: t).
  { pose proof (takeWhile_dropWhile isDigit (c :: t)) as H.
    rewrite (dropWhile_all isDigit _ Hall), app_nil_r in H. exact H. }
  rewrite Htw. f_equal. rewrite Z.mul_1_l. unfold parseInt.
  now apply fold_digitValue.
Qed.

(** ** The page: its totals and the engine's *)

Lemma updateTotals_from rows : forall tA tB,
  fold_left
    (fun totals row =>
       let scoreA := orZero (parseIntAuto (fieldA row)) in
       let scoreB := orZero (parseIntAuto (fieldB row)) in
       if notEmpty (fieldA row) && notEmpty (fieldB row)
       then (fst totals + scoreA, snd totals + scoreB)
       else totals) rows (tA, tB)
  = (tA + sumZ (map rowPointsA rows), tB + sumZ (map rowPointsB rows)).
Proof.
  induction rows as [|row rows IH]; intros tA tB.
  - cbn. f_equal; lia.
  - cbn [fold_left map]. rewrite !sumZ_cons. cbv zeta.
    unfold rowPointsA at 1, rowPointsB at 1, filled.
    destruct (notEmpty (fieldA row) && notEmpty (fieldB row));
      cbn [fst snd]; rewrite IH; f_equal; lia.
Qed.

Lemma sum_by_sport (f : Row -> Z) rows :
  NoDup (map rowSport rows) ->
  sumZ (map f rows)
    = sumZ (map (fun s => match rowOf rows s with
                          | Some row => f row
                          | None => 0
                          end) SPORTS).
Proof.
  induction rows as [|row rows IH]; intros Hnd; [reflexivity|].
  cbn [map] in Hnd. apply NoDup_cons_iff in Hnd as [Hnotin Hnd].
  cbn [map]. rewrite sumZ_cons, (IH Hnd).
  pose proof (rowOf_absent rows _ Hnotin) as Habs.
  unfold SPORTS. cbn [map]. rewrite !sumZ_cons. change (sumZ []) with 0.
  unfold rowOf in *. cbn [find].
  destruct (rowSport row); cbn [Sport_eqb]; rewrite Habs; lia.
Qed.

Lemma notEmpty_ne v : notEmpty v = true -> v <> [].
Proof. destruct v; [discriminate|discriminate]. Qed.

Lemma page_points rows s :
  NoDup (map rowSport rows) -> digitFields rows ->
  ptsA (getScores rows) s
    = match rowOf rows s with Some row => rowPointsA row | None => 0 end /\
  ptsB (getScores rows) s
    = match rowOf rows s with Some row => rowPointsB row | None => 0 end.
Proof.
  intros Hnd Hdig. unfold ptsA, ptsB. rewrite (getScores_lookup rows s Hnd).
  destruct (rowOf rows s) as [row|] eqn:E; [|split; reflexivity].
  unfold rowPointsA, rowPointsB.
  destruct (filled row) eqn:F; [|split; reflexivity].
  apply find_some in E as [Hin _]. destruct (Hdig row Hin) as [HA HB].
  unfold filled in F. apply andb_true_iff in F as [FA FB].
  apply notEmpty_ne in FA, FB.
  rewrite (parse_fields _ _ FA FB HA HB).
  rewrite (parseIntAuto_digits _ FA HA), (parseIntAuto_digits _ FB HB).
  split; reflexivity.
Qed.

(** X18: the totals shown by the page are the totals the engine works
    with.  For rows with distinct sports whose fields hold only digits (or
    nothing), [analyzeMatch] on the scores read by [getScores] returns a
    result whose [totalA] and [totalB] are the totals computed by
    [updateTotals].
    Stated for field values and totals of at most [MAX_SAFE_INTEGER]
    ([safeRows]), where the additions do not depend on the order of the
    rows and are those of the code. *)
Theorem page_totals_agree (rows : list Row) (a b : option jsstring) :
  safeRows rows = true ->
  NoDup (map rowSport rows) ->
  digitFields rows ->
  exists r,
    analyzeMatch (getScores rows) a b = Return r /\
    (totalA r, totalB r) = updateTotals rows.
Proof.
  intros _ Hnd Hdig.
  destruct (engine_cases_any (getScores rows) a b (getScores_strings rows))
    as (r & Hr & Hc).
  exists r. split; [exact Hr|].
  apply engine_frame in Hc. destruct Hc as (st & w & Hf).
  change (totalA r) with (totalA (frame r)).
  change (totalB r) with (totalB (frame r)).
  rewrite Hf. cbn [totalA totalB baseResult].
  unfold updateTotals. rewrite updateTotals_from.
  rewrite (sum_by_sport rowPointsA rows Hnd), (sum_by_sport rowPointsB rows Hnd).
  destruct (totals_by_sport (getScores rows)) as (-> & -> & _).
  destruct (page_points rows tabletennis Hnd Hdig) as [-> ->].
  destruct (page_points rows badminton Hnd Hdig) as [-> ->].
  destruct (page_points rows squash Hnd Hdig) as [-> ->].
  destruct (page_points rows tennis Hnd Hdig) as [-> ->].
  unfold SPORTS. cbn [map]. rewrite !sumZ_cons. change (sumZ []) with 0.
  f_equal; lia.
Qed.

Lemma page_totals_agree_witness :
  exists r,
    analyzeMatch
      (getScores
         [ {| rowSport := tabletennis; fieldA := js "21"; fieldB := js "15" |};
           {| rowSport := badminton; fieldA := js "18"; fieldB := js "" |};
           {| rowSport := squash; fieldA := js "07"; fieldB := js "21" |};
           {| rowSport := tennis; fieldA := js ""; fieldB := js "" |} ])
      None None = Return r /\
    (totalA r, totalB r) = (28, 36).
Proof.
  destruct (page_totals_agree
              [ {| rowSport := tabletennis; fieldA := js "21"; fieldB := js "15" |};
                {| rowSport := badminton; fieldA := js "18"; fieldB := js "" |};
                {| rowSport := squash; fieldA := js "07"; fieldB := js "21" |};
                {| rowSport := tennis; fieldA := js ""; fieldB := js "" |} ]
              None None) as (r & Hr & Ht).
  - vm_compute; reflexivity.
  - repeat constructor; cbn; intuition discriminate.
  - intros row Hin. cbn [In] in Hin.
    repeat (destruct Hin as [<-|Hin]; [split; reflexivity|]). destruct Hin.
  - exists r. split; [exact Hr|]. rewrite Ht. reflexivity.
Defined.

(** ** The page: the cap of a score field *)

Lemma capInput_digits v :
  forallb isDigit v = true ->
  forallb isDigit (capInput v) = true /\
  (capInput v <> [] -> parseInt (capInput v) = Z.min (parseInt v) 21) /\
  (capInput v = [] <-> v = []).
Proof.
  intros Hd. unfold capInput.
  destruct v as [|c t]; [cbn; repeat split; intros; congruence|].
  cbn [notEmpty andb].
  rewrite (parseIntAuto_digits (c :: t)) by (auto; discriminate).
  destruct (Z.gtb_spec (parseInt (c :: t)) 21).
  - repeat split; try reflexivity; try discriminate.
    intros _. change (parseInt (js "21")) with 21. lia.
  - repeat split; auto; try discriminate. intros _. lia.
Qed.

(** X19: the cap of the score fields bounds what the engine reads.  For
    rows with distinct sports and digit-only fields, once every field went
    through its handler every score parsed from [getScores] is at most 21
    a side. *)
Theorem capped_page (rows : list Row) :
  NoDup (map rowSport rows) ->
  digitFields rows ->
  capped (getScores (capRows rows)).
Proof.
  intros Hnd Hdig s x y.
  assert (Hnd' : NoDup (map rowSport (capRows rows))).
  { unfold capRows. rewrite map_map. exact Hnd. }
  rewrite (getScores_lookup _ s Hnd').
  destruct (rowOf (capRows rows) s) as [row|] eqn:E; [|discriminate].
  destruct (filled row) eqn:F; [|discriminate].
  apply find_some in E as [Hin _].
  unfold capRows in Hin. apply in_map_iff in Hin as (row0 & <- & Hin0).
  destruct (Hdig row0 Hin0) as [HA HB].
  destruct (capInput_digits _ HA) as (HA' & HvA & _).
  destruct (capInput_digits _ HB) as (HB' & HvB & _).
  cbn [fieldA fieldB] in *. unfold filled in F. cbn [fieldA fieldB] in F.
  apply andb_true_iff in F as [FA FB]. apply notEmpty_ne in FA, FB.
  rewrite (parse_fields _ _ FA FB HA' HB').
  intros H. injection H as <- <-. rewrite (HvA FA), (HvB FB). lia.
Qed.

Lemma capped_page_witness :
  capped
    (getScores
       (capRows
          [ {| rowSport := tabletennis; fieldA := js "99"; fieldB := js "3" |} ])).
Proof.
  apply capped_page.
  - repeat constructor. cbn. tauto.
  - intros row [<-|[]]. split; reflexivity.
Defined.

(** ** The page: applying recognised scores *)

Lemma writeRow_sports k a b rows :
  map rowSport (writeRow k a b rows) = map rowSport rows.
Proof.
  induction rows as [|row rows IH]; [reflexivity|].
  cbn [writeRow]. destruct (Sport_eqb (rowSport row) k) eqn:E.
  - apply Sport_eqb_eq in E. cbn [map rowSport]. now rewrite E.
  - cbn [map]. now rewrite IH.
Qed.

Lemma rowOf_writeRow k a b rows s :
  rowOf (writeRow k a b rows) s
    = if Sport_eqb k s then
        match rowOf rows k with
        | Some _ => Some {| rowSport := k; fieldA := a; fieldB := b |}
        | None => None
        end
      else rowOf rows s.
Proof.
  unfold rowOf. induction rows as [|row rows IH].
  - cbn. now destruct (Sport_eqb k s).
  - cbn [writeRow find]. destruct (Sport_eqb (rowSport row) k) eqn:E.
    + apply Sport_eqb_eq in E. cbn [find rowSport]. rewrite E.
      destruct (Sport_eqb k s); reflexivity.
    + cbn [find]. rewrite IH.
      destruct (Sport_eqb k s) eqn:Eks; [|reflexivity].
      apply Sport_eqb_eq in Eks. subst s. now rewrite E.
Qed.

Lemma searchScore_canonical d1 d2 :
  d1 <> [] -> d2 <> [] ->
  forallb isDigit d1 = true -> forallb isDigit d2 = true ->
  searchScore (d1 ++ js "-" ++ d2) = Some (d1, d2).
Proof.
  intros H1 H2 Hd1 Hd2.
  assert (Hm : matchScoreAt (d1 ++ js "-" ++ d2) = Some (d1, d2)).
  { unfold matchScoreAt. cbv zeta.
    change (d1 ++ js "-" ++ d2) with (d1 ++ hyphen :: d2).
    destruct (span_stop isDigit d1 hyphen d2 Hd1 eq_refl) as [-> ->].
    destruct d1 as [|x t]; [contradiction|].
    assert (Htw : takeWhile isDigit d2 = d2).
    { pose proof (takeWhile_dropWhile isDigit d2) as H.
      rewrite (dropWhile_all isDigit _ Hd2), app_nil_r in H. exact H. }
    rewrite Htw, N.eqb_refl. destruct d2; [contradiction|reflexivity]. }
  destruct d1 as [|x t]; [contradiction|].
  change ((x :: t) ++ js "-" ++ d2) with (x :: (t ++ js "-" ++ d2)) in *.
  cbn [searchScore]. now rewrite Hm.
Qed.

Lemma setScores_step scores rows k :
  (match scores k with
   | None => rows
   | Some score =>
       if negb (truthy (VStr score)) then rows
       else match searchScore score with
            | None => rows
            | Some (m1, m2) => writeRow k m1 m2 rows
            end
   end)
  = match recognised scores k with
    | None => rows
    | Some (m1, m2) => writeRow k m1 m2 rows
    end.
Proof.
  unfold recognised. destruct (scores k) as [score|]; [|reflexivity].
  destruct (negb (truthy (VStr score))); reflexivity.
Qed.

Lemma rowOf_setScores scores rows s :
  (forall k, In k (map rowSport rows)) ->
  rowOf (setScores scores rows) s
    = match recognised scores s with
      | Some (m1, m2) => Some {| rowSport := s; fieldA := m1; fieldB := m2 |}
      | None => rowOf rows s
      end.
Proof.
  intros Hall. unfold setScores, SPORTS. cbn [fold_left].
  rewrite !setScores_step.
  assert (Hex : forall rows', map rowSport rows' = map rowSport rows ->
                  forall k, exists row, rowOf rows' k = Some row).
  { intros rows' Hm k. unfold rowOf.
    destruct (find (fun row => Sport_eqb (rowSport row) k) rows') eqn:E; [eauto|].
    exfalso. specialize (Hall k). rewrite <- Hm in Hall.
    apply in_map_iff in Hall as (row & Hk & Hin).
    apply (find_none _ _ E) in Hin. rewrite Hk, Sport_eqb_refl in Hin.
    discriminate. }
  set (r1 := match recognised scores tabletennis with
             | Some (m1, m2) => writeRow tabletennis m1 m2 rows | None => rows end).
  set (r2 := match recognised scores badminton with
             | Some (m1, m2) => writeRow badminton m1 m2 r1 | None => r1 end).
  set (r3 := match recognised scores squash with
             | Some (m1, m2) => writeRow squash m1 m2 r2 | None => r2 end).
  assert (M1 : map rowSport r1 = map rowSport rows).
  { subst r1. destruct (recognised scores tabletennis) as [[? ?]|];
      [apply writeRow_sports|reflexivity]. }
  assert (M2 : map rowSport r2 = map rowSport rows).
  { subst r2. destruct (recognised scores badminton) as [[? ?]|];
      [rewrite writeRow_sports|]; exact M1. }
  assert (M3 : map rowSport r3 = map rowSport rows).
  { subst r3. destruct (recognised scores squash) as [[? ?]|];
      [rewrite writeRow_sports|]; exact M2. }
  assert (S1 : forall k, rowOf r1 k
                 = if Sport_eqb tabletennis k then
                     match recognised scores tabletennis with
                     | Some (m1, m2) =>
                         Some {| rowSport := tabletennis; fieldA := m1; fieldB := m2 |}
                     | None => rowOf rows k
                     end
                   else rowOf rows k).
  { intros k. subst r1. destruct (recognised scores tabletennis) as [[m1 m2]|].
    - rewrite rowOf_writeRow. destruct (Sport_eqb tabletennis k); [|reflexivity].
      destruct (Hex rows eq_refl tabletennis) as (row & ->). reflexivity.
    - destruct (Sport_eqb tabletennis k); reflexivity. }
  assert (S2 : forall k, rowOf r2 k
                 = if Sport_eqb badminton k then
                     match recognised scores badminton with
                     | Some (m1, m2) =>
                         Some {| rowSport := badminton; fieldA := m1; fieldB := m2 |}
                     | None => rowOf r1 k
                     end
                   else rowOf r1 k).
  { intros k. subst r2. destruct (recognised scores badminton) as [[m1 m2]|].
    - rewrite rowOf_writeRow. destruct (Sport_eqb badminton k); [|reflexivity].
      destruct (Hex r1 M1 badminton) as (row & ->). reflexivity.
    - destruct (Sport_eqb badminton k); reflexivity. }
  assert (S3 : forall k, rowOf r3 k
                 = if Sport_eqb squash k then
                     match recognised scores squash with
                     | Some (m1, m2) =>
                         Some {| rowSport := squash; fieldA := m1; fieldB := m2 |}
                     | None => rowOf r2 k
                     end
                   else rowOf r2 k).
  { intros k. subst r3. destruct (recognised scores squash) as [[m1 m2]|].
    - rewrite rowOf_writeRow. destruct (Sport_eqb squash k); [|reflexivity].
      destruct (Hex r2 M2 squash) as (row & ->). reflexivity.
    - destruct (Sport_eqb squash k); reflexivity. }
  assert (S4 : rowOf (match recognised scores tennis with
                      | Some (m1, m2) => writeRow tennis m1 m2 r3
                      | None => r3 end) s
               = if Sport_eqb tennis s then
                   match recognised scores tennis with
                   | Some (m1, m2) =>
                       Some {| rowSport := tennis; fieldA := m1; fieldB := m2 |}
                   | None => rowOf r3 s
                   end
                 else rowOf r3 s).
  { destruct (recognised scores tennis) as [[m1 m2]|].
    - rewrite rowOf_writeRow. destruct (Sport_eqb tennis s); [|reflexivity].
      destruct (Hex r3 M3 tennis) as (row & ->). reflexivity.
    - destruct (Sport_eqb tennis s); reflexivity. }
  rewrite S4, S3, S2, S1.
  destruct s; cbn [Sport_eqb]; reflexivity.
Qed.

Lemma setScores_sports scores rows :
  map rowSport (setScores scores rows) = map rowSport rows.
Proof.
  unfold setScores, SPORTS. cbn [fold_left]. rewrite !setScores_step.
  repeat match goal with
         | |- context [match recognised scores ?k with _ => _ end] =>
             destruct (recognised scores k) as [[? ?]|]
         end;
  rewrite ?writeRow_sports; reflexivity.
Qed.

(** X20: applying recognised scores and reading the fields back.  When
    the page has one row per sport and every recognised score is written
    digits-digits, then after [setScores] the scores read by [getScores]
    are the recognised ones; a sport without a recognised score keeps what
    its fields held. *)
Theorem getScores_after_setScores (scores : Sport -> option jsstring)
    (rows : list Row) :
  NoDup (map rowSport rows) ->
  (forall k, In k (map rowSport rows)) ->
  (forall k score, scores k = Some score ->
     exists d1 d2, score = d1 ++ js "-" ++ d2 /\ d1 <> [] /\ d2 <> [] /\
                   forallb isDigit d1 = true /\ forallb isDigit d2 = true) ->
  forall s,
    getScores (setScores scores rows) s
      = match scores s with
        | Some score => VStr score
        | None => getScores rows s
        end.
Proof.
  intros Hnd Hall Hcan s.
  assert (Hnd' : NoDup (map rowSport (setScores scores rows)))
    by (rewrite setScores_sports; exact Hnd).
  rewrite (getScores_lookup _ s Hnd'), (rowOf_setScores scores rows s Hall).
  unfold recognised.
  destruct (scores s) as [score|] eqn:E.
  - destruct (Hcan s score E) as (d1 & d2 & -> & H1 & H2 & Hd1 & Hd2).
    assert (Ht : truthy (VStr (d1 ++ js "-" ++ d2)) = true)
      by (destruct d1; [contradiction|reflexivity]).
    rewrite Ht. cbn [negb].
    rewrite (searchScore_canonical d1 d2 H1 H2 Hd1 Hd2).
    unfold filled. cbn [fieldA fieldB].
    destruct d1; [contradiction|]. destruct d2; [contradiction|]. reflexivity.
  - symmetry. apply getScores_lookup. exact Hnd.
Qed.

Lemma getScores_after_setScores_witness :
  getScores
    (setScores
       (fun s => match s with
                 | tabletennis => Some (js "21-15")
                 | _ => None
                 end)
       [ {| rowSport := tabletennis; fieldA := js "3"; fieldB := js "" |};
         {| rowSport := badminton; fieldA := js "11"; fieldB := js "21" |};
         {| rowSport := squash; fieldA := js ""; fieldB := js "" |};
         {| rowSport := tennis; fieldA := js ""; fieldB := js "" |} ])
    tabletennis
  = VStr (js "21-15").
Proof.
  apply (getScores_after_setScores
           (fun s => match s with
                     | tabletennis => Some (js "21-15")
                     | _ => None
                     end)
           [ {| rowSport := tabletennis; fieldA := js "3"; fieldB := js "" |};
             {| rowSport := badminton; fieldA := js "11"; fieldB := js "21" |};
             {| rowSport := squash; fieldA := js ""; fieldB := js "" |};
             {| rowSport := tennis; fieldA := js ""; fieldB := js "" |} ]).
  - repeat constructor; cbn; intuition discriminate.
  - intros k. destruct k; cbn; auto.
  - intros k score H. destruct k; try discriminate. injection H as <-.
    exists (js "21"), (js "15"). repeat split; try reflexivity; discriminate.
Defined.

(** ** The page: when an analysis is shown *)

Lemma getScores_from_unfilled rows : forall init,
  (forall row, In row rows -> filled row = false) ->
  fold_left
    (fun scores row =>
       let scoreA := fieldA row in
       let scoreB := fieldB row in
       if notEmpty scoreA && notEmpty scoreB
       then setKey scores (rowSport row) (VStr (scoreA ++ js "-" ++ scoreB))
       else scores) rows init = init.
Proof.
  induction rows as [|row rows IH]; intros init H; [reflexivity|].
  cbn [fold_left]. cbv zeta.
  pose proof (H row (or_introl eq_refl)) as Hf. unfold filled in Hf. rewrite Hf.
  apply IH. intros r Hr. apply H. now right.
Qed.

Lemma getScores_from_keeps rows : forall init s v,
  init s = VStr v ->
  exists v',
    fold_left
      (fun scores row =>
         let scoreA := fieldA row in
         let scoreB := fieldB row in
         if notEmpty scoreA && notEmpty scoreB
         then setKey scores (rowSport row) (VStr (scoreA ++ js "-" ++ scoreB))
         else scores) rows init s = VStr v'.
Proof.
  induction rows as [|row rows IH]; intros init s v H; [eauto|].
  cbn [fold_left]. cbv zeta.
  destruct (notEmpty (fieldA row) && notEmpty (fieldB row)); [|eapply IH; eauto].
  destruct (Sport_eqb (rowSport row) s) eqn:E.
  - eapply IH. unfold setKey. rewrite E. reflexivity.
  - eapply IH. unfold setKey. rewrite E. exact H.
Qed.

Lemma getScores_from_filled rows : forall init row,
  In row rows -> filled row = true ->
  exists v,
    fold_left
      (fun scores row =>
         let scoreA := fieldA row in
         let scoreB := fieldB row in
         if notEmpty scoreA && notEmpty scoreB
         then setKey scores (rowSport row) (VStr (scoreA ++ js "-" ++ scoreB))
         else scores) rows init (rowSport row) = VStr v.
Proof.
  induction rows as [|r0 rows IH]; intros init row Hin Hf; [destruct Hin|].
  cbn [fold_left]. cbv zeta. destruct Hin as [->|Hin].
  - unfold filled in Hf. rewrite Hf.
    eapply getScores_from_keeps. unfold setKey. rewrite Sport_eqb_refl.
    reflexivity.
  - now apply IH.
Qed.

Lemma noScores_getScores rows :
  noScores (getScores rows) = negb (existsb filled rows).
Proof.
  destruct (existsb filled rows) eqn:E; cbn [negb].
  - apply existsb_exists in E as (row & Hin & Hf).
    destruct (getScores_from_filled rows (fun _ => VUndefined) row Hin Hf)
      as (v & Hv).
    change (getScores rows (rowSport row) = VStr v) in Hv.
    unfold noScores, SPORTS. cbn [forallb].
    destruct (rowSport row); rewrite Hv; cbn; rewrite ?andb_false_r; reflexivity.
  - unfold getScores. rewrite getScores_from_unfilled; [reflexivity|].
    intros row Hin. destruct (filled row) eqn:F; [|reflexivity].
    assert (existsb filled rows = true)
      by (apply existsb_exists; eauto). congruence.
Qed.

(** X21: what the page shows.  [updateAnalysis] shows the placeholder
    exactly when no row has both of its score fields filled; otherwise it
    shows the result of the engine on the scores of [getScores], which is
    always a result and never an error, with "Joueur A" and "Joueur B" in
    place of empty name fields. *)
Theorem updateAnalysis_page (rows : list Row) (valueA valueB : jsstring) :
  exists r,
    analyzeMatch (getScores rows)
      (Some (orElse valueA (js "Joueur A")))
      (Some (orElse valueB (js "Joueur B"))) = Return r /\
    playerA r = (if notEmpty valueA then valueA else js "Joueur A") /\
    playerB r = (if notEmpty valueB then valueB else js "Joueur B") /\
    updateAnalysis (getScores rows) valueA valueB
      = if existsb filled rows then Some (Return r) else None.
Proof.
  destruct (engine_cases_any (getScores rows)
              (Some (orElse valueA (js "Joueur A")))
              (Some (orElse valueB (js "Joueur B")))
              (getScores_strings rows)) as (r & Hr & Hc).
  exists r. split; [exact Hr|].
  apply engine_frame in Hc. destruct Hc as (st & w & Hf).
  change (playerA r) with (playerA (frame r)).
  change (playerB r) with (playerB (frame r)).
  rewrite Hf. cbn [playerA playerB baseResult orDefault].
  split; [destruct valueA; reflexivity|].
  split; [destruct valueB; reflexivity|].
  unfold updateAnalysis. cbv zeta. rewrite noScores_getScores.
  destruct (existsb filled rows); cbn [negb]; [|reflexivity].
  f_equal. exact Hr.
Qed.
